(** * The adaptive hint engine of coderunnerhint

    A shallow embedding of [backend/app/analyzers/c_adapter.py],
    [backend/app/services/hint_engine.py], the parts of
    [backend/app/db.py] and [backend/app/schemas.py] they use, and the key
    check and the statistics endpoint of [backend/app/main.py].

    Conventions of the embedding:
    - a Python [str] is a Rocq [string]; its characters are read as the code
      points 0..255, and [lower], [\s] and [\w] are the Unicode ones on that
      range;
    - a Python [float] is a primitive binary64 float, with the arithmetic and
      the comparisons of IEEE 754 that Python uses;
    - a Python [int] and an SQLite INTEGER are [Z];
    - a [dict] whose order is observed (the catalog) is an association list;
    - calls to the collaborators (database, random source, catalog loader)
      run in a state monad whose state carries the tables, the cache, the
      random source and the log of the calls made; a Python exception
      (IntegrityError of SQLite, ZeroDivisionError) ends the run and keeps
      the state reached, as the statements before it are committed. *)

From Stdlib Require Import List String Ascii ZArith NArith Bool Lia Floats.
From Stdlib Require Import DecimalString.
From Stdlib Require Import Sorting.Permutation Sorting.Sorted.
Import ListNotations.

Set Warnings "-inexact-float".

Set Implicit Arguments.
Local Open Scope string_scope.
Local Open Scope list_scope.
Local Open Scope Z_scope.

(** ** Python strings *)

Module PyStr.

(** [str.lower] on one code point below 256: A-Z, and the upper-case
    letters of Latin-1 (0xC0-0xDE without the multiplication sign). *)
Definition lower_char (c : ascii) : ascii :=
  let n := N_of_ascii c in
  if ((65 <=? n) && (n <=? 90) ||
      (192 <=? n) && (n <=? 222) && negb (n =? 215))%N
  then ascii_of_N (n + 32) else c.

Fixpoint lower (s : string) : string :=
  match s with
  | EmptyString => EmptyString
  | String c s' => String (lower_char c) (lower s')
  end.

Fixpoint startswith (p s : string) : bool :=
  match p, s with
  | EmptyString, _ => true
  | String a p', String b s' => Ascii.eqb a b && startswith p' s'
  | String _ _, EmptyString => false
  end.

(** [sub in s]. *)
Fixpoint contains (sub s : string) : bool :=
  startswith sub s ||
  match s with
  | EmptyString => false
  | String _ s' => contains sub s'
  end.

(** [sep.join(l)]. *)
Fixpoint join (sep : string) (l : list string) : string :=
  match l with
  | [] => ""
  | [x] => x
  | x :: l' => x ++ sep ++ join sep l'
  end.

Definition nonempty (s : string) : bool :=
  match s with EmptyString => false | _ => true end.

(** [any(k in s for k in ks)]. *)
Definition any_in (ks : list string) (s : string) : bool :=
  existsb (fun k => contains k s) ks.

Definition newline : string := String (ascii_of_N 10) "".

(** [len(s.splitlines())]: a line ends at \n, \r, \r\n, \v, \f, \x1c,
    \x1d, \x1e or \x85; a last line without a terminator counts when it is
    not empty. *)
Definition is_linebreak (c : ascii) : bool :=
  let n := N_of_ascii c in
  ((10 <=? n) && (n <=? 13) || (28 <=? n) && (n <=? 30) || (n =? 133))%N.

Fixpoint count_lines (s : string) : Z :=
  match s with
  | EmptyString => 0
  | String c s' =>
      if is_linebreak c then
        match s' with
        | String d s'' =>
            if (N_of_ascii c =? 13)%N && (N_of_ascii d =? 10)%N
            then 1 + count_lines s''
            else 1 + count_lines s'
        | EmptyString => 1
        end
      else
        match s' with
        | EmptyString => 1
        | _ => count_lines s'
        end
  end.

End PyStr.

(** ** Regular expressions

    The patterns of the analyzer use literals, alternation, grouping,
    [?], [*], [+], [.], [\s], [\w] and one negated bracket class.  Whether
    [re.search] finds a match does not depend on the backtracking order, so
    the matcher works with derivatives; its agreement with the usual
    semantics of regular expressions is proved below. *)

Module Regex.

Inductive regex : Type :=
| Void
| Eps
| Sym (p : ascii -> bool)
| Cat (r1 r2 : regex)
| Alt (r1 r2 : regex)
| Star (r : regex).

Inductive Matches : regex -> list ascii -> Prop :=
| MEps : Matches Eps []
| MSym p c : p c = true -> Matches (Sym p) [c]
| MCat r1 r2 s1 s2 :
    Matches r1 s1 -> Matches r2 s2 -> Matches (Cat r1 r2) (s1 ++ s2)
| MAltL r1 r2 s : Matches r1 s -> Matches (Alt r1 r2) s
| MAltR r1 r2 s : Matches r2 s -> Matches (Alt r1 r2) s
| MStarNil r : Matches (Star r) []
| MStarApp r s1 s2 :
    Matches r s1 -> Matches (Star r) s2 -> Matches (Star r) (s1 ++ s2).

Fixpoint nullable (r : regex) : bool :=
  match r with
  | Void => false
  | Eps => true
  | Sym _ => false
  | Cat r1 r2 => nullable r1 && nullable r2
  | Alt r1 r2 => nullable r1 || nullable r2
  | Star _ => true
  end.

(** Concatenation and alternation that drop a dead branch. *)
Definition cat (r1 r2 : regex) : regex :=
  match r1, r2 with
  | Void, _ => Void
  | _, Void => Void
  | Eps, _ => r2
  | _, _ => Cat r1 r2
  end.

Definition alt (r1 r2 : regex) : regex :=
  match r1, r2 with
  | Void, _ => r2
  | _, Void => r1
  | _, _ => Alt r1 r2
  end.

Fixpoint deriv (c : ascii) (r : regex) : regex :=
  match r with
  | Void => Void
  | Eps => Void
  | Sym p => if p c then Eps else Void
  | Cat r1 r2 =>
      if nullable r1
      then alt (cat (deriv c r1) r2) (deriv c r2)
      else cat (deriv c r1) r2
  | Alt r1 r2 => alt (deriv c r1) (deriv c r2)
  | Star r1 => cat (deriv c r1) (Star r1)
  end.

(** Does some prefix of [s] match [r]? *)
Fixpoint match_prefix (r : regex) (s : list ascii) : bool :=
  nullable r ||
  match s with
  | [] => false
  | c :: s' => match_prefix (deriv c r) s'
  end.

(** Does some substring of [s] match [r]? *)
Fixpoint search_at (r : regex) (s : list ascii) : bool :=
  match_prefix r s ||
  match s with
  | [] => false
  | _ :: s' => search_at r s'
  end.

(** [re.search(r, s, flags=re.I | re.S)] as a truth value. *)
Definition search (r : regex) (s : string) : bool :=
  search_at r (list_ascii_of_string s).

(** *** Pattern syntax *)

(** A literal character under [re.I]: the patterns are written in lower
    case and without letters outside ASCII. *)
Definition chr (c : ascii) : regex :=
  Sym (fun x => Ascii.eqb (PyStr.lower_char x) (PyStr.lower_char c)).

Fixpoint lit (s : string) : regex :=
  match s with
  | EmptyString => Eps
  | String c EmptyString => chr c
  | String c s' => Cat (chr c) (lit s')
  end.

(** [.] under [re.S]. *)
Definition any : regex := Sym (fun _ => true).

Definition opt (r : regex) : regex := Alt r Eps.
Definition plus (r : regex) : regex := Cat r (Star r).

(** [\s] on str patterns: the characters for which [str.isspace] holds. *)
Definition is_space (c : ascii) : bool :=
  let n := N_of_ascii c in
  ((9 <=? n) && (n <=? 13) || (28 <=? n) && (n <=? 32) ||
   (n =? 133) || (n =? 160))%N.

(** [\w] on str patterns: [str.isalnum] or the underscore. *)
Definition is_word (c : ascii) : bool :=
  let n := N_of_ascii c in
  ((48 <=? n) && (n <=? 57) || (65 <=? n) && (n <=? 90) ||
   (97 <=? n) && (n <=? 122) || (n =? 95) ||
   (n =? 170) || (n =? 178) || (n =? 179) || (n =? 181) ||
   (n =? 185) || (n =? 186) || (188 <=? n) && (n <=? 190) ||
   (192 <=? n) && (n <=? 214) || (216 <=? n) && (n <=? 246) ||
   (248 <=? n))%N.

(** A literal character of a pattern compiled without [re.I]. *)
Definition chr_exact (c : ascii) : regex := Sym (Ascii.eqb c).

Fixpoint lit_exact (s : string) : regex :=
  match s with
  | EmptyString => Eps
  | String c EmptyString => chr_exact c
  | String c s' => Cat (chr_exact c) (lit_exact s')
  end.

Definition ws : regex := Sym is_space.
Definition word : regex := Sym is_word.
(** [[^c]]. *)
Definition not_chr (c : ascii) : regex := Sym (fun x => negb (Ascii.eqb c x)).

(** [a|b|c...]. *)
Fixpoint alts (rs : list regex) : regex :=
  match rs with
  | [] => Void
  | [r] => r
  | r :: rs' => Alt r (alts rs')
  end.

(** [a b c ...] in sequence. *)
Fixpoint seq (rs : list regex) : regex :=
  match rs with
  | [] => Eps
  | [r] => r
  | r :: rs' => Cat r (seq rs')
  end.

End Regex.

(** ** Python numbers *)

Module Py.

(** [min(a, b)] and [max(a, b)] keep the first argument unless the second
    compares strictly below (above) it. *)
Definition fmin (a b : float) : float := if (b <? a)%float then b else a.
Definition fmax (a b : float) : float := if (a <? b)%float then b else a.

(** [x / y] on floats; [None] is ZeroDivisionError. *)
Definition truediv (x y : float) : option float :=
  if (y =? 0)%float then None else Some (x / y)%float.

(** [float(n)] for an int: the nearest binary64 value, ties to even.
    (Python raises OverflowError from 2^1024 on; an SQLite INTEGER has 64
    bits.) *)
Definition float_of_int (n : Z) : float :=
  SF2Prim (binary_normalize prec emax n 0 false).

(** [x or d] for a float [x]: zero is falsy, NaN is not. *)
Definition float_or (x d : float) : float :=
  if (x =? 0)%float then d else x.

(** [x or d] for a nullable REAL column. *)
Definition real_or (x : option float) (d : float) : float :=
  match x with
  | None => d
  | Some v => float_or v d
  end.

(** [n or d] for a nullable INTEGER column. *)
Definition int_or (n : option Z) (d : Z) : Z :=
  match n with
  | None => d
  | Some v => if v =? 0 then d else v
  end.

(** [s or d] for a nullable TEXT column. *)
Definition str_or (s : option string) (d : string) : string :=
  match s with
  | None => d
  | Some v => if PyStr.nonempty v then v else d
  end.

(** [str(n)] for an int. *)
Definition str_of_int (n : Z) : string :=
  DecimalString.NilZero.string_of_int (Z.to_int n).

End Py.

(** ** schemas.py *)

Module Schemas.

Record CodeRunnerPayload : Type := {
  score : float;
  max_score : float;
  compile_error_text : string;
  runtime_error_text : string;
  failed_tests : list string;
  full_feedback_text : string
}.

(** [plugin_meta] is read nowhere in the engine and is left out. *)
Record HintRequest : Type := {
  mode : string;
  language : string;
  course_id : Z;
  quiz_id : Z;
  question_id : Z;
  question_slot : Z;
  question_name : string;
  student_id : string;
  attempt_id : Z;
  attempt_no : Z;
  source_code : string;
  coderunner : CodeRunnerPayload
}.

Record Learning : Type := {
  previous_hint_improved_score : bool;
  previous_delta_score : float
}.

Record HintResponse : Type := {
  enabled : bool;
  hint_level : Z;
  hint_type : string;
  cluster_key : string;
  hint_text : string;
  confidence : float;
  hint_variant : string;
  learning : option Learning
}.

End Schemas.

(** ** analyzers/c_adapter.py *)

Module CAdapter.
Import Regex.

Record CodeFeatures : Type := {
  uses_malloc : bool;
  uses_free : bool;
  null_check_after_malloc : bool;
  has_for_loop : bool;
  has_while_loop : bool;
  uses_array_index : bool;
  uses_pointer_deref : bool;
  uses_address_of : bool;
  line_count : Z
}.

Record Signals : Type := {
  compile_patterns : list string;
  runtime_patterns : list string;
  failed_test_cues : list string;
  code_features : CodeFeatures;
  score_ratio : float
}.

Record AnalysisResult : Type := {
  language : string;
  cluster_key : string;
  hint_type : string;
  confidence : float;
  signals : Signals
}.

(** A row of a pattern table: pattern, cluster, hint type, confidence. *)
Definition rule : Type := (regex * string * string * float)%type.

Definition rule_pat (r : rule) : regex := fst (fst (fst r)).
Definition rule_cluster (r : rule) : string := snd (fst (fst r)).
Definition rule_hint_type (r : rule) : string := snd (fst r).
Definition rule_conf (r : rule) : float := snd r.

(** undeclared(?:\s+identifier)?|was not declared|implicit declaration *)
Definition re_undeclared : regex :=
  alts [ seq [lit "undeclared"; opt (seq [plus ws; lit "identifier"])];
         lit "was not declared";
         lit "implicit declaration" ].

(** conflicting types for|incompatible type|incompatible pointer type *)
Definition re_type_mismatch : regex :=
  alts [ lit "conflicting types for";
         lit "incompatible type";
         lit "incompatible pointer type" ].

(** too (?:few|many) arguments to function|passing argument .* from incompatible pointer type *)
Definition re_parameter_mismatch : regex :=
  alts [ seq [lit "too "; alts [lit "few"; lit "many"];
              lit " arguments to function"];
         seq [lit "passing argument "; Star any;
              lit " from incompatible pointer type"] ].

(** conflicting types for .*|previous declaration of .* with type *)
Definition re_prototype_conflict : regex :=
  alts [ seq [lit "conflicting types for "; Star any];
         seq [lit "previous declaration of "; Star any; lit " with type"] ].

(** return type .* is not compatible|return makes .* from .* without a cast *)
Definition re_return_type_mismatch : regex :=
  alts [ seq [lit "return type "; Star any; lit " is not compatible"];
         seq [lit "return makes "; Star any; lit " from "; Star any;
              lit " without a cast"] ].

(** subscripted value is neither array nor pointer|invalid type argument of unary \* *)
Definition re_pointer_deref_misuse : regex :=
  alts [ lit "subscripted value is neither array nor pointer";
         lit "invalid type argument of unary *" ].

(** free\(|invalid conversion .*free *)
Definition re_free_misuse_compile : regex :=
  alts [ lit "free(";
         seq [lit "invalid conversion "; Star any; lit "free"] ].

(** warning: unused variable *)
Definition re_warning_unused_variable : regex :=
  lit "warning: unused variable".

Definition COMPILE_PATTERNS : list rule :=
  [ (re_undeclared, "c_undeclared_identifier", "compile_symbol", 0.92%float);
    (re_type_mismatch, "c_type_mismatch", "types", 0.9%float);
    (re_parameter_mismatch, "c_parameter_mismatch", "signature", 0.9%float);
    (re_prototype_conflict, "c_prototype_conflict", "prototype", 0.9%float);
    (re_return_type_mismatch, "c_return_type_mismatch", "return_type",
     0.86%float);
    (re_pointer_deref_misuse, "c_pointer_deref_misuse", "pointers",
     0.88%float);
    (re_free_misuse_compile, "c_free_misuse_compile", "memory", 0.76%float);
    (re_warning_unused_variable, "c_warning_unused_variable",
     "warning_unused", 0.55%float) ].

(** segmentation fault|sigsegv *)
Definition re_segfault : regex :=
  alts [ lit "segmentation fault"; lit "sigsegv" ].

(** addresssanitizer.*heap-use-after-free|use-after-free *)
Definition re_use_after_free : regex :=
  alts [ seq [lit "addresssanitizer"; Star any; lit "heap-use-after-free"];
         lit "use-after-free" ].

(** addresssanitizer.*double-free|double free *)
Definition re_double_free : regex :=
  alts [ seq [lit "addresssanitizer"; Star any; lit "double-free"];
         lit "double free" ].

(** addresssanitizer.*invalid free|free\(\): invalid pointer *)
Definition re_invalid_free : regex :=
  alts [ seq [lit "addresssanitizer"; Star any; lit "invalid free"];
         lit "free(): invalid pointer" ].

(** stack-buffer-overflow|heap-buffer-overflow|out of bounds *)
Definition re_out_of_bounds : regex :=
  alts [ lit "stack-buffer-overflow"; lit "heap-buffer-overflow";
         lit "out of bounds" ].

(** null pointer|dereference of null|addresssanitizer.*null *)
Definition re_null_dereference : regex :=
  alts [ lit "null pointer"; lit "dereference of null";
         seq [lit "addresssanitizer"; Star any; lit "null"] ].

Definition RUNTIME_PATTERNS : list rule :=
  [ (re_segfault, "c_segfault", "runtime_memory", 0.95%float);
    (re_use_after_free, "c_use_after_free", "memory", 0.98%float);
    (re_double_free, "c_double_free", "memory", 0.98%float);
    (re_invalid_free, "c_invalid_free", "memory", 0.97%float);
    (re_out_of_bounds, "c_out_of_bounds", "bounds", 0.94%float);
    (re_null_dereference, "c_null_dereference", "pointers", 0.92%float) ].

Definition _safe_ratio (score max_score : float) : float :=
  if (max_score <=? 0)%float then 0%float
  else match Py.truediv score max_score with
       | Some q => Py.fmax 0 (Py.fmin 1 q)
       | None => 0%float
       end.

(** if\s*\([^\)]*==\s*null|if\s*\([^\)]*!\s*\w+\)   (no flags) *)
Definition re_null_check : regex :=
  alts [ seq [lit_exact "if"; Star ws; lit_exact "("; Star (not_chr ")");
              lit_exact "=="; Star ws; lit_exact "null"];
         seq [lit_exact "if"; Star ws; lit_exact "("; Star (not_chr ")");
              lit_exact "!"; Star ws; plus word; lit_exact ")"] ].

Definition _extract_code_features (code : string) : CodeFeatures :=
  let code_l := PyStr.lower code in
  {| uses_malloc := PyStr.contains "malloc(" code_l;
     uses_free := PyStr.contains "free(" code_l;
     null_check_after_malloc := search re_null_check code_l;
     has_for_loop :=
       PyStr.contains "for (" code || PyStr.contains "for(" code;
     has_while_loop :=
       PyStr.contains "while (" code || PyStr.contains "while(" code;
     uses_array_index :=
       PyStr.contains "[" code && PyStr.contains "]" code;
     uses_pointer_deref := PyStr.contains "*" code;
     uses_address_of := PyStr.contains "&" code;
     line_count := PyStr.count_lines code |}.

Definition with_runtime (sg : Signals) (c : string) : Signals :=
  {| compile_patterns := compile_patterns sg;
     runtime_patterns := runtime_patterns sg ++ [c];
     failed_test_cues := failed_test_cues sg;
     code_features := code_features sg;
     score_ratio := score_ratio sg |}.

Definition with_compile (sg : Signals) (c : string) : Signals :=
  {| compile_patterns := compile_patterns sg ++ [c];
     runtime_patterns := runtime_patterns sg;
     failed_test_cues := failed_test_cues sg;
     code_features := code_features sg;
     score_ratio := score_ratio sg |}.

Definition with_cue (sg : Signals) (c : string) : Signals :=
  {| compile_patterns := compile_patterns sg;
     runtime_patterns := runtime_patterns sg;
     failed_test_cues := failed_test_cues sg ++ [c];
     code_features := code_features sg;
     score_ratio := score_ratio sg |}.

Definition result (cluster hint_type : string) (conf : float)
    (sg : Signals) : AnalysisResult :=
  {| language := "c"; cluster_key := cluster; hint_type := hint_type;
     confidence := conf; signals := sg |}.

(** 1) The loop over RUNTIME_PATTERNS: the first row whose pattern is
    found returns. *)
Fixpoint runtime_loop (rows : list rule) (merged_runtime : string)
    (sg : Signals) : option AnalysisResult :=
  match rows with
  | [] => None
  | (pat, cluster, hint_type, conf) :: rows' =>
      if search pat merged_runtime
      then Some (result cluster hint_type conf (with_runtime sg cluster))
      else runtime_loop rows' merged_runtime sg
  end.

(** 2) The loop over COMPILE_PATTERNS: [inl] is a return, [inr] leaves the
    loop (by [break] or at its end) with the signals as they are then. *)
Fixpoint compile_loop (rows : list rule) (merged_compile : string)
    (sg : Signals) : AnalysisResult + Signals :=
  match rows with
  | [] => inr sg
  | (pat, cluster, hint_type, conf) :: rows' =>
      if search pat merged_compile then
        let sg' := with_compile sg cluster in
        if String.eqb cluster "c_warning_unused_variable"
           && (0.99 <=? score_ratio sg')%float
        then inr sg'
        else inl (result cluster hint_type conf sg')
      else compile_loop rows' merged_compile sg
  end.

(** 3) Cues in the names of the failed tests. *)
Definition failed_test_step (failed_join : string) (sg : Signals)
    : option AnalysisResult :=
  if PyStr.nonempty failed_join then
    if PyStr.any_in ["empty"; "vuoto"; "n=0"; "zero"] failed_join then
      Some (result "c_logic_edge_case_empty" "edge_case" 0.8
              (with_cue sg "edge_case_empty"))
    else if PyStr.any_in ["single"; "uno"; "1 elemento"; "one element"]
              failed_join then
      Some (result "c_logic_edge_case_single" "edge_case" 0.76
              (with_cue sg "edge_case_single"))
    else if PyStr.any_in ["format"; "output"; "newline"; "spazio"; "space"]
              failed_join then
      Some (result "c_output_format" "output_format" 0.75
              (with_cue sg "output_format"))
    else if PyStr.any_in ["bounds"; "index"; "ultimo"; "last"; "first"]
              failed_join then
      Some (result "c_logic_bounds_off_by_one" "bounds" 0.79
              (with_cue sg "bounds"))
    else None
  else None.

(** 4) and 5) The shape of the code, then the terminal rule. *)
Definition structural_step (sg : Signals) : AnalysisResult :=
  if (score_ratio sg <? 0.99)%float then
    let feats := code_features sg in
    if uses_free feats && negb (null_check_after_malloc feats)
       && uses_malloc feats then
      result "c_memory_malloc_no_null_check" "memory" 0.62 sg
    else if has_for_loop feats && uses_array_index feats then
      result "c_logic_loop_bounds_generic" "logic_loop" 0.58 sg
    else result "c_logic_generic_failed_tests" "logic_generic" 0.45 sg
  else result "c_no_hint_needed" "none" 0.2 sg.

(** Steps 3) to 5): what runs once the compile loop is left. *)
Definition after_compile (failed_join : string) (sg : Signals)
    : AnalysisResult :=
  match failed_test_step failed_join sg with
  | Some r => r
  | None => structural_step sg
  end.

Definition merged_compile (req : Schemas.HintRequest) : string :=
  let cr := Schemas.coderunner req in
  PyStr.lower (Schemas.compile_error_text cr ++ PyStr.newline
               ++ Schemas.full_feedback_text cr).

Definition merged_runtime (req : Schemas.HintRequest) : string :=
  let cr := Schemas.coderunner req in
  PyStr.lower (Schemas.runtime_error_text cr ++ PyStr.newline
               ++ Schemas.full_feedback_text cr).

Definition failed_join (req : Schemas.HintRequest) : string :=
  PyStr.lower (PyStr.join PyStr.newline
                 (Schemas.failed_tests (Schemas.coderunner req))).

Definition initial_signals (req : Schemas.HintRequest) : Signals :=
  let cr := Schemas.coderunner req in
  {| compile_patterns := [];
     runtime_patterns := [];
     failed_test_cues := [];
     code_features := _extract_code_features (Schemas.source_code req);
     score_ratio := _safe_ratio (Schemas.score cr) (Schemas.max_score cr) |}.

Definition analyze (req : Schemas.HintRequest) : AnalysisResult :=
  let sg := initial_signals req in
  match runtime_loop RUNTIME_PATTERNS (merged_runtime req) sg with
  | Some r => r
  | None =>
      match compile_loop COMPILE_PATTERNS (merged_compile req) sg with
      | inl r => r
      | inr sg' => after_compile (failed_join req) sg'
      end
  end.

(** *** Terms of the statements about the analyzer *)

(** The first row of a table whose pattern is found in the text. *)
Definition first_match (rows : list rule) (text : string) : option rule :=
  find (fun r => search (rule_pat r) text) rows.

(** Cluster, hint type and confidence of a result. *)
Definition verdict (a : AnalysisResult) : string * string * float :=
  (cluster_key a, hint_type a, confidence a).

Definition rule_verdict (r : rule) : string * string * float :=
  (rule_cluster r, rule_hint_type r, rule_conf r).

(** Every verdict a [return] of [analyze] can carry. *)
Definition LATE_VERDICTS : list (string * string * float) :=
  [ ("c_logic_edge_case_empty", "edge_case", 0.8%float);
    ("c_logic_edge_case_single", "edge_case", 0.76%float);
    ("c_output_format", "output_format", 0.75%float);
    ("c_logic_bounds_off_by_one", "bounds", 0.79%float);
    ("c_memory_malloc_no_null_check", "memory", 0.62%float);
    ("c_logic_loop_bounds_generic", "logic_loop", 0.58%float);
    ("c_logic_generic_failed_tests", "logic_generic", 0.45%float);
    ("c_no_hint_needed", "none", 0.2%float) ].

Definition VERDICTS : list (string * string * float) :=
  map rule_verdict RUNTIME_PATTERNS
  ++ map rule_verdict COMPILE_PATTERNS
  ++ LATE_VERDICTS.

(** The fixed per-rule priors. *)
Definition PRIORS : list float := map snd VERDICTS.

Definition WARNING_RULE : rule :=
  (re_warning_unused_variable, "c_warning_unused_variable",
   "warning_unused", 0.55%float).

(** No runtime pattern is found, and of the compile patterns only the one of
    the unused-variable warning. *)
Definition only_unused_warning (req : Schemas.HintRequest) : bool :=
  forallb (fun r => negb (search (rule_pat r) (merged_runtime req)))
    RUNTIME_PATTERNS
  && forallb (fun r => negb (search (rule_pat r) (merged_compile req)))
       (removelast COMPILE_PATTERNS)
  && search re_warning_unused_variable (merged_compile req).

(** The bounds on a confidence. *)
Definition prior_in_range (v : string * string * float) : bool :=
  let conf := snd v in
  (0.2 <=? conf)%float && (conf <=? 0.98)%float
  && (0 <? conf)%float && (conf <? 1)%float.

Definition is_02 (v : string * string * float) : bool :=
  (snd v =? 0.2)%float.

Definition is_098 (v : string * string * float) : bool :=
  (snd v =? 0.98)%float.

End CAdapter.

(** ** db.py: the tables *)

Module Db.

(** A row of [attempts].  The columns without NOT NULL are options;
    [created_at] (the clock) is left out. *)
Module Attempt.
Record t : Type := {
  id : Z;
  mode : string;
  language : string;
  course_id : option Z;
  quiz_id : option Z;
  question_id : option Z;
  question_slot : option Z;
  question_name : option string;
  student_id : string;
  attempt_id : option Z;
  attempt_no : option Z;
  source_code : option string;
  source_hash : option string;
  score : option float;
  max_score : option float;
  compile_error_text : option string;
  runtime_error_text : option string;
  failed_tests_json : option string;
  full_feedback_text : option string;
  cluster_key : option string;
  hint_level : option Z;
  hint_type : option string;
  hint_variant : option string;
  hint_text : option string;
  confidence : option float;
  improved_vs_previous : option Z;
  delta_score : option float
}.
End Attempt.

(** The dict that [handle_hint] hands to [insert_attempt]. *)
Module NewAttempt.
Record t : Type := {
  mode : string;
  language : string;
  course_id : Z;
  quiz_id : Z;
  question_id : Z;
  question_slot : Z;
  question_name : string;
  student_id : string;
  attempt_id : Z;
  attempt_no : Z;
  source_code : string;
  source_hash : string;
  score : float;
  max_score : float;
  compile_error_text : string;
  runtime_error_text : string;
  failed_tests_json : string;
  full_feedback_text : string;
  cluster_key : string;
  hint_level : Z;
  hint_type : string;
  hint_variant : string;
  hint_text : string;
  confidence : float
}.
End NewAttempt.

(** A row of [hint_stats]; its [id] and [updated_at] are read nowhere and
    are left out. *)
Module HintStat.
Record t : Type := {
  language : string;
  cluster_key : string;
  hint_level : Z;
  hint_variant : string;
  exposures : Z;
  improvements : Z;
  total_delta : float
}.
End HintStat.

Record database : Type := {
  attempts : list Attempt.t;
  (** the AUTOINCREMENT counter of [attempts] *)
  attempts_seq : Z;
  hint_stats : list HintStat.t
}.

Inductive error : Type :=
| IntegrityError
| ZeroDivisionError.

(** SQLite stores a NaN as NULL. *)
Definition sql_real (x : float) : option float :=
  if PrimFloat.is_nan x then None else Some x.

Definition max_id (rows : list Attempt.t) : Z :=
  fold_right (fun a m => Z.max (Attempt.id a) m) 0 rows.

Definition stored (new_id : Z) (row : NewAttempt.t) : Attempt.t :=
  {| Attempt.id := new_id;
     Attempt.mode := NewAttempt.mode row;
     Attempt.language := NewAttempt.language row;
     Attempt.course_id := Some (NewAttempt.course_id row);
     Attempt.quiz_id := Some (NewAttempt.quiz_id row);
     Attempt.question_id := Some (NewAttempt.question_id row);
     Attempt.question_slot := Some (NewAttempt.question_slot row);
     Attempt.question_name := Some (NewAttempt.question_name row);
     Attempt.student_id := NewAttempt.student_id row;
     Attempt.attempt_id := Some (NewAttempt.attempt_id row);
     Attempt.attempt_no := Some (NewAttempt.attempt_no row);
     Attempt.source_code := Some (NewAttempt.source_code row);
     Attempt.source_hash := Some (NewAttempt.source_hash row);
     Attempt.score := sql_real (NewAttempt.score row);
     Attempt.max_score := sql_real (NewAttempt.max_score row);
     Attempt.compile_error_text := Some (NewAttempt.compile_error_text row);
     Attempt.runtime_error_text := Some (NewAttempt.runtime_error_text row);
     Attempt.failed_tests_json := Some (NewAttempt.failed_tests_json row);
     Attempt.full_feedback_text := Some (NewAttempt.full_feedback_text row);
     Attempt.cluster_key := Some (NewAttempt.cluster_key row);
     Attempt.hint_level := Some (NewAttempt.hint_level row);
     Attempt.hint_type := Some (NewAttempt.hint_type row);
     Attempt.hint_variant := Some (NewAttempt.hint_variant row);
     Attempt.hint_text := Some (NewAttempt.hint_text row);
     Attempt.confidence := sql_real (NewAttempt.confidence row);
     Attempt.improved_vs_previous := None;
     Attempt.delta_score := None |}.

(** INSERT INTO attempts: the new id is one more than the largest id the
    table has ever held. *)
Definition insert_attempt (row : NewAttempt.t) (d : database)
    : Z * database :=
  let new_id := Z.max (attempts_seq d) (max_id (attempts d)) + 1 in
  (new_id,
   {| attempts := attempts d ++ [stored new_id row];
      attempts_seq := new_id;
      hint_stats := hint_stats d |}).

Definition opt_Z_eqb (x : option Z) (y : Z) : bool :=
  match x with
  | Some v => v =? y
  | None => false
  end.

Definition coalesce (x : option Z) (d : Z) : Z :=
  match x with
  | Some v => v
  | None => d
  end.

Definition in_context (student_id language : string)
    (quiz_id question_id question_slot : Z) (a : Attempt.t) : bool :=
  String.eqb (Attempt.student_id a) student_id
  && String.eqb (Attempt.language a) language
  && opt_Z_eqb (Attempt.quiz_id a) quiz_id
  && (coalesce (Attempt.question_id a) 0 =? question_id)
  && (coalesce (Attempt.question_slot a) 0 =? question_slot).

(** ORDER BY id DESC LIMIT 1. *)
Fixpoint last_by_id (rows : list Attempt.t) : option Attempt.t :=
  match rows with
  | [] => None
  | a :: rows' =>
      match last_by_id rows' with
      | None => Some a
      | Some b => if Attempt.id a <? Attempt.id b then Some b else Some a
      end
  end.

Definition get_last_attempt_for_context (student_id language : string)
    (quiz_id question_id question_slot : Z) (d : database)
    : option Attempt.t :=
  last_by_id
    (filter (in_context student_id language quiz_id question_id
               question_slot) (attempts d)).

Definition set_improvement (improved : bool) (delta_score : float)
    (a : Attempt.t) : Attempt.t :=
  {| Attempt.id := Attempt.id a;
     Attempt.mode := Attempt.mode a;
     Attempt.language := Attempt.language a;
     Attempt.course_id := Attempt.course_id a;
     Attempt.quiz_id := Attempt.quiz_id a;
     Attempt.question_id := Attempt.question_id a;
     Attempt.question_slot := Attempt.question_slot a;
     Attempt.question_name := Attempt.question_name a;
     Attempt.student_id := Attempt.student_id a;
     Attempt.attempt_id := Attempt.attempt_id a;
     Attempt.attempt_no := Attempt.attempt_no a;
     Attempt.source_code := Attempt.source_code a;
     Attempt.source_hash := Attempt.source_hash a;
     Attempt.score := Attempt.score a;
     Attempt.max_score := Attempt.max_score a;
     Attempt.compile_error_text := Attempt.compile_error_text a;
     Attempt.runtime_error_text := Attempt.runtime_error_text a;
     Attempt.failed_tests_json := Attempt.failed_tests_json a;
     Attempt.full_feedback_text := Attempt.full_feedback_text a;
     Attempt.cluster_key := Attempt.cluster_key a;
     Attempt.hint_level := Attempt.hint_level a;
     Attempt.hint_type := Attempt.hint_type a;
     Attempt.hint_variant := Attempt.hint_variant a;
     Attempt.hint_text := Attempt.hint_text a;
     Attempt.confidence := Attempt.confidence a;
     Attempt.improved_vs_previous := Some (if improved then 1 else 0);
     Attempt.delta_score := sql_real delta_score |}.

(** UPDATE attempts SET improved_vs_previous = ?, delta_score = ?
    WHERE id = ? *)
Definition update_attempt_improvement (attempt_row_id : Z)
    (improved : bool) (delta_score : float) (d : database) : database :=
  {| attempts :=
       map (fun a => if Attempt.id a =? attempt_row_id
                     then set_improvement improved delta_score a else a)
           (attempts d);
     attempts_seq := attempts_seq d;
     hint_stats := hint_stats d |}.

Definition same_key (language cluster_key : string) (hint_level : Z)
    (hint_variant : string) (r : HintStat.t) : bool :=
  String.eqb (HintStat.language r) language
  && String.eqb (HintStat.cluster_key r) cluster_key
  && (HintStat.hint_level r =? hint_level)
  && String.eqb (HintStat.hint_variant r) hint_variant.

(** The DO UPDATE arm on the rows of the key.  [None]: the sum of the
    deltas is a NaN, which SQLite turns into NULL, and [total_delta] is
    NOT NULL. *)
Fixpoint upsert (language cluster_key : string) (hint_level : Z)
    (hint_variant : string) (exposure_inc improvement_inc : Z)
    (delta_inc : float) (rows : list HintStat.t)
    : option (list HintStat.t) :=
  match rows with
  | [] =>
      Some [ {| HintStat.language := language;
                HintStat.cluster_key := cluster_key;
                HintStat.hint_level := hint_level;
                HintStat.hint_variant := hint_variant;
                HintStat.exposures := exposure_inc;
                HintStat.improvements := improvement_inc;
                HintStat.total_delta := delta_inc |} ]
  | r :: rows' =>
      if same_key language cluster_key hint_level hint_variant r then
        let total := (HintStat.total_delta r + delta_inc)%float in
        if PrimFloat.is_nan total then None
        else Some ({| HintStat.language := HintStat.language r;
                      HintStat.cluster_key := HintStat.cluster_key r;
                      HintStat.hint_level := HintStat.hint_level r;
                      HintStat.hint_variant := HintStat.hint_variant r;
                      HintStat.exposures :=
                        HintStat.exposures r + exposure_inc;
                      HintStat.improvements :=
                        HintStat.improvements r + improvement_inc;
                      HintStat.total_delta := total |} :: rows')
      else
        match upsert language cluster_key hint_level hint_variant
                exposure_inc improvement_inc delta_inc rows' with
        | Some rows'' => Some (r :: rows'')
        | None => None
        end
  end.

(** INSERT INTO hint_stats ... ON CONFLICT (...) DO UPDATE SET ...
    The NOT NULL check of the new row comes first. *)
Definition bump_hint_stats (language cluster_key : string) (hint_level : Z)
    (hint_variant : string) (exposure_inc improvement_inc : Z)
    (delta_inc : float) (d : database) : error + database :=
  if PrimFloat.is_nan delta_inc then inl IntegrityError
  else
    match upsert language cluster_key hint_level hint_variant
            exposure_inc improvement_inc delta_inc (hint_stats d) with
    | None => inl IntegrityError
    | Some rows =>
        inr {| attempts := attempts d;
               attempts_seq := attempts_seq d;
               hint_stats := rows |}
    end.

(** ORDER BY exposures DESC, improvements DESC, total_delta DESC: does
    [a] come strictly before [b]? *)
Definition stat_before (a b : HintStat.t) : bool :=
  (HintStat.exposures b <? HintStat.exposures a)
  || (HintStat.exposures a =? HintStat.exposures b)
     && ((HintStat.improvements b <? HintStat.improvements a)
         || (HintStat.improvements a =? HintStat.improvements b)
            && (HintStat.total_delta b <? HintStat.total_delta a)%float).

Fixpoint insert_stat (a : HintStat.t) (rows : list HintStat.t)
    : list HintStat.t :=
  match rows with
  | [] => [a]
  | b :: rows' =>
      if stat_before b a then b :: insert_stat a rows' else a :: rows
  end.

Definition order_stats (rows : list HintStat.t) : list HintStat.t :=
  fold_right insert_stat [] rows.

Definition get_hint_stats (language cluster_key : string) (hint_level : Z)
    (d : database) : list HintStat.t :=
  order_stats
    (filter (fun r => String.eqb (HintStat.language r) language
                      && String.eqb (HintStat.cluster_key r) cluster_key
                      && (HintStat.hint_level r =? hint_level))
            (hint_stats d)).

End Db.

(** ** services/hint_engine.py *)

Module HintEngine.

(** *** The catalog

    [cluster_key -> {"variants": {variant_name -> {level -> text}}}], as
    [json.loads] returns it: dicts in the order of the file (an
    association list, no key twice).  Of an entry the code reads its truth
    value and its key "variants". *)
Definition Variant : Type := list (string * string).
Definition Variants : Type := list (string * Variant).

Record Entry : Type := {
  (** does the entry hold keys other than "variants"? *)
  other_keys : bool;
  variants : option Variants
}.

Definition Catalog : Type := list (string * Entry).

Fixpoint dict_get {V : Type} (k : string) (d : list (string * V))
    : option V :=
  match d with
  | [] => None
  | (k', v) :: d' => if String.eqb k' k then Some v else dict_get k d'
  end.

(** [d[k] = v]: a key that is there keeps its place. *)
Fixpoint dict_set {V : Type} (k : string) (v : V) (d : list (string * V))
    : list (string * V) :=
  match d with
  | [] => [(k, v)]
  | (k', v') :: d' =>
      if String.eqb k' k then (k, v) :: d' else (k', v') :: dict_set k v d'
  end.

Definition dict_mem {V : Type} (k : string) (d : list (string * V)) : bool :=
  match dict_get k d with Some _ => true | None => false end.

Definition empty_entry : Entry := {| other_keys := false; variants := None |}.

Definition entry_truthy (e : Entry) : bool :=
  other_keys e || match variants e with Some _ => true | None => false end.

Definition GENERIC : string := "c_logic_generic_failed_tests".

Definition FALLBACK_TEXT : string :=
  "Controlla il primo test che fallisce e ripercorri il flusso con un input piccolo, concentrandoti su casi limite e gestione della memoria.".

Definition UNSUPPORTED_TEXT : string :=
  "MVP attivo soprattutto per C. Per questo linguaggio posso dare solo un indizio generico: riparti dal primo test che fallisce e controlla casi limite e formato output.".

(** *** The world of a request *)

(** The random source: the values it will hand out, and how many it has
    handed out. *)
Record Rng : Type := {
  draws : nat -> float;
  picks : nat -> nat;
  used : nat
}.

(** The calls to the collaborators, in the order they are made. *)
Inductive event : Type :=
| Analyze (req : Schemas.HintRequest)
| GetLastAttempt (student_id language : string)
    (quiz_id question_id question_slot : Z)
| UpdateAttemptImprovement (attempt_row_id : Z) (improved : bool)
    (delta_score : float)
| BumpHintStats (language cluster_key : string) (hint_level : Z)
    (hint_variant : string) (exposure_inc improvement_inc : Z)
    (delta_inc : float)
| GetHintStats (language cluster_key : string) (hint_level : Z)
| InsertAttempt (row : Db.NewAttempt.t)
| ReadCatalogFile (language : string)
| RandomRandom
| RandomChoice.

Record world : Type := {
  db : Db.database;
  catalog_cache : list (string * Catalog);
  (** hint_catalog/<language>.json parsed, when the file exists *)
  catalog_files : string -> option Catalog;
  random : Rng;
  calls : list event
}.

Inductive outcome (A : Type) : Type :=
| Return (a : A)
| Raise (e : Db.error).
Arguments Return {A} a.
Arguments Raise {A} e.

Definition M (A : Type) : Type := world -> outcome A * world.

Definition ret {A : Type} (a : A) : M A := fun w => (Return a, w).

Definition raise {A : Type} (e : Db.error) : M A := fun w => (Raise e, w).

Definition bind {A B : Type} (m : M A) (k : A -> M B) : M B :=
  fun w =>
    match m w with
    | (Return a, w') => k a w'
    | (Raise e, w') => (Raise e, w')
    end.

Declare Scope engine_scope.
Delimit Scope engine_scope with engine.
Notation "x <- m ;; k" := (bind m (fun x => k))
  (at level 61, m at next level, right associativity) : engine_scope.
Notation "m ;; k" := (bind m (fun _ => k))
  (at level 61, right associativity) : engine_scope.
Local Open Scope engine_scope.

Definition record (e : event) : M unit :=
  fun w =>
    (Return tt,
     {| db := db w; catalog_cache := catalog_cache w;
        catalog_files := catalog_files w; random := random w;
        calls := calls w ++ [e] |}).

Definition read_db {A : Type} (f : Db.database -> A) : M A :=
  fun w => (Return (f (db w)), w).

Definition write_db (d : Db.database) : M unit :=
  fun w =>
    (Return tt,
     {| db := d; catalog_cache := catalog_cache w;
        catalog_files := catalog_files w; random := random w;
        calls := calls w |}).

Definition write_cache (c : list (string * Catalog)) : M unit :=
  fun w =>
    (Return tt,
     {| db := db w; catalog_cache := c;
        catalog_files := catalog_files w; random := random w;
        calls := calls w |}).

Definition next_rng (g : Rng) : Rng :=
  {| draws := draws g; picks := picks g; used := S (used g) |}.

Definition write_rng (g : Rng) : M unit :=
  fun w =>
    (Return tt,
     {| db := db w; catalog_cache := catalog_cache w;
        catalog_files := catalog_files w; random := g;
        calls := calls w |}).

(** [db.get_last_attempt_for_context(...)] *)
Definition get_last_attempt_for_context (student_id language : string)
    (quiz_id question_id question_slot : Z) : M (option Db.Attempt.t) :=
  record (GetLastAttempt student_id language quiz_id question_id
            question_slot) ;;
  read_db (Db.get_last_attempt_for_context student_id language quiz_id
             question_id question_slot).

(** [db.update_attempt_improvement(...)] *)
Definition update_attempt_improvement (attempt_row_id : Z)
    (improved : bool) (delta_score : float) : M unit :=
  record (UpdateAttemptImprovement attempt_row_id improved delta_score) ;;
  d <- read_db (fun d => d) ;;
  write_db (Db.update_attempt_improvement attempt_row_id improved
              delta_score d).

(** [db.bump_hint_stats(...)] *)
Definition bump_hint_stats (language cluster_key : string) (hint_level : Z)
    (hint_variant : string) (exposure_inc improvement_inc : Z)
    (delta_inc : float) : M unit :=
  record (BumpHintStats language cluster_key hint_level hint_variant
            exposure_inc improvement_inc delta_inc) ;;
  d <- read_db (fun d => d) ;;
  match Db.bump_hint_stats language cluster_key hint_level hint_variant
          exposure_inc improvement_inc delta_inc d with
  | inl e => raise e
  | inr d' => write_db d'
  end.

(** [db.get_hint_stats(...)] *)
Definition get_hint_stats (language cluster_key : string) (hint_level : Z)
    : M (list Db.HintStat.t) :=
  record (GetHintStats language cluster_key hint_level) ;;
  read_db (Db.get_hint_stats language cluster_key hint_level).

(** [db.insert_attempt(row)] *)
Definition insert_attempt (row : Db.NewAttempt.t) : M Z :=
  record (InsertAttempt row) ;;
  d <- read_db (fun d => d) ;;
  let (new_id, d') := Db.insert_attempt row d in
  write_db d' ;;
  ret new_id.

(** [random.random()] *)
Definition read_rng : M Rng := fun w => (Return (random w), w).

Definition random_random : M float :=
  record RandomRandom ;;
  g <- read_rng ;;
  write_rng (next_rng g) ;;
  ret (draws g (used g)).

(** [random.choice(seq)] is [seq[randbelow(len(seq))]]; every index below
    the length is some pick modulo the length. *)
Definition random_choice (seq : list string) : M string :=
  record RandomChoice ;;
  g <- read_rng ;;
  write_rng (next_rng g) ;;
  ret (nth (Nat.modulo (picks g (used g)) (List.length seq)) seq "").

(** *** The engine *)

Definition epsilon : float := 0.15%float.

(** The score of a row of statistics, as the body of the loop computes it:
    [rate + (0.05 * total_delta / max(1.0, exp))] with
    [rate = (imp + 1.0) / (exp + 2.0)]; [None] is the ZeroDivisionError of
    the rate. *)
Definition variant_score (row : Db.HintStat.t) : option float :=
  let exp := Db.HintStat.exposures row in
  let imp := Db.HintStat.improvements row in
  let total_delta := Py.float_or (Db.HintStat.total_delta row) 0 in
  match Py.truediv (Py.float_of_int imp + 1)%float
          (Py.float_of_int exp + 2)%float with
  | None => None
  | Some rate =>
      let most := if 1 <? exp then Py.float_of_int exp else 1%float in
      Some (rate + 0.05 * total_delta / most)%float
  end.

(** The loop that fills [score_by_variant]. *)
Fixpoint score_rows (stats : list Db.HintStat.t)
    (score_by_variant : list (string * float))
    : option (list (string * float)) :=
  match stats with
  | [] => Some score_by_variant
  | row :: stats' =>
      match variant_score row with
      | None => None
      | Some s =>
          score_rows stats'
            (dict_set (Db.HintStat.hint_variant row) s score_by_variant)
      end
  end.

(** [sorted(l, key=key, reverse=True)]: descending, and stable. *)
Fixpoint insert_desc {A : Type} (key : A -> float) (x : A) (l : list A)
    : list A :=
  match l with
  | [] => [x]
  | y :: l' =>
      if (key x <? key y)%float then y :: insert_desc key x l' else x :: l
  end.

Definition sorted_desc {A : Type} (key : A -> float) (l : list A) : list A :=
  fold_right (insert_desc key) [] l.

Definition score_of (score_by_variant : list (string * float)) (v : string)
    : float :=
  match dict_get v score_by_variant with
  | Some s => s
  | None => 0%float
  end.

(** [catalog.get(cluster_key) or catalog.get(GENERIC) or {}] *)
Definition entry_for_choice (catalog : Catalog) (cluster_key : string)
    : Entry :=
  match dict_get cluster_key catalog with
  | Some e =>
      if entry_truthy e then e
      else match dict_get GENERIC catalog with
           | Some e' => if entry_truthy e' then e' else empty_entry
           | None => empty_entry
           end
  | None =>
      match dict_get GENERIC catalog with
      | Some e' => if entry_truthy e' then e' else empty_entry
      | None => empty_entry
      end
  end.

(** [list((entry.get('variants') or {}).keys()) or ['default']] *)
Definition variant_names (entry : Entry) : list string :=
  match variants entry with
  | Some ((_ :: _) as d) => map fst d
  | _ => ["default"]
  end.

Definition _choose_variant (language cluster_key : string) (hint_level : Z)
    (catalog : Catalog) : M string :=
  let entry := entry_for_choice catalog cluster_key in
  let names := variant_names entry in
  if (List.length names =? 1)%nat then ret (nth 0 names "")
  else
    r <- random_random ;;
    if (r <? epsilon)%float then random_choice names
    else
      stats <- get_hint_stats language cluster_key hint_level ;;
      match score_rows stats [] with
      | None => raise Db.ZeroDivisionError
      | Some score_by_variant =>
          let unseen :=
            filter (fun v => negb (dict_mem v score_by_variant)) names in
          match unseen with
          | _ :: _ => random_choice unseen
          | [] =>
              let variants_sorted :=
                sorted_desc (score_of score_by_variant) names in
              ret (nth 0 variants_sorted "")
          end
      end.

(** The texts are not empty where the code tests [if txt]. *)
Definition text_at (chosen : Variant) (level : Z) : option string :=
  match dict_get (Py.str_of_int level) chosen with
  | Some txt => if PyStr.nonempty txt then Some txt else None
  | None => None
  end.

(** [for level in range(hint_level, 0, -1)], from [n] down to 1. *)
Fixpoint search_down (chosen : Variant) (n : nat) : option string :=
  match n with
  | O => None
  | S n' =>
      match text_at chosen (Z.of_nat n) with
      | Some txt => Some txt
      | None => search_down chosen n'
      end
  end.

(** [catalog.get(cluster_key, catalog.get(GENERIC, {}))] *)
Definition entry_for_text (catalog : Catalog) (cluster_key : string) : Entry :=
  match dict_get cluster_key catalog with
  | Some e => e
  | None =>
      match dict_get GENERIC catalog with
      | Some e => e
      | None => empty_entry
      end
  end.

(** [variants.get(hint_variant) or
     (next(iter(variants.values())) if variants else None)]
    for [variants = entry.get('variants', {})]. *)
Definition chosen_variant (entry : Entry) (hint_variant : string)
    : option Variant :=
  let vs :=
    match variants entry with
    | Some d => d
    | None => []
    end in
  match dict_get hint_variant vs with
  | Some ((_ :: _) as c) => Some c
  | _ =>
      match vs with
      | (_, c) :: _ => Some c
      | [] => None
      end
  end.

(** The text of the chosen variant: at the level asked for, else at the
    first level below it that has one, else the literal. *)
Definition text_of (chosen : option Variant) (hint_level : Z) : string :=
  match chosen with
  | Some ((_ :: _) as c) =>
      match text_at c hint_level with
      | Some txt => txt
      | None =>
          match search_down c (Z.to_nat hint_level) with
          | Some txt => txt
          | None => FALLBACK_TEXT
          end
      end
  | _ => FALLBACK_TEXT
  end.

Definition _resolve_hint_text (catalog : Catalog) (cluster_key : string)
    (hint_level : Z) (hint_variant : string) : string :=
  text_of (chosen_variant (entry_for_text catalog cluster_key) hint_variant)
    hint_level.

(** The local variables [prevratio] and [prevlevel] of [_decide_level]. *)
Definition prevratio (previous : Db.Attempt.t) : float :=
  if (0 <? Py.real_or (Db.Attempt.max_score previous) 0)%float then
    match Py.truediv (Py.real_or (Db.Attempt.score previous) 0)
            (Py.real_or (Db.Attempt.max_score previous) 1) with
    | Some q => q
    | None => 0%float
    end
  else 0%float.

Definition prevlevel (previous : Db.Attempt.t) : Z :=
  Py.int_or (Db.Attempt.hint_level previous) 1.

Definition _decide_level (previous : option Db.Attempt.t) : Z :=
  match previous with
  | None => 1
  | Some previous =>
      if (0.999 <=? prevratio previous)%float then 1
      else Z.min 3 (Z.max 1 (prevlevel previous + 1))
  end.

Definition _load_catalog (language : string) : M Catalog :=
  fun w =>
    match dict_get language (catalog_cache w) with
    | Some c => ret c w
    | None =>
        (record (ReadCatalogFile language) ;;
         match catalog_files w language with
         | None =>
             write_cache (dict_set language [] (catalog_cache w)) ;;
             ret []
         | Some c =>
             write_cache (dict_set language c (catalog_cache w)) ;;
             ret c
         end) w
    end.

Definition disabled_response : Schemas.HintResponse :=
  {| Schemas.enabled := false;
     Schemas.hint_level := 1;
     Schemas.hint_type := "generic";
     Schemas.cluster_key := "c_generic";
     Schemas.hint_text := "Hints disabled (exam mode).";
     Schemas.confidence := 0%float;
     Schemas.hint_variant := "default";
     Schemas.learning := None |}.

Definition unsupported_response (language : string)
    : Schemas.HintResponse :=
  {| Schemas.enabled := true;
     Schemas.hint_level := 1;
     Schemas.hint_type := "generic";
     Schemas.cluster_key := language ++ "_unsupported_mvp";
     Schemas.hint_text := UNSUPPORTED_TEXT;
     Schemas.confidence := 0.25%float;
     Schemas.hint_variant := "default";
     Schemas.learning := None |}.

(** [(req.language or 'c').lower()] *)
Definition request_language (req : Schemas.HintRequest) : string :=
  PyStr.lower (if PyStr.nonempty (Schemas.language req)
               then Schemas.language req else "c").

(** [previous['hint_variant'] and previous['hint_level']] *)
Definition has_hint (previous : Db.Attempt.t) : bool :=
  match Db.Attempt.hint_variant previous, Db.Attempt.hint_level previous with
  | Some v, Some l => PyStr.nonempty v && negb (l =? 0)
  | _, _ => false
  end.

Section Library.

(** The library functions the engine calls: [round(x, ndigits)],
    [hashlib.sha256(s.encode('utf-8', errors='ignore')).hexdigest()] and
    [json.dumps(obj, ensure_ascii=False)]. *)
Variable py_round : float -> Z -> float.
Variable sha256_hexdigest : string -> string.
Variable json_dumps : list string -> string.

(** The feedback on the previous hint, when the previous attempt carries
    one. *)
Definition learn_from_previous (req : Schemas.HintRequest)
    (previous : option Db.Attempt.t) : M (option Schemas.Learning) :=
  match previous with
  | Some previous =>
      if has_hint previous then
        let prevscore := Py.real_or (Db.Attempt.score previous) 0 in
        let currscore :=
          Py.float_or (Schemas.score (Schemas.coderunner req)) 0 in
        let delta := (currscore - prevscore)%float in
        let improved := (1e-9 <? delta)%float in
        update_attempt_improvement (Db.Attempt.id previous) improved
          delta ;;
        bump_hint_stats
          (Db.Attempt.language previous)
          (Py.str_or (Db.Attempt.cluster_key previous) "unknown")
          (Py.int_or (Db.Attempt.hint_level previous) 1)
          (Py.str_or (Db.Attempt.hint_variant previous) "default")
          0 (if improved then 1 else 0) delta ;;
        ret (Some {| Schemas.previous_hint_improved_score := improved;
                     Schemas.previous_delta_score := py_round delta 4 |})
      else ret None
  | None => ret None
  end.

Definition new_attempt (req : Schemas.HintRequest) (language : string)
    (analysis : CAdapter.AnalysisResult) (hint_level : Z)
    (hint_variant hint_text : string) : Db.NewAttempt.t :=
  let cr := Schemas.coderunner req in
  {| Db.NewAttempt.mode := Schemas.mode req;
     Db.NewAttempt.language := language;
     Db.NewAttempt.course_id := Schemas.course_id req;
     Db.NewAttempt.quiz_id := Schemas.quiz_id req;
     Db.NewAttempt.question_id := Schemas.question_id req;
     Db.NewAttempt.question_slot := Schemas.question_slot req;
     Db.NewAttempt.question_name := Schemas.question_name req;
     Db.NewAttempt.student_id := Schemas.student_id req;
     Db.NewAttempt.attempt_id := Schemas.attempt_id req;
     Db.NewAttempt.attempt_no := Schemas.attempt_no req;
     Db.NewAttempt.source_code := Schemas.source_code req;
     Db.NewAttempt.source_hash :=
       substring 0 16 (sha256_hexdigest (Schemas.source_code req));
     Db.NewAttempt.score := Schemas.score cr;
     Db.NewAttempt.max_score := Schemas.max_score cr;
     Db.NewAttempt.compile_error_text := Schemas.compile_error_text cr;
     Db.NewAttempt.runtime_error_text := Schemas.runtime_error_text cr;
     Db.NewAttempt.failed_tests_json :=
       json_dumps (Schemas.failed_tests cr);
     Db.NewAttempt.full_feedback_text := Schemas.full_feedback_text cr;
     Db.NewAttempt.cluster_key := CAdapter.cluster_key analysis;
     Db.NewAttempt.hint_level := hint_level;
     Db.NewAttempt.hint_type := CAdapter.hint_type analysis;
     Db.NewAttempt.hint_variant := hint_variant;
     Db.NewAttempt.hint_text := hint_text;
     Db.NewAttempt.confidence := CAdapter.confidence analysis |}.

Definition handle_hint (req : Schemas.HintRequest)
    : M Schemas.HintResponse :=
  if negb (String.eqb (Schemas.mode req) "training") then
    ret disabled_response
  else
    let language := request_language req in
    if negb (String.eqb language "c") then
      ret (unsupported_response language)
    else
      record (Analyze req) ;;
      let analysis := CAdapter.analyze req in
      let cluster_key := CAdapter.cluster_key analysis in
      let hint_type := CAdapter.hint_type analysis in
      let confidence := CAdapter.confidence analysis in
      previous <- get_last_attempt_for_context
                    (Schemas.student_id req) language
                    (Schemas.quiz_id req) (Schemas.question_id req)
                    (Schemas.question_slot req) ;;
      learning_info <- learn_from_previous req previous ;;
      let hint_level := _decide_level previous in
      catalog <- _load_catalog language ;;
      hint_variant <- _choose_variant language cluster_key hint_level
                        catalog ;;
      let hint_text :=
        _resolve_hint_text catalog cluster_key hint_level hint_variant in
      bump_hint_stats language cluster_key hint_level hint_variant
        1 0 0 ;;
      insert_attempt
        (new_attempt req language analysis hint_level hint_variant
           hint_text) ;;
      ret {| Schemas.enabled := true;
             Schemas.hint_level := hint_level;
             Schemas.hint_type := hint_type;
             Schemas.cluster_key := cluster_key;
             Schemas.hint_text := hint_text;
             Schemas.confidence := py_round confidence 3;
             Schemas.hint_variant := hint_variant;
             Schemas.learning := learning_info |}.

End Library.

(** *** Terms of the statements about the engine *)

Definition is_insert (e : event) : bool :=
  match e with InsertAttempt _ => true | _ => false end.

(** The call that counts an exposure. *)
Definition is_exposure_bump (e : event) : bool :=
  match e with
  | BumpHintStats _ _ _ _ exposure_inc _ _ => exposure_inc =? 1
  | _ => false
  end.

Definition is_db_write (e : event) : bool :=
  match e with
  | UpdateAttemptImprovement _ _ _ | BumpHintStats _ _ _ _ _ _ _
  | InsertAttempt _ => true
  | _ => false
  end.

(** Does a call that satisfies [p] come before a call that satisfies [q]? *)
Fixpoint occurs_before (p q : event -> bool) (tr : list event) : bool :=
  match tr with
  | [] => false
  | e :: tr' => p e && existsb q tr' || occurs_before p q tr'
  end.

(** [m] relates the world it starts in to the world it ends in by [R],
    whether it returns or raises. *)
Definition respects {A : Type} (R : world -> world -> Prop) (m : M A) : Prop :=
  forall w out w', m w = (out, w') -> R w w'.

(** The tables of attempts are the same. *)
Definition same_attempts (w w' : world) : Prop :=
  Db.attempts (db w') = Db.attempts (db w)
  /\ Db.attempts_seq (db w') = Db.attempts_seq (db w).

(** A call that neither inserts an attempt nor counts an exposure. *)
Definition quiet (e : event) : bool :=
  negb (is_insert e) && negb (is_exposure_bump e).

(** The log has grown by quiet calls only. *)
Definition quietly (w w' : world) : Prop :=
  exists evs, calls w' = calls w ++ evs /\ forallb quiet evs = true.

(** What the feedback loop has recorded: id, improved_vs_previous and
    delta_score of every attempt. *)
Definition recorded_feedback (w : world)
    : list (Z * option Z * option float) :=
  map (fun a => (Db.Attempt.id a, Db.Attempt.improved_vs_previous a,
                 Db.Attempt.delta_score a))
    (Db.attempts (db w)).

End HintEngine.

(** ** Scenarios

    The concrete requests the statements are tried on. *)

Module Scenarios.

Definition payload (score max_score : float)
    (compile_text runtime_text : string) (failed : list string)
    : Schemas.CodeRunnerPayload :=
  {| Schemas.score := score;
     Schemas.max_score := max_score;
     Schemas.compile_error_text := compile_text;
     Schemas.runtime_error_text := runtime_text;
     Schemas.failed_tests := failed;
     Schemas.full_feedback_text := "" |}.

Definition request (mode : string) (code : string)
    (cr : Schemas.CodeRunnerPayload) : Schemas.HintRequest :=
  {| Schemas.mode := mode;
     Schemas.language := "c";
     Schemas.course_id := 1;
     Schemas.quiz_id := 7;
     Schemas.question_id := 3;
     Schemas.question_slot := 1;
     Schemas.question_name := "somma";
     Schemas.student_id := "s42";
     Schemas.attempt_id := 11;
     Schemas.attempt_no := 1;
     Schemas.source_code := code;
     Schemas.coderunner := cr |}.

Definition UNDECLARED : string :=
  "error: 'x' undeclared (first use in this function)".

Definition USE_AFTER_FREE : string :=
  "==7==ERROR: AddressSanitizer: heap-use-after-free on address 0x602000000010".

Definition UNUSED : string := "warning: unused variable 'tmp'".

(** Runtime text with a use-after-free, compile text with an undeclared
    identifier. *)
Definition uaf_request : Schemas.HintRequest :=
  request "training" "int main(void) { return x; }"
    (payload 0 10 UNDECLARED USE_AFTER_FREE []).

(** The same, with a segmentation fault reported after the sanitizer's
    line. *)
Definition uaf_segv_request : Schemas.HintRequest :=
  request "training" "int main(void) { return x; }"
    (payload 0 10 UNDECLARED
       (USE_AFTER_FREE ++ "; Segmentation fault (core dumped)") []).

(** Only the unused-variable warning, at a given score out of 1. *)
Definition unused_request (score : float) : Schemas.HintRequest :=
  request "training" "int main(void) { int tmp; return 0; }"
    (payload score 1 UNUSED "" []).

(** The same, at a given score out of a given maximum. *)
Definition unused_request_out_of (score max_score : float)
    : Schemas.HintRequest :=
  request "training" "int main(void) { int tmp; return 0; }"
    (payload score max_score UNUSED "" []).

(** A stored attempt of the same context, with a score, a level and a
    variant. *)
Definition previous_attempt (id : Z) (score max_score : float)
    (hint_level : Z) (hint_variant : string) : Db.Attempt.t :=
  {| Db.Attempt.id := id;
     Db.Attempt.mode := "training";
     Db.Attempt.language := "c";
     Db.Attempt.course_id := Some 1;
     Db.Attempt.quiz_id := Some 7;
     Db.Attempt.question_id := Some 3;
     Db.Attempt.question_slot := Some 1;
     Db.Attempt.question_name := Some "somma";
     Db.Attempt.student_id := "s42";
     Db.Attempt.attempt_id := Some 10;
     Db.Attempt.attempt_no := Some 1;
     Db.Attempt.source_code := Some "int main(void) { return x; }";
     Db.Attempt.source_hash := Some "0123456789abcdef";
     Db.Attempt.score := Some score;
     Db.Attempt.max_score := Some max_score;
     Db.Attempt.compile_error_text := Some UNDECLARED;
     Db.Attempt.runtime_error_text := Some "";
     Db.Attempt.failed_tests_json := Some "[]";
     Db.Attempt.full_feedback_text := Some "";
     Db.Attempt.cluster_key := Some "c_undeclared_identifier";
     Db.Attempt.hint_level := Some hint_level;
     Db.Attempt.hint_type := Some "compile_symbol";
     Db.Attempt.hint_variant := Some hint_variant;
     Db.Attempt.hint_text := Some "Dichiara x prima di usarla.";
     Db.Attempt.confidence := Some 0.92%float;
     Db.Attempt.improved_vs_previous := None;
     Db.Attempt.delta_score := None |}.

(** A request whose compile text reports an undeclared identifier. *)
Definition undeclared_request (mode : string) (score max_score : float)
    : Schemas.HintRequest :=
  request mode "int main(void) { return x; }"
    (payload score max_score UNDECLARED "" []).

Definition stat (cluster_key : string) (hint_level : Z)
    (hint_variant : string) (exposures improvements : Z)
    (total_delta : float) : Db.HintStat.t :=
  {| Db.HintStat.language := "c";
     Db.HintStat.cluster_key := cluster_key;
     Db.HintStat.hint_level := hint_level;
     Db.HintStat.hint_variant := hint_variant;
     Db.HintStat.exposures := exposures;
     Db.HintStat.improvements := improvements;
     Db.HintStat.total_delta := total_delta |}.

(** A catalog with two variants A and B of the undeclared-identifier
    cluster, and one of the generic cluster. *)
Definition catalog_AB : HintEngine.Catalog :=
  [ ("c_undeclared_identifier",
     {| HintEngine.other_keys := false;
        HintEngine.variants :=
          Some [ ("A", [("1", "Manca una dichiarazione?");
                        ("2", "Dichiara x prima di usarla.")]);
                 ("B", [("1", "Guarda il nome che il compilatore segnala.")])
               ] |});
    ("c_logic_generic_failed_tests",
     {| HintEngine.other_keys := false;
        HintEngine.variants :=
          Some [ ("default", [("1", "Riparti dal primo test che fallisce.")])
               ] |}) ].

(** A random source that always draws [r] and always picks index [i]. *)
Definition constant_rng (r : float) (i : nat) : HintEngine.Rng :=
  {| HintEngine.draws := fun _ => r;
     HintEngine.picks := fun _ => i;
     HintEngine.used := 0 |}.

Definition world_of (attempts : list Db.Attempt.t)
    (stats : list Db.HintStat.t) (catalog : HintEngine.Catalog)
    (g : HintEngine.Rng) : HintEngine.world :=
  {| HintEngine.db :=
       {| Db.attempts := attempts;
          Db.attempts_seq := Db.max_id attempts;
          Db.hint_stats := stats |};
     HintEngine.catalog_cache := [];
     HintEngine.catalog_files :=
       fun language => if String.eqb language "c" then Some catalog else None;
     HintEngine.random := g;
     HintEngine.calls := [] |}.

(** The statistics of the specification: A improved 9 times out of 10, B
    once out of 10. *)
Definition stats_AB : list Db.HintStat.t :=
  [ stat "c_undeclared_identifier" 1 "B" 10 1 1;
    stat "c_undeclared_identifier" 1 "A" 10 9 9 ].

(** Stand-ins for [round], [sha256(...).hexdigest()] and [json.dumps] where
    a run needs them; no statement depends on what they return. *)
Definition round_id (x : float) (ndigits : Z) : float := x.
Definition hash_id (s : string) : string := s.
Definition dumps_join (l : list string) : string := PyStr.join "," l.

End Scenarios.

(** ** main.py *)

Module Main.

(** [s.lstrip()], [s.rstrip()] and [s.strip()]: the characters for which
    [str.isspace] holds are taken off. *)
Fixpoint lstrip (s : string) : string :=
  match s with
  | EmptyString => EmptyString
  | String c s' => if Regex.is_space c then lstrip s' else s
  end.

Fixpoint rstrip (s : string) : string :=
  match s with
  | EmptyString => EmptyString
  | String c s' =>
      match rstrip s' with
      | EmptyString => if Regex.is_space c then EmptyString else String c ""
      | r => String c r
      end
  end.

Definition strip (s : string) : string := rstrip (lstrip s).

Inductive HTTPException : Type :=
| Http (status_code : Z) (detail : string).

(** [os.getenv(name, '')] and [x or ''] on an optional string. *)
Definition or_empty (x : option string) : string :=
  match x with
  | Some v => v
  | None => ""
  end.

(** [check_api_key]: [env_key] is the variable HINT_ENGINE_API_KEY of the
    environment, [x_api_key] the header of the request; [Some e] is the
    exception raised, [None] the normal return. *)
Definition check_api_key (env_key x_api_key : option string)
    : option HTTPException :=
  let expected := strip (or_empty env_key) in
  if PyStr.nonempty expected
     && negb (String.eqb (strip (or_empty x_api_key)) expected)
  then Some (Http 401 "Invalid API key")
  else None.





Section Sqlite.

(** [ROUND(x, n)] of SQLite. *)
Variable sql_round : float -> Z -> float.



End Sqlite.

(** Every character is white space. *)
Definition all_space (s : string) : bool :=
  forallb Regex.is_space (list_ascii_of_string s).

End Main.
(** ** Terms of further statements

    What the statements below about the analyzer, the tables and the
    engine are written with. *)

Module AnalyzerTerms.
Import Regex CAdapter.

(** The keyword lists of step 3), in the order the code tries them. *)
Definition EMPTY_CUES : list string := ["empty"; "vuoto"; "n=0"; "zero"].
Definition SINGLE_CUES : list string :=
  ["single"; "uno"; "1 elemento"; "one element"].
Definition FORMAT_CUES : list string :=
  ["format"; "output"; "newline"; "spazio"; "space"].
Definition BOUNDS_CUES : list string :=
  ["bounds"; "index"; "ultimo"; "last"; "first"].

(** The alternatives of the compile patterns that can still decide. *)
Definition re_previous_declaration : regex :=
  seq [lit "previous declaration of "; Star any; lit " with type"].

Definition re_argument_count : regex :=
  seq [lit "too "; alts [lit "few"; lit "many"];
       lit " arguments to function"].

(** Steps 1) and 2) of [analyze] found nothing. *)
Definition no_pattern (req : Schemas.HintRequest) : Prop :=
  first_match RUNTIME_PATTERNS (merged_runtime req) = None
  /\ first_match COMPILE_PATTERNS (merged_compile req) = None.

End AnalyzerTerms.
Module DbTerms.
Import Db.

(** The context of an attempt, as [get_last_attempt_for_context] asks for
    it. *)
Definition context_of (row : NewAttempt.t)
    : string * string * Z * Z * Z :=
  (NewAttempt.student_id row, NewAttempt.language row,
   NewAttempt.quiz_id row, NewAttempt.question_id row,
   NewAttempt.question_slot row).

(** An attempt without what the feedback loop writes on it. *)
Definition clear_feedback (a : Attempt.t) : Attempt.t :=
  {| Attempt.id := Attempt.id a;
     Attempt.mode := Attempt.mode a;
     Attempt.language := Attempt.language a;
     Attempt.course_id := Attempt.course_id a;
     Attempt.quiz_id := Attempt.quiz_id a;
     Attempt.question_id := Attempt.question_id a;
     Attempt.question_slot := Attempt.question_slot a;
     Attempt.question_name := Attempt.question_name a;
     Attempt.student_id := Attempt.student_id a;
     Attempt.attempt_id := Attempt.attempt_id a;
     Attempt.attempt_no := Attempt.attempt_no a;
     Attempt.source_code := Attempt.source_code a;
     Attempt.source_hash := Attempt.source_hash a;
     Attempt.score := Attempt.score a;
     Attempt.max_score := Attempt.max_score a;
     Attempt.compile_error_text := Attempt.compile_error_text a;
     Attempt.runtime_error_text := Attempt.runtime_error_text a;
     Attempt.failed_tests_json := Attempt.failed_tests_json a;
     Attempt.full_feedback_text := Attempt.full_feedback_text a;
     Attempt.cluster_key := Attempt.cluster_key a;
     Attempt.hint_level := Attempt.hint_level a;
     Attempt.hint_type := Attempt.hint_type a;
     Attempt.hint_variant := Attempt.hint_variant a;
     Attempt.hint_text := Attempt.hint_text a;
     Attempt.confidence := Attempt.confidence a;
     Attempt.improved_vs_previous := None;
     Attempt.delta_score := None |}.

(** The columns of the UNIQUE constraint of [hint_stats]. *)
Definition stat_key (r : HintStat.t) : string * string * Z * string :=
  (HintStat.language r, HintStat.cluster_key r, HintStat.hint_level r,
   HintStat.hint_variant r).

Definition key_eqb (k k' : string * string * Z * string) : bool :=
  let '(l, c, h, v) := k in
  let '(l', c', h', v') := k' in
  String.eqb l l' && String.eqb c c' && (h =? h') && String.eqb v v'.

(** The row of a key, and its counters (0 without a row). *)
Definition lookup_stat (k : string * string * Z * string)
    (rows : list HintStat.t) : option HintStat.t :=
  let '(l, c, h, v) := k in find (same_key l c h v) rows.

Definition exposures_of (k : string * string * Z * string)
    (rows : list HintStat.t) : Z :=
  match lookup_stat k rows with
  | Some r => HintStat.exposures r
  | None => 0
  end.

Definition improvements_of (k : string * string * Z * string)
    (rows : list HintStat.t) : Z :=
  match lookup_stat k rows with
  | Some r => HintStat.improvements r
  | None => 0
  end.

(** The sum of the deltas of a key after one more delta. *)
Definition total_after (k : string * string * Z * string)
    (rows : list HintStat.t) (delta_inc : float) : float :=
  match lookup_stat k rows with
  | Some r => (HintStat.total_delta r + delta_inc)%float
  | None => delta_inc
  end.

(** ORDER BY exposures DESC, improvements DESC, on its two integer
    columns: [a] may stand before [b]. *)
Definition may_precede (a b : HintStat.t) : Prop :=
  HintStat.exposures b < HintStat.exposures a
  \/ (HintStat.exposures a = HintStat.exposures b
      /\ HintStat.improvements b <= HintStat.improvements a).

End DbTerms.
Module EngineTerms.
Import HintEngine DbTerms.

(** The cache, the catalog files and the database are the same. *)
Definition same_store (w w' : world) : Prop :=
  db w' = db w /\ catalog_cache w' = catalog_cache w
  /\ catalog_files w' = catalog_files w.

(** The key of the statistics that a response counts an exposure on. *)
Definition response_key (resp : Schemas.HintResponse)
    : string * string * Z * string :=
  ("c", Schemas.cluster_key resp, Schemas.hint_level resp,
   Schemas.hint_variant resp).

(** The key of the statistics that the feedback on a previous attempt is
    counted on. *)
Definition feedback_key (p : Db.Attempt.t) : string * string * Z * string :=
  (Db.Attempt.language p,
   Py.str_or (Db.Attempt.cluster_key p) "unknown",
   Py.int_or (Db.Attempt.hint_level p) 1,
   Py.str_or (Db.Attempt.hint_variant p) "default").

(** [delta] of the feedback loop. *)
Definition score_delta (req : Schemas.HintRequest) (p : Db.Attempt.t)
    : float :=
  (Py.float_or (Schemas.score (Schemas.coderunner req)) 0
   - Py.real_or (Db.Attempt.score p) 0)%float.

(** The improvement that a request owes to the key [k]: one when the
    previous attempt of its context carries a hint of that key and the score
    has grown by more than 1e-9. *)
Definition improvement_due (req : Schemas.HintRequest)
    (previous : option Db.Attempt.t) (k : string * string * Z * string) : Z :=
  match previous with
  | Some p =>
      if has_hint p && key_eqb k (feedback_key p)
         && (1e-9 <? score_delta req p)%float
      then 1 else 0
  | None => 0
  end.

(** The previous attempt that a request finds. *)
Definition previous_of (req : Schemas.HintRequest) (w : world)
    : option Db.Attempt.t :=
  Db.get_last_attempt_for_context (Schemas.student_id req) "c"
    (Schemas.quiz_id req) (Schemas.question_id req)
    (Schemas.question_slot req) (db w).

(** What the feedback on the previous attempt does to the database. *)
Definition feedback_db (req : Schemas.HintRequest)
    (previous : option Db.Attempt.t) (d : Db.database)
    : Db.error + Db.database :=
  match previous with
  | Some p =>
      if has_hint p then
        let delta := score_delta req p in
        let improved := (1e-9 <? delta)%float in
        Db.bump_hint_stats (Db.Attempt.language p)
          (Py.str_or (Db.Attempt.cluster_key p) "unknown")
          (Py.int_or (Db.Attempt.hint_level p) 1)
          (Py.str_or (Db.Attempt.hint_variant p) "default")
          0 (if improved then 1 else 0) delta
          (Db.update_attempt_improvement (Db.Attempt.id p) improved delta d)
      else inr d
  | None => inr d
  end.

(** The log of the calls has grown, by no insertion of an attempt. *)
Definition without_insert (w w' : world) : Prop :=
  exists evs, calls w' = calls w ++ evs /\ existsb is_insert evs = false.

End EngineTerms.
(** ** Further scenarios *)

Module Cases.

(** Two failed tests and no message of the compiler or of the run. *)
Definition cue_request : Schemas.HintRequest :=
  Scenarios.request "training" "int main(void) { return 0; }"
    (Scenarios.payload 2 10 "" ""
       ["Test 3: EMPTY list"; "single element"]).

(** A source that frees what it allocates and never tests the pointer. *)
Definition leak_request : Schemas.HintRequest :=
  Scenarios.request "training"
    "int *p = malloc(4); p[0] = 1; free(p);"
    (Scenarios.payload 0 10 "" "" []).

(** A database that holds the statistics of the specification and no
    attempt. *)
Definition stats_db : Db.database :=
  {| Db.attempts := [];
     Db.attempts_seq := 0;
     Db.hint_stats := Scenarios.stats_AB |}.

Definition key_A : string * string * Z * string :=
  ("c", "c_undeclared_identifier", 1, "A").

Definition key_C : string * string * Z * string :=
  ("c", "c_undeclared_identifier", 1, "C").

(** The second request of a context: the previous attempt scored 4 out of
    10 with the hint of level 1 and variant A. *)
Definition second_world : HintEngine.world :=
  Scenarios.world_of [Scenarios.previous_attempt 1 4 10 1 "A"]
    Scenarios.stats_AB Scenarios.catalog_AB (Scenarios.constant_rng 0.5 0).

Definition second_request (score : float) : Schemas.HintRequest :=
  Scenarios.undeclared_request "training" score 10.

(** A request in another language. *)
Definition python_request : Schemas.HintRequest :=
  {| Schemas.mode := "training";
     Schemas.language := "Python";
     Schemas.course_id := 1;
     Schemas.quiz_id := 7;
     Schemas.question_id := 3;
     Schemas.question_slot := 1;
     Schemas.question_name := "somma";
     Schemas.student_id := "s42";
     Schemas.attempt_id := 11;
     Schemas.attempt_no := 1;
     Schemas.source_code := "print(x)";
     Schemas.coderunner := Scenarios.payload 0 10 "" "" [] |}.

(** Statistics for variant A only. *)
Definition stats_A : list Db.HintStat.t :=
  [ Scenarios.stat "c_undeclared_identifier" 1 "A" 10 9 9 ].

End Cases.

(** ** The order of the floats

    A device of the proofs: binary64 comparison read as a lexicographic
    order on integers. *)

Module FloatOrder.

(** The place of a float that is not a NaN on the line: its class (-2 for
    -inf, -1 negative, 0 zero, 1 positive, 2 for +inf), then its exponent
    and its mantissa, both negated for the negative ones. *)
Definition rank (f : spec_float) : Z * Z * Z :=
  match f with
  | S754_zero _ => (0, 0, 0)
  | S754_infinity false => (2, 0, 0)
  | S754_infinity true => (-2, 0, 0)
  | S754_nan => (0, 0, 0)
  | S754_finite false m e => (1, e, Zpos m)
  | S754_finite true m e => (-1, - e, Zneg m)
  end.

Definition lex (a b : Z * Z * Z) : comparison :=
  let '(a1, a2, a3) := a in
  let '(b1, b2, b3) := b in
  match a1 ?= b1 with
  | Eq => match a2 ?= b2 with
          | Eq => a3 ?= b3
          | c => c
          end
  | c => c
  end.

Definition not_nan (f : spec_float) : bool :=
  match f with S754_nan => false | _ => true end.

End FloatOrder.

(** * Properties *)

(** ** Strings *)

Module PyStrFacts.
Import PyStr.

Lemma chars_app (s t : string) :
  list_ascii_of_string (s ++ t)%string
  = list_ascii_of_string s ++ list_ascii_of_string t.
Proof.
  induction s as [|c s IH]; simpl; [reflexivity | now rewrite IH].
Qed.

Lemma lower_app (s t : string) :
  lower (s ++ t) = (lower s ++ lower t)%string.
Proof.
  induction s as [|c s IH]; simpl; [reflexivity | now rewrite IH].
Qed.

Lemma append_assoc (s t u : string) :
  ((s ++ t) ++ u = s ++ (t ++ u))%string.
Proof.
  induction s as [|c s IH]; simpl; [reflexivity | now rewrite IH].
Qed.

Lemma startswith_app (p s : string) : startswith p (p ++ s) = true.
Proof.
  induction p as [|c p IH]; simpl; [reflexivity |].
  now rewrite Ascii.eqb_refl, IH.
Qed.

Lemma startswith_split (p s : string) :
  startswith p s = true -> exists t, s = (p ++ t)%string.
Proof.
  revert s; induction p as [|c p IH]; intros s H; simpl in *.
  - now exists s.
  - destruct s as [|d s]; [discriminate |].
    apply andb_true_iff in H as [Hc Hp].
    apply Ascii.eqb_eq in Hc; subst d.
    destruct (IH _ Hp) as [t ->]. now exists t.
Qed.

Lemma contains_startswith (p s : string) :
  startswith p s = true -> contains p s = true.
Proof. intros H. destruct s; simpl; now rewrite H. Qed.

(** [sub in s] holds exactly when [s] is [a + sub + b]. *)
Lemma contains_spec (sub s : string) :
  contains sub s = true <-> exists a b, s = (a ++ sub ++ b)%string.
Proof.
  split.
  - induction s as [|c s IH]; simpl; intros H.
    + rewrite orb_false_r in H. apply startswith_split in H as [t ->].
      now exists "", t.
    + apply orb_true_iff in H as [H | H].
      * apply startswith_split in H as [t ->]. now exists "", t.
      * destruct (IH H) as (a & b & ->). now exists (String c a), b.
  - intros (a & b & ->). induction a as [|c a IH].
    + change ("" ++ sub ++ b)%string with (sub ++ b)%string.
      apply contains_startswith, startswith_app.
    + simpl. rewrite IH. apply orb_true_r.
Qed.

Lemma lower_char_idem (c : ascii) :
  lower_char (lower_char c) = lower_char c.
Proof.
  destruct c as [[] [] [] [] [] [] [] []]; reflexivity.
Qed.

End PyStrFacts.

(** ** The matcher agrees with the semantics of regular expressions *)

Module RegexFacts.
Import Regex.

#[local] Hint Constructors Matches : core.

Lemma Matches_Void s : ~ Matches Void s.
Proof. intros H; inversion H. Qed.

Lemma Matches_Eps s : Matches Eps s -> s = [].
Proof. intros H; now inversion H. Qed.

Lemma Matches_Sym p s : Matches (Sym p) s -> exists c, s = [c] /\ p c = true.
Proof. intros H; inversion H; subst; eauto. Qed.

Lemma Matches_Cat r1 r2 s :
  Matches (Cat r1 r2) s ->
  exists s1 s2, s = s1 ++ s2 /\ Matches r1 s1 /\ Matches r2 s2.
Proof. intros H; inversion H; subst; eauto. Qed.

Lemma Matches_Alt r1 r2 s :
  Matches (Alt r1 r2) s -> Matches r1 s \/ Matches r2 s.
Proof. intros H; inversion H; subst; auto. Qed.

(** A non-empty match of a star starts with a non-empty match of its
    body. *)
Lemma Matches_Star_cons r c s :
  Matches (Star r) (c :: s) ->
  exists s1 s2, s = s1 ++ s2 /\ Matches r (c :: s1) /\ Matches (Star r) s2.
Proof.
  intros H. remember (Star r) as r' eqn:Er. remember (c :: s) as w eqn:Ew.
  revert c s Ew.
  induction H as [| | | | | |r0 s1 s2 H1 _ H2 IH2]; intros a t Ew;
    try discriminate.
  injection Er as ->.
  destruct s1 as [|d s1]; simpl in Ew.
  - now apply IH2.
  - injection Ew as <- <-. eauto.
Qed.

Lemma nullable_spec r : nullable r = true <-> Matches r [].
Proof.
  induction r as [| |p|r1 IH1 r2 IH2|r1 IH1 r2 IH2|r IH]; simpl.
  - split; [discriminate | intros H; inversion H].
  - split; auto.
  - split; [discriminate | intros H; inversion H].
  - rewrite andb_true_iff, IH1, IH2. split.
    + intros [H1 H2]. change (@nil ascii) with (@nil ascii ++ []). auto.
    + intros H. apply Matches_Cat in H as (s1 & s2 & E & H1 & H2).
      symmetry in E. apply app_eq_nil in E as [-> ->]. auto.
  - rewrite orb_true_iff, IH1, IH2. split.
    + intros [H | H]; auto.
    + apply Matches_Alt.
  - split; auto.
Qed.

Lemma cat_spec r1 r2 s : Matches (cat r1 r2) s <-> Matches (Cat r1 r2) s.
Proof.
  split.
  - destruct r1, r2; simpl; intros H; auto;
      try (now inversion H);
      try (change s with ([] ++ s); now auto).
  - intros H. apply Matches_Cat in H as (s1 & s2 & -> & H1 & H2).
    destruct r1, r2; simpl; auto;
      try (now inversion H1); try (now inversion H2);
      try (apply Matches_Eps in H1 as ->; simpl; assumption).
Qed.

Lemma alt_spec r1 r2 s : Matches (alt r1 r2) s <-> Matches (Alt r1 r2) s.
Proof.
  split.
  - destruct r1, r2; simpl; intros H; auto.
  - intros H. apply Matches_Alt in H as [H | H];
      destruct r1, r2; simpl; auto;
      try (now inversion H).
Qed.

Lemma deriv_spec c r s : Matches (deriv c r) s <-> Matches r (c :: s).
Proof.
  revert s.
  induction r as [| |p|r1 IH1 r2 IH2|r1 IH1 r2 IH2|r IH]; intros s; simpl.
  - split; intros H; inversion H.
  - split; intros H; inversion H.
  - destruct (p c) eqn:Ep; split; intros H.
    + apply Matches_Eps in H as ->. auto.
    + apply Matches_Sym in H as (d & E & _). injection E as _ ->. auto.
    + inversion H.
    + apply Matches_Sym in H as (d & E & Hd). injection E as -> _.
      congruence.
  - destruct (nullable r1) eqn:En.
    + rewrite alt_spec. split; intros H.
      * apply Matches_Alt in H as [H | H].
        -- apply cat_spec, Matches_Cat in H as (s1 & s2 & -> & H1 & H2).
           apply IH1 in H1. change (c :: s1 ++ s2) with ((c :: s1) ++ s2).
           auto.
        -- apply IH2 in H. apply nullable_spec in En.
           change (c :: s) with ([] ++ c :: s). auto.
      * apply Matches_Cat in H as (s1 & s2 & E & H1 & H2).
        destruct s1 as [|d s1]; simpl in E.
        -- subst s2. apply MAltR. now apply IH2.
        -- injection E as -> ->. apply MAltL, cat_spec.
           apply IH1 in H1. auto.
    + rewrite cat_spec. split; intros H.
      * apply Matches_Cat in H as (s1 & s2 & -> & H1 & H2).
        apply IH1 in H1. change (c :: s1 ++ s2) with ((c :: s1) ++ s2).
        auto.
      * apply Matches_Cat in H as (s1 & s2 & E & H1 & H2).
        destruct s1 as [|d s1]; simpl in E.
        -- apply nullable_spec in H1. congruence.
        -- injection E as -> ->. apply IH1 in H1. auto.
  - rewrite alt_spec. split; intros H.
    + apply Matches_Alt in H as [H | H]; [apply IH1 in H | apply IH2 in H];
        auto.
    + apply Matches_Alt in H as [H | H]; [apply IH1 in H | apply IH2 in H];
        auto.
  - rewrite cat_spec. split; intros H.
    + apply Matches_Cat in H as (s1 & s2 & -> & H1 & H2).
      apply IH in H1. change (c :: s1 ++ s2) with ((c :: s1) ++ s2). auto.
    + apply Matches_Star_cons in H as (s1 & s2 & -> & H1 & H2).
      apply IH in H1. auto.
Qed.

Lemma match_prefix_spec r s :
  match_prefix r s = true <-> exists p q, s = p ++ q /\ Matches r p.
Proof.
  revert r; induction s as [|c s IH]; intros r; simpl.
  - rewrite orb_false_r, nullable_spec. split.
    + intros H. now exists [], [].
    + intros (p & q & E & H). symmetry in E.
      apply app_eq_nil in E as [-> _]. assumption.
  - rewrite orb_true_iff, nullable_spec, IH. split.
    + intros [H | (p & q & -> & H)].
      * now exists [], (c :: s).
      * exists (c :: p), q. split; [reflexivity | now apply deriv_spec].
    + intros (p & q & E & H). destruct p as [|d p]; simpl in E.
      * now left.
      * injection E as -> ->. right. exists p, q.
        split; [reflexivity | now apply deriv_spec].
Qed.

Lemma search_at_spec r s :
  search_at r s = true <->
  exists a p q, s = a ++ p ++ q /\ Matches r p.
Proof.
  induction s as [|c s IH].
  - change (search_at r []) with (match_prefix r [] || false).
    rewrite orb_false_r, match_prefix_spec. split.
    + intros (p & q & E & H). now exists [], p, q.
    + intros (a & p & q & E & H). symmetry in E.
      apply app_eq_nil in E as [-> E]. now exists p, q.
  - change (search_at r (c :: s))
      with (match_prefix r (c :: s) || search_at r s).
    rewrite orb_true_iff, match_prefix_spec, IH. split.
    + intros [(p & q & E & H) | (a & p & q & -> & H)].
      * now exists [], p, q.
      * now exists (c :: a), p, q.
    + intros (a & p & q & E & H). destruct a as [|d a]; simpl in E.
      * left. now exists p, q.
      * injection E as -> ->. right. now exists a, p, q.
Qed.

(** [re.search] finds the pattern exactly when a substring of the text
    matches it. *)
Lemma search_spec r (s : string) :
  search r s = true <->
  exists a p q, list_ascii_of_string s = a ++ p ++ q /\ Matches r p.
Proof. apply search_at_spec. Qed.

End RegexFacts.

(** ** Comparison and subtraction of floats *)

Module FloatFacts.
Import FloatOrder.

Lemma SFcompare_rank x y :
  not_nan x = true -> not_nan y = true ->
  SFcompare x y = Some (lex (rank x) (rank y)).
Proof.
  destruct x as [[]|[]| |[] m1 e1], y as [[]|[]| |[] m2 e2];
    try discriminate; intros _ _; try reflexivity; simpl.
  rewrite Z.compare_opp, (Z.compare_antisym e1 e2).
  destruct (e1 ?= e2); reflexivity.
Qed.

Lemma lex_lt_iff a b : lex a b = Lt <->
  let '(a1,a2,a3) := a in let '(b1,b2,b3) := b in
  a1 < b1 \/ (a1 = b1 /\ (a2 < b2 \/ (a2 = b2 /\ a3 < b3))).
Proof.
  destruct a as [[a1 a2] a3], b as [[b1 b2] b3]; simpl.
  destruct (Z.compare_spec a1 b1), (Z.compare_spec a2 b2),
    (Z.compare_spec a3 b3);
    split; intros G; try discriminate; try reflexivity; try lia.
Qed.

Lemma lex_neg_trans a b c : lex a b <> Lt -> lex b c <> Lt -> lex a c <> Lt.
Proof.
  rewrite !lex_lt_iff.
  destruct a as [[a1 a2] a3], b as [[b1 b2] b3], c as [[c1 c2] c3]. lia.
Qed.

Lemma lex_trans a b c : lex a b = Lt -> lex b c = Lt -> lex a c = Lt.
Proof.
  rewrite !lex_lt_iff.
  destruct a as [[a1 a2] a3], b as [[b1 b2] b3], c as [[c1 c2] c3]. lia.
Qed.

Lemma lex_antisym a b : lex b a = CompOpp (lex a b).
Proof.
  destruct a as [[a1 a2] a3], b as [[b1 b2] b3]; simpl.
  rewrite (Z.compare_antisym a1 b1), (Z.compare_antisym a2 b2), (Z.compare_antisym a3 b3).
  destruct (a1 ?= b1), (a2 ?= b2), (a3 ?= b3); reflexivity.
Qed.

Lemma lex_refl a : lex a a = Eq.
Proof. destruct a as [[a1 a2] a3]; simpl. now rewrite !Z.compare_refl. Qed.

Lemma is_nan_spec x : PrimFloat.is_nan x = negb (not_nan (Prim2SF x)).
Proof.
  unfold PrimFloat.is_nan. rewrite eqb_spec. unfold SFeqb.
  destruct (not_nan (Prim2SF x)) eqn:E.
  - rewrite SFcompare_rank by assumption. now rewrite lex_refl.
  - destruct (Prim2SF x); try discriminate. reflexivity.
Qed.

Lemma not_nan_of x : PrimFloat.is_nan x = false -> not_nan (Prim2SF x) = true.
Proof. rewrite is_nan_spec. now destruct (not_nan (Prim2SF x)). Qed.

(** On floats that are not NaN, [<] is the strict part of a total
    preorder. *)
Lemma ltb_neg_trans x y z :
  PrimFloat.is_nan x = false -> PrimFloat.is_nan y = false ->
  PrimFloat.is_nan z = false ->
  (x <? y)%float = false -> (y <? z)%float = false -> (x <? z)%float = false.
Proof.
  intros Hx Hy Hz. apply not_nan_of in Hx, Hy, Hz.
  rewrite !ltb_spec. unfold SFltb. rewrite !SFcompare_rank by assumption.
  intros H1 H2.
  assert (A : lex (rank (Prim2SF x)) (rank (Prim2SF y)) <> Lt)
    by (intros E; now rewrite E in H1).
  assert (B : lex (rank (Prim2SF y)) (rank (Prim2SF z)) <> Lt)
    by (intros E; now rewrite E in H2).
  pose proof (lex_neg_trans _ _ _ A B) as C.
  destruct (lex (rank (Prim2SF x)) (rank (Prim2SF z))); congruence.
Qed.

Lemma ltb_false_leb x y :
  PrimFloat.is_nan x = false -> PrimFloat.is_nan y = false ->
  (x <? y)%float = false -> (y <=? x)%float = true.
Proof.
  intros Hx Hy. apply not_nan_of in Hx, Hy.
  rewrite ltb_spec, leb_spec. unfold SFltb, SFleb.
  rewrite !SFcompare_rank by assumption.
  rewrite (lex_antisym (rank (Prim2SF x)) (rank (Prim2SF y))).
  destruct (lex (rank (Prim2SF x)) (rank (Prim2SF y))); simpl; congruence.
Qed.

Lemma ltb_true_leb x y : (x <? y)%float = true -> (x <=? y)%float = true.
Proof.
  rewrite ltb_spec, leb_spec. unfold SFltb, SFleb.
  destruct (SFcompare (Prim2SF x) (Prim2SF y)) as [[]|]; congruence.
Qed.

Lemma SFcompare_some x y c :
  SFcompare x y = Some c -> not_nan x = true /\ not_nan y = true.
Proof. destruct x, y; simpl; try discriminate; auto. Qed.

Lemma ltb_not_eqb x y : (x <? y)%float = true -> (y =? x)%float = false.
Proof.
  rewrite ltb_spec, eqb_spec. unfold SFltb, SFeqb.
  destruct (SFcompare (Prim2SF x) (Prim2SF y)) as [c|] eqn:E;
    [| discriminate].
  destruct (SFcompare_some _ _ E) as [Nx Ny].
  rewrite (SFcompare_rank _ _ Nx Ny) in E.
  rewrite (SFcompare_rank _ _ Ny Nx), (lex_antisym (rank (Prim2SF x))).
  injection E as <-.
  destruct (lex (rank (Prim2SF x)) (rank (Prim2SF y))); simpl; congruence.
Qed.

Lemma is_finite_spec x :
  PrimFloat.is_finite x = true ->
  match Prim2SF x with
  | S754_zero _ | S754_finite _ _ _ => True
  | _ => False
  end.
Proof.
  unfold PrimFloat.is_finite, PrimFloat.is_infinity.
  rewrite is_nan_spec, eqb_spec, abs_spec.
  destruct (Prim2SF x) as [s|[]| |s m e]; simpl; try tauto;
    try (vm_compute; discriminate).
Qed.

Lemma sub_diag x : PrimFloat.is_finite x = true -> (x - x)%float = 0%float.
Proof.
  intros H. apply is_finite_spec in H.
  rewrite <- (SF2Prim_Prim2SF (x - x)). rewrite sub_spec.
  destruct (Prim2SF x) as [[]|[]| |s m e]; try contradiction.
  - reflexivity.
  - reflexivity.
  - unfold SF64sub, SFsub. rewrite Z.sub_diag. reflexivity.
Qed.

Lemma leb_refl x : PrimFloat.is_nan x = false -> (x <=? x)%float = true.
Proof.
  intros H. apply not_nan_of in H. rewrite leb_spec. unfold SFleb.
  now rewrite (@SFcompare_rank _ _ H H), lex_refl.
Qed.

Lemma leb_ltb_false x y : (x <=? y)%float = true -> (y <? x)%float = false.
Proof.
  rewrite leb_spec, ltb_spec. unfold SFleb, SFltb.
  destruct (SFcompare (Prim2SF x) (Prim2SF y)) as [c|] eqn:E;
    [| discriminate].
  destruct (@SFcompare_some _ _ _ E) as [Nx Ny].
  rewrite (@SFcompare_rank _ _ Nx Ny) in E.
  rewrite (@SFcompare_rank _ _ Ny Nx), (lex_antisym (rank (Prim2SF x))).
  injection E as <-.
  destruct (lex (rank (Prim2SF x)) (rank (Prim2SF y))); simpl; congruence.
Qed.

Lemma leb_not_nan x y :
  (x <=? y)%float = true ->
  PrimFloat.is_nan x = false /\ PrimFloat.is_nan y = false.
Proof.
  rewrite leb_spec, !is_nan_spec. unfold SFleb.
  destruct (SFcompare (Prim2SF x) (Prim2SF y)) as [c|] eqn:E;
    [| discriminate].
  destruct (@SFcompare_some _ _ _ E) as [-> ->]. auto.
Qed.

(** [<=] is transitive. *)
Lemma leb_trans x y z :
  (x <=? y)%float = true -> (y <=? z)%float = true -> (x <=? z)%float = true.
Proof.
  intros H1 H2.
  destruct (@leb_not_nan _ _ H1) as [Nx Ny].
  destruct (@leb_not_nan _ _ H2) as [_ Nz].
  apply ltb_false_leb; try assumption.
  apply (@ltb_neg_trans z y x); try assumption; now apply leb_ltb_false.
Qed.

End FloatFacts.

(** ** The analyzer *)

Module CAdapterFacts.
Import Regex CAdapter.

Lemma chr_self (c : ascii) : Matches (chr c) [c].
Proof. apply MSym. apply Ascii.eqb_refl. Qed.

(** A literal matches itself. *)
Lemma lit_self (s : string) : Matches (lit s) (list_ascii_of_string s).
Proof.
  induction s as [|c s IH]; simpl.
  - constructor.
  - destruct s as [|d s].
    + apply chr_self.
    + change (c :: list_ascii_of_string (String d s))
        with ([c] ++ list_ascii_of_string (String d s)).
      apply MCat; [apply chr_self | exact IH].
Qed.

(** A text that holds a phrase matched by [r] is found by [re.search]. *)
Lemma search_contains (r : regex) (p t : string) :
  Matches r (list_ascii_of_string p) ->
  PyStr.contains p t = true -> search r t = true.
Proof.
  intros Hm Hc. apply PyStrFacts.contains_spec in Hc as (a & b & ->).
  apply RegexFacts.search_spec.
  exists (list_ascii_of_string a), (list_ascii_of_string p),
    (list_ascii_of_string b).
  now rewrite !PyStrFacts.chars_app.
Qed.

Lemma contains_lower (p t : string) :
  PyStr.contains p t = true ->
  PyStr.contains (PyStr.lower p) (PyStr.lower t) = true.
Proof.
  intros H. apply PyStrFacts.contains_spec in H as (a & b & ->).
  apply PyStrFacts.contains_spec.
  exists (PyStr.lower a), (PyStr.lower b).
  now rewrite !PyStrFacts.lower_app.
Qed.

Lemma contains_app_l (p t u : string) :
  PyStr.contains p t = true -> PyStr.contains p (t ++ u) = true.
Proof.
  intros H. apply PyStrFacts.contains_spec in H as (a & b & ->).
  apply PyStrFacts.contains_spec. exists a, (b ++ u)%string.
  now rewrite !PyStrFacts.append_assoc.
Qed.

Lemma contains_suffix (q p t : string) :
  PyStr.contains (q ++ p) t = true -> PyStr.contains p t = true.
Proof.
  intros H. apply PyStrFacts.contains_spec in H as (a & b & ->).
  apply PyStrFacts.contains_spec. exists (a ++ q)%string, b.
  now rewrite !PyStrFacts.append_assoc.
Qed.

Lemma runtime_loop_first rows text sg :
  runtime_loop rows text sg
  = match first_match rows text with
    | Some r =>
        Some (result (rule_cluster r) (rule_hint_type r) (rule_conf r)
                (with_runtime sg (rule_cluster r)))
    | None => None
    end.
Proof.
  unfold first_match.
  induction rows as [|[[[pat cluster] ht] conf] rows IH]; simpl.
  - reflexivity.
  - unfold rule_pat at 1. simpl. destruct (search pat text); auto.
Qed.

Lemma compile_loop_first rows text sg :
  compile_loop rows text sg
  = match first_match rows text with
    | Some r =>
        let sg' := with_compile sg (rule_cluster r) in
        if String.eqb (rule_cluster r) "c_warning_unused_variable"
           && (0.99 <=? score_ratio sg')%float
        then inr sg'
        else inl (result (rule_cluster r) (rule_hint_type r) (rule_conf r)
                    sg')
    | None => inr sg
    end.
Proof.
  unfold first_match.
  induction rows as [|[[[pat cluster] ht] conf] rows IH]; simpl.
  - reflexivity.
  - unfold rule_pat at 1. simpl. destruct (search pat text); auto.
Qed.

Lemma first_match_some rows text r :
  first_match rows text = Some r ->
  In r rows /\ search (rule_pat r) text = true.
Proof. apply find_some. Qed.

Lemma first_match_exists rows text r0 :
  In r0 rows -> search (rule_pat r0) text = true ->
  exists r, first_match rows text = Some r.
Proof.
  intros Hin Hs. destruct (first_match rows text) as [r|] eqn:E; eauto.
  unfold first_match in E.
  pose proof (find_none _ _ E _ Hin) as H. simpl in H. congruence.
Qed.

Lemma analyze_runtime req r :
  first_match RUNTIME_PATTERNS (merged_runtime req) = Some r ->
  analyze req
  = result (rule_cluster r) (rule_hint_type r) (rule_conf r)
      (with_runtime (initial_signals req) (rule_cluster r)).
Proof. intros H. unfold analyze. now rewrite runtime_loop_first, H. Qed.

Lemma analyze_no_runtime req :
  first_match RUNTIME_PATTERNS (merged_runtime req) = None ->
  analyze req
  = match compile_loop COMPILE_PATTERNS (merged_compile req)
            (initial_signals req) with
    | inl r => r
    | inr sg' => after_compile (failed_join req) sg'
    end.
Proof. intros H. unfold analyze. now rewrite runtime_loop_first, H. Qed.

Ltac in_list := repeat first [left; reflexivity | right].

(** What steps 3) to 5) can return. *)
Lemma after_compile_cases fj sg :
  In (verdict (after_compile fj sg)) LATE_VERDICTS
  /\ language (after_compile fj sg) = "c"
  /\ (is_02 (verdict (after_compile fj sg)) = true ->
      (score_ratio sg <? 0.99)%float = false
      /\ verdict (after_compile fj sg) = ("c_no_hint_needed", "none", 0.2%float)).
Proof.
  unfold after_compile, failed_test_step, structural_step.
  destruct (PyStr.nonempty fj);
    repeat match goal with
      | |- context [if ?b then _ else _] => destruct b eqn:?
      end;
    (split; [unfold LATE_VERDICTS, verdict; simpl; in_list |]);
    (split; [reflexivity |]);
    intros H; try (vm_compute in H; discriminate H);
    split; reflexivity.
Qed.

(** What [analyze] can return, by the step that returns. *)
Lemma analyze_cases req :
  (exists r,
     first_match RUNTIME_PATTERNS (merged_runtime req) = Some r
     /\ In r RUNTIME_PATTERNS
     /\ verdict (analyze req) = rule_verdict r)
  \/ (first_match RUNTIME_PATTERNS (merged_runtime req) = None
      /\ exists r,
           In r COMPILE_PATTERNS /\ verdict (analyze req) = rule_verdict r)
  \/ (first_match RUNTIME_PATTERNS (merged_runtime req) = None
      /\ In (verdict (analyze req)) LATE_VERDICTS
      /\ (is_02 (verdict (analyze req)) = true ->
          (score_ratio (initial_signals req) <? 0.99)%float = false
          /\ verdict (analyze req) = ("c_no_hint_needed", "none", 0.2%float))).
Proof.
  destruct (first_match RUNTIME_PATTERNS (merged_runtime req)) as [r|] eqn:Er.
  - left. exists r. split; [reflexivity |].
    split; [now apply first_match_some in Er |].
    now rewrite (analyze_runtime _ Er).
  - right. rewrite (analyze_no_runtime _ Er), compile_loop_first.
    destruct (first_match COMPILE_PATTERNS (merged_compile req))
      as [c|] eqn:Ec.
    + cbv zeta.
      destruct (String.eqb (rule_cluster c) "c_warning_unused_variable"
                && (0.99 <=? score_ratio
                               (with_compile (initial_signals req)
                                  (rule_cluster c)))%float).
      * right. split; [reflexivity |].
        destruct (after_compile_cases (failed_join req)
                    (with_compile (initial_signals req) (rule_cluster c)))
          as (H1 & _ & H3).
        split; [exact H1 | exact H3].
      * left. split; [reflexivity |]. exists c.
        split; [now apply first_match_some in Ec | reflexivity].
    + right. split; [reflexivity |].
      destruct (after_compile_cases (failed_join req) (initial_signals req))
        as (H1 & _ & H3).
      split; [exact H1 | exact H3].
Qed.

Lemma analyze_language req : language (analyze req) = "c".
Proof.
  unfold analyze. rewrite runtime_loop_first, compile_loop_first.
  destruct (first_match RUNTIME_PATTERNS (merged_runtime req)); [reflexivity |].
  destruct (first_match COMPILE_PATTERNS (merged_compile req));
    [cbv zeta |]; repeat match goal with
      | |- context [if ?b then _ else _] => destruct b
      end;
    try reflexivity; apply after_compile_cases.
Qed.

Lemma analyze_verdict req : In (verdict (analyze req)) VERDICTS.
Proof.
  unfold VERDICTS.
  destruct (analyze_cases req) as [(r & _ & Hin & ->)|[(_ & r & Hin & ->)|(_ & H & _)]].
  - apply in_or_app. left. now apply in_map.
  - apply in_or_app. right. apply in_or_app. left. now apply in_map.
  - apply in_or_app. right. apply in_or_app. now right.
Qed.

(** C10. For every request the result of the analyzer has language "c" and
    a confidence out of the fixed priors of the rules: it lies in
    [0.2, 0.98], so strictly between 0 and 1; 0.2 comes only from the
    terminal rule (no rule fired and the score ratio is not below 0.99),
    and 0.98 only from a runtime pattern of hint type "memory". *)
Theorem confidence_is_a_prior (req : Schemas.HintRequest) :
  language (analyze req) = "c"
  /\ In (confidence (analyze req)) PRIORS
  /\ (0.2 <=? confidence (analyze req))%float = true
  /\ (confidence (analyze req) <=? 0.98)%float = true
  /\ (0 <? confidence (analyze req))%float = true
  /\ (confidence (analyze req) <? 1)%float = true
  /\ ((confidence (analyze req) =? 0.2)%float = true ->
      cluster_key (analyze req) = "c_no_hint_needed"
      /\ hint_type (analyze req) = "none"
      /\ first_match RUNTIME_PATTERNS (merged_runtime req) = None
      /\ (score_ratio (initial_signals req) <? 0.99)%float = false)
  /\ ((confidence (analyze req) =? 0.98)%float = true ->
      exists r,
        first_match RUNTIME_PATTERNS (merged_runtime req) = Some r
        /\ cluster_key (analyze req) = rule_cluster r
        /\ hint_type (analyze req) = "memory"
        /\ In (rule_cluster r) ["c_use_after_free"; "c_double_free"]).
Proof.
  pose proof (analyze_verdict req) as Hv.
  assert (Hr : prior_in_range (verdict (analyze req)) = true).
  { assert (A : forallb prior_in_range VERDICTS = true) by (vm_compute; reflexivity).
    rewrite forallb_forall in A. now apply A. }
  unfold prior_in_range in Hr. change (snd (verdict (analyze req)))
    with (confidence (analyze req)) in Hr.
  rewrite !andb_true_iff in Hr. destruct Hr as [[[R1 R2] R3] R4].
  split; [apply analyze_language |].
  split; [unfold PRIORS; change (confidence (analyze req))
            with (snd (verdict (analyze req))); now apply in_map |].
  do 4 (split; [assumption |]).
  split.
  - intros H.
    assert (A : forallb (fun r => negb (is_02 (rule_verdict r)))
                  (RUNTIME_PATTERNS ++ COMPILE_PATTERNS) = true)
      by (vm_compute; reflexivity).
    rewrite forallb_forall in A.
    destruct (analyze_cases req)
      as [(r & _ & Hin & E)|[(_ & r & Hin & E)|(Hn & _ & Ht)]].
    + specialize (A r (in_or_app _ _ _ (or_introl Hin))).
      rewrite <- E in A. unfold is_02 in A. simpl in A.
      rewrite H in A. discriminate.
    + specialize (A r (in_or_app _ _ _ (or_intror Hin))).
      rewrite <- E in A. unfold is_02 in A. simpl in A.
      rewrite H in A. discriminate.
    + destruct (Ht H) as [Hs E]. unfold verdict in E.
      injection E as E1 E2 _. auto.
  - intros H.
    assert (A : forallb (fun v => negb (is_098 v))
                  (map rule_verdict COMPILE_PATTERNS ++ LATE_VERDICTS) = true)
      by (vm_compute; reflexivity).
    rewrite forallb_forall in A.
    assert (B : forallb (fun r => implb (is_098 (rule_verdict r))
                                    (String.eqb (rule_hint_type r) "memory"
                                     && (String.eqb (rule_cluster r) "c_use_after_free"
                                         || String.eqb (rule_cluster r) "c_double_free")))
                  RUNTIME_PATTERNS = true)
      by (vm_compute; reflexivity).
    rewrite forallb_forall in B.
    destruct (analyze_cases req)
      as [(r & Er & Hin & E)|[(_ & r & Hin & E)|(_ & Hin & _)]].
    + exists r. specialize (B r Hin). rewrite <- E in B.
      unfold is_098 in B. simpl in B. rewrite H in B. simpl in B.
      apply andb_true_iff in B as [B1 B2].
      apply String.eqb_eq in B1.
      unfold verdict, rule_verdict in E. injection E as E1 E2 _.
      split; [exact Er |]. split; [assumption |].
      split; [congruence |].
      apply orb_true_iff in B2 as [B2 | B2]; apply String.eqb_eq in B2;
        rewrite B2; simpl; auto.
    + specialize (A (rule_verdict r)
                    (in_or_app _ _ _ (or_introl (in_map _ _ _ Hin)))).
      rewrite <- E in A. unfold is_098 in A. simpl in A.
      rewrite H in A. discriminate.
    + specialize (A _ (in_or_app _ _ _ (or_intror Hin))).
      unfold is_098 in A. simpl in A. rewrite H in A. discriminate.
Qed.

(** A runtime text that holds "heap-use-after-free" makes the merged,
    lower-cased text match the use-after-free pattern. *)
Lemma use_after_free_found (req : Schemas.HintRequest) :
  PyStr.contains "heap-use-after-free"
    (Schemas.runtime_error_text (Schemas.coderunner req)) = true ->
  search re_use_after_free (merged_runtime req) = true.
Proof.
  intros H. apply (@search_contains _ "use-after-free").
  - unfold re_use_after_free. cbn [alts]. apply MAltR, lit_self.
  - unfold merged_runtime.
    apply (@contains_suffix "heap-").
    change ("heap-" ++ "use-after-free")%string
      with (PyStr.lower "heap-use-after-free").
    apply contains_lower, contains_app_l, H.
Qed.

(** C1, as amended. Whatever the compile text holds, when the merged
    runtime text matches a runtime pattern the analyzer returns the cluster,
    hint type and confidence of the first runtime pattern, in the order of
    the table, that matches; so a runtime text that holds
    "heap-use-after-free" yields c_use_after_free with confidence 0.98 when
    the segmentation-fault pattern, which stands before it, does not
    match. *)
Theorem runtime_first_match_wins (req : Schemas.HintRequest) :
  (forall r0,
     In r0 RUNTIME_PATTERNS ->
     search (rule_pat r0) (merged_runtime req) = true ->
     exists r,
       first_match RUNTIME_PATTERNS (merged_runtime req) = Some r
       /\ In r RUNTIME_PATTERNS
       /\ search (rule_pat r) (merged_runtime req) = true
       /\ verdict (analyze req) = rule_verdict r
       /\ compile_patterns (signals (analyze req)) = [])
  /\ (PyStr.contains "heap-use-after-free"
        (Schemas.runtime_error_text (Schemas.coderunner req)) = true ->
      search re_segfault (merged_runtime req) = false ->
      verdict (analyze req) = ("c_use_after_free", "memory", 0.98%float)).
Proof.
  split.
  - intros r0 Hin Hs.
    destruct (first_match_exists _ _ _ Hin Hs) as [r Er]. exists r.
    destruct (first_match_some _ _ Er) as [Hr Hsr].
    rewrite (analyze_runtime _ Er). auto.
  - intros Hc Hseg. apply use_after_free_found in Hc.
    assert (E : first_match RUNTIME_PATTERNS (merged_runtime req)
                = Some (re_use_after_free, "c_use_after_free", "memory",
                        0.98%float)).
    { unfold first_match, RUNTIME_PATTERNS. cbn [find rule_pat fst].
      now rewrite Hseg, Hc. }
    now rewrite (analyze_runtime _ E).
Qed.

(** C1, tried on the request of the specification: a use-after-free at run
    time and an undeclared identifier at compile time. *)
Lemma runtime_first_match_wins_witness :
  PyStr.contains "undeclared"
    (Schemas.compile_error_text (Schemas.coderunner Scenarios.uaf_request))
  = true
  /\ search re_undeclared (merged_compile Scenarios.uaf_request) = true
  /\ verdict (analyze Scenarios.uaf_request)
     = ("c_use_after_free", "memory", 0.98%float).
Proof.
  split; [vm_compute; reflexivity |].
  split; [vm_compute; reflexivity |].
  apply (proj2 (runtime_first_match_wins Scenarios.uaf_request));
    vm_compute; reflexivity.
Defined.

(** C1 as it is stated fails: with a segmentation fault reported in the
    same runtime text, the text still holds "heap-use-after-free" and the
    compile text "undeclared", the use-after-free pattern matches, and the
    analyzer returns c_segfault with confidence 0.95. *)
Lemma use_after_free_text_classified_segfault :
  PyStr.contains "heap-use-after-free"
    (Schemas.runtime_error_text
       (Schemas.coderunner Scenarios.uaf_segv_request)) = true
  /\ PyStr.contains "undeclared"
       (Schemas.compile_error_text
          (Schemas.coderunner Scenarios.uaf_segv_request)) = true
  /\ search re_use_after_free (merged_runtime Scenarios.uaf_segv_request)
     = true
  /\ verdict (analyze Scenarios.uaf_segv_request)
     = ("c_segfault", "runtime_memory", 0.95%float)
  /\ cluster_key (analyze Scenarios.uaf_segv_request) <> "c_use_after_free".
Proof.
  repeat split; try (vm_compute; reflexivity).
  vm_compute. discriminate.
Qed.

Lemma no_match_of_forallb rows text :
  forallb (fun r => negb (search (rule_pat r) text)) rows = true ->
  first_match rows text = None.
Proof.
  unfold first_match. induction rows as [|r rows IH]; simpl.
  - reflexivity.
  - intros H. apply andb_true_iff in H as [H1 H2].
    apply negb_true_iff in H1. rewrite H1. auto.
Qed.

Lemma first_match_last rows w text :
  forallb (fun r => negb (search (rule_pat r) text)) rows = true ->
  search (rule_pat w) text = true ->
  first_match (rows ++ [w]) text = Some w.
Proof.
  unfold first_match. induction rows as [|r rows IH]; simpl.
  - intros _ H. now rewrite H.
  - intros H Hw. apply andb_true_iff in H as [H1 H2].
    apply negb_true_iff in H1. rewrite H1. auto.
Qed.

Lemma only_unused_warning_spec req :
  only_unused_warning req = true ->
  first_match RUNTIME_PATTERNS (merged_runtime req) = None
  /\ first_match COMPILE_PATTERNS (merged_compile req) = Some WARNING_RULE.
Proof.
  unfold only_unused_warning. rewrite !andb_true_iff.
  intros [[H1 H2] H3]. split.
  - now apply no_match_of_forallb.
  - change COMPILE_PATTERNS with (removelast COMPILE_PATTERNS ++ [WARNING_RULE]).
    now apply first_match_last.
Qed.

(** With only the unused-variable warning, the comparison of the score
    ratio with 0.99 decides. *)
Lemma warning_decision (req : Schemas.HintRequest) :
  only_unused_warning req = true ->
  let ratio :=
    _safe_ratio (Schemas.score (Schemas.coderunner req))
      (Schemas.max_score (Schemas.coderunner req)) in
  ((0.99 <=? ratio)%float = true ->
   analyze req
   = after_compile (failed_join req)
       (with_compile (initial_signals req) "c_warning_unused_variable")
   /\ cluster_key (analyze req) <> "c_warning_unused_variable"
   /\ In (verdict (analyze req)) LATE_VERDICTS)
  /\ ((0.99 <=? ratio)%float = false ->
      verdict (analyze req)
      = ("c_warning_unused_variable", "warning_unused", 0.55%float)).
Proof.
  intros H ratio. apply only_unused_warning_spec in H as [Hr Hc].
  rewrite (analyze_no_runtime _ Hr), compile_loop_first, Hc.
  unfold WARNING_RULE, rule_cluster, rule_hint_type, rule_conf.
  cbn [fst snd]. cbv zeta.
  change (score_ratio (with_compile (initial_signals req)
                         "c_warning_unused_variable")) with ratio.
  change ("c_warning_unused_variable" =? "c_warning_unused_variable")%string
    with true.
  cbn [andb].
  split; intros E; rewrite E.
  - split; [reflexivity |].
    destruct (after_compile_cases (failed_join req)
                (with_compile (initial_signals req)
                   "c_warning_unused_variable")) as (Hin & _ & _).
    split; [| exact Hin].
    unfold LATE_VERDICTS, verdict in Hin. simpl in Hin.
    intros C. rewrite C in Hin.
    repeat destruct Hin as [Hin | Hin]; try discriminate Hin.
    contradiction.
  - reflexivity.
Qed.

(** The score ratio against a threshold in (0, 1]: for a positive maximum
    and a quotient that is a number, clamping the quotient to [0, 1] does
    not change on which side of the threshold it lies. *)
Lemma safe_ratio_threshold (t score max_score : float) :
  (0 <? t)%float = true -> (t <=? 1)%float = true ->
  (0 <? max_score)%float = true ->
  PrimFloat.is_nan (score / max_score) = false ->
  (t <=? _safe_ratio score max_score)%float
  = (t <=? score / max_score)%float.
Proof.
  intros Ht0 Ht1 Hm Hq. unfold _safe_ratio, Py.truediv.
  assert (E0 : (max_score <=? 0)%float = false).
  { destruct (max_score <=? 0)%float eqn:E; [| reflexivity].
    apply FloatFacts.leb_ltb_false in E. congruence. }
  rewrite E0, (@FloatFacts.ltb_not_eqb _ _ Hm).
  unfold Py.fmax, Py.fmin.
  destruct (score / max_score <? 1)%float eqn:E1.
  - destruct (0 <? score / max_score)%float eqn:E2; [reflexivity |].
    assert (Hq0 : (score / max_score <=? 0)%float = true)
      by (apply FloatFacts.ltb_false_leb; [reflexivity | exact Hq | exact E2]).
    assert (Ht : (t <=? 0)%float = false).
    { destruct (t <=? 0)%float eqn:E; [| reflexivity].
      apply FloatFacts.leb_ltb_false in E. congruence. }
    rewrite Ht. symmetry.
    destruct (t <=? score / max_score)%float eqn:E; [| reflexivity].
    rewrite (@FloatFacts.leb_trans _ _ _ E Hq0) in Ht. discriminate Ht.
  - assert (One : (0 <? 1)%float = true) by reflexivity.
    rewrite One, Ht1. symmetry.
    apply FloatFacts.leb_trans with (y := 1%float); [exact Ht1 |].
    apply FloatFacts.ltb_false_leb; [exact Hq | reflexivity | exact E1].
Qed.

(** C5, as amended. When only the pattern of the unused-variable warning
    matches and max_score is positive (and score / max_score is a number),
    the analyzer leaves the warning and goes on with the cascade
    (failed-test cues, code structure, terminal rule) exactly when
    score / max_score is at least 0.99; below it, it returns
    c_warning_unused_variable with confidence 0.55.  When max_score is zero
    or negative the ratio is taken as 0 and the warning is returned,
    whatever score / max_score is.  In every case the decision is that of
    the ratio the analyzer computes. *)
Theorem unused_warning_skipped_from_099 (req : Schemas.HintRequest) :
  only_unused_warning req = true ->
  let score := Schemas.score (Schemas.coderunner req) in
  let max_score := Schemas.max_score (Schemas.coderunner req) in
  let skipped :=
    analyze req
    = after_compile (failed_join req)
        (with_compile (initial_signals req) "c_warning_unused_variable")
    /\ cluster_key (analyze req) <> "c_warning_unused_variable"
    /\ In (verdict (analyze req)) LATE_VERDICTS in
  let returned :=
    verdict (analyze req)
    = ("c_warning_unused_variable", "warning_unused", 0.55%float) in
  ((0 <? max_score)%float = true ->
   PrimFloat.is_nan (score / max_score) = false ->
   ((0.99 <=? score / max_score)%float = true -> skipped)
   /\ ((0.99 <=? score / max_score)%float = false -> returned))
  /\ ((max_score <=? 0)%float = true -> returned)
  /\ ((0.99 <=? _safe_ratio score max_score)%float = true -> skipped)
  /\ ((0.99 <=? _safe_ratio score max_score)%float = false -> returned).
Proof.
  intros H score max_score skipped returned.
  destruct (@warning_decision req H) as [Hskip Hret].
  fold score max_score in Hskip, Hret.
  split; [| split; [| split]].
  - intros Hm Hq.
    assert (E : (0.99 <=? _safe_ratio score max_score)%float
                = (0.99 <=? score / max_score)%float)
      by (apply safe_ratio_threshold; [reflexivity | reflexivity
                                       | exact Hm | exact Hq]).
    split; intros Hc; [apply Hskip | apply Hret]; now rewrite E.
  - intros Hm. apply Hret. unfold _safe_ratio. rewrite Hm. reflexivity.
  - exact Hskip.
  - exact Hret.
Qed.

(** C5 at the two ratios of the specification: 99 out of 100, which is the
    ratio 0.99 exactly, is skipped (nothing else speaks, so the terminal
    rule answers); 0.989999 out of 1 is not. *)
Lemma unused_warning_skipped_from_099_witness :
  ((99 / 100)%float = 0.99%float
   /\ cluster_key (analyze (Scenarios.unused_request_out_of 99 100))
      <> "c_warning_unused_variable"
   /\ cluster_key (analyze (Scenarios.unused_request_out_of 99 100))
      = "c_no_hint_needed")
  /\ ((0.99 <=? 0.989999 / 1)%float = false
      /\ verdict (analyze (Scenarios.unused_request 0.989999))
         = ("c_warning_unused_variable", "warning_unused", 0.55%float)).
Proof.
  split.
  - split; [vm_compute; reflexivity |].
    assert (H : only_unused_warning (Scenarios.unused_request_out_of 99 100)
                = true) by (vm_compute; reflexivity).
    destruct (@unused_warning_skipped_from_099 _ H) as [Hpos _].
    destruct Hpos as [Hskip _]; [vm_compute; reflexivity ..|].
    destruct Hskip as (E & Hne & _); [vm_compute; reflexivity |].
    split; [exact Hne |]. rewrite E. vm_compute. reflexivity.
  - split; [vm_compute; reflexivity |].
    assert (H : only_unused_warning (Scenarios.unused_request 0.989999)
                = true) by (vm_compute; reflexivity).
    destruct (@unused_warning_skipped_from_099 _ H) as [Hpos _].
    destruct Hpos as [_ Hret]; [vm_compute; reflexivity ..|].
    apply Hret. vm_compute. reflexivity.
Defined.

(** C5 as it is stated fails: with a score of -1 out of a maximum of -1
    only the unused-variable warning matches and score / max_score is 1.0,
    which is at least 0.99, yet the analyzer does not skip the warning: it
    returns c_warning_unused_variable with confidence 0.55, because a
    maximum that is not positive gives the ratio 0. *)
Lemma unused_warning_kept_at_negative_maximum :
  only_unused_warning (Scenarios.unused_request_out_of (-1) (-1)) = true
  /\ ((-1) / (-1))%float = 1%float
  /\ (0.99 <=? (-1) / (-1))%float = true
  /\ _safe_ratio (-1) (-1) = 0%float
  /\ verdict (analyze (Scenarios.unused_request_out_of (-1) (-1)))
     = ("c_warning_unused_variable", "warning_unused", 0.55%float).
Proof. repeat split; vm_compute; reflexivity. Qed.

End CAdapterFacts.

(** ** The engine *)

Module HintEngineFacts.
Import HintEngine FloatFacts.

Lemma text_at_nonempty c l t :
  text_at c l = Some t -> PyStr.nonempty t = true.
Proof.
  unfold text_at. destruct (dict_get (Py.str_of_int l) c) as [x|];
    [| discriminate].
  destruct (PyStr.nonempty x) eqn:E; [| discriminate].
  now intros [= <-].
Qed.

(** The downward search returns the text of the first level, from [n]
    down to 1, that has one. *)
Lemma search_down_spec c n :
  match search_down c n with
  | Some t =>
      exists l, 1 <= l <= Z.of_nat n /\ text_at c l = Some t
                /\ forall l', l < l' <= Z.of_nat n -> text_at c l' = None
  | None => forall l, 1 <= l <= Z.of_nat n -> text_at c l = None
  end.
Proof.
  induction n as [|n IH].
  - simpl. intros l Hl. lia.
  - change (search_down c (S n))
      with (match text_at c (Z.of_nat (S n)) with
            | Some txt => Some txt
            | None => search_down c n
            end).
    destruct (text_at c (Z.of_nat (S n))) as [t|] eqn:E.
    + exists (Z.of_nat (S n)). split; [lia |]. split; [exact E |].
      intros l' Hl'. lia.
    + destruct (search_down c n) as [t|].
      * destruct IH as (l & Hl & Ht & Hn). exists l.
        split; [lia |]. split; [exact Ht |].
        intros l' Hl'.
        destruct (Z.eq_dec l' (Z.of_nat (S n))) as [-> | Hne];
          [exact E | apply Hn; lia].
      * intros l Hl.
        destruct (Z.eq_dec l (Z.of_nat (S n))) as [-> | Hne];
          [exact E | apply IH; lia].
Qed.



Lemma fallback_nonempty : PyStr.nonempty FALLBACK_TEXT = true.
Proof. reflexivity. Qed.

Lemma levels_to_nat (level l : Z) :
  1 <= l <= Z.of_nat (Z.to_nat level) <-> 1 <= l <= level.
Proof. lia. Qed.


Lemma text_of_nonempty chosen level :
  PyStr.nonempty (text_of chosen level) = true.
Proof.
  destruct chosen as [[|kv c]|]; try reflexivity.
  unfold text_of.
  destruct (text_at (kv :: c) level) as [t|] eqn:E.
  - now apply text_at_nonempty in E.
  - pose proof (search_down_spec (kv :: c) (Z.to_nat level)) as S.
    destruct (search_down (kv :: c) (Z.to_nat level)) as [t|].
    + destruct S as (l & _ & Ht & _). now apply text_at_nonempty in Ht.
    + reflexivity.
Qed.



(** C7. When the entry resolved for the cluster has exactly one variant,
    the selection returns it in every world: whatever the random source
    would draw, and without drawing from it or reading the statistics. *)
Theorem single_variant_without_randomness (language cluster_key : string)
    (hint_level : Z) (catalog : Catalog) (v : string) (texts : Variant) :
  variants (entry_for_choice catalog cluster_key) = Some [(v, texts)] ->
  forall w : world,
    _choose_variant language cluster_key hint_level catalog w = (Return v, w).
Proof.
  intros H w. unfold _choose_variant, variant_names. rewrite H. reflexivity.
Qed.

(** C7 on a catalog with one variant, under a random source that would
    explore (draw 0.0) and under one that would not (draw 0.9). *)
Lemma single_variant_without_randomness_witness :
  let catalog := [ ("c_undeclared_identifier",
                    {| other_keys := false;
                       variants := Some [("solo", [("1", "Testo.")])] |}) ] in
  fst (_choose_variant "c" "c_undeclared_identifier" 1 catalog
         (Scenarios.world_of [] [] catalog (Scenarios.constant_rng 0 0)))
  = Return "solo"
  /\ fst (_choose_variant "c" "c_undeclared_identifier" 1 catalog
            (Scenarios.world_of [] [] catalog (Scenarios.constant_rng 0.9 1)))
     = Return "solo".
Proof.
  cbv zeta. split;
    rewrite (@single_variant_without_randomness "c" "c_undeclared_identifier"
               1 _ "solo" [("1", "Testo.")]); reflexivity.
Defined.

Section Requests.

Variable py_round : float -> Z -> float.
Variable sha256_hexdigest : string -> string.
Variable json_dumps : list string -> string.

(** C8. A request whose mode is not "training" is answered with
    enabled = false and leaves the world as it was: no call to the analyzer,
    to the database or to the random source is made, no attempt is inserted
    or changed, no counter moves. *)
Theorem exam_mode_touches_nothing (req : Schemas.HintRequest) (w : world) :
  Schemas.mode req <> "training" ->
  exists resp w',
    handle_hint py_round sha256_hexdigest json_dumps req w = (Return resp, w')
    /\ Schemas.enabled resp = false
    /\ w' = w
    /\ Db.attempts (db w') = Db.attempts (db w)
    /\ Db.hint_stats (db w') = Db.hint_stats (db w)
    /\ calls w' = calls w.
Proof.
  intros H. exists disabled_response, w.
  unfold handle_hint.
  apply String.eqb_neq in H. rewrite H. simpl. auto 6.
Qed.

End Requests.

(** C8 on an exam-mode request, in a world that holds a previous attempt of
    the same context and statistics. *)
Lemma exam_mode_touches_nothing_witness :
  let w := Scenarios.world_of [Scenarios.previous_attempt 1 4 10 1 "A"]
             Scenarios.stats_AB Scenarios.catalog_AB
             (Scenarios.constant_rng 0.5 0) in
  exists resp w',
    handle_hint Scenarios.round_id Scenarios.hash_id Scenarios.dumps_join
      (Scenarios.undeclared_request "exam" 7 10) w = (Return resp, w')
    /\ Schemas.enabled resp = false
    /\ w' = w
    /\ Db.attempts (db w') = Db.attempts (db w)
    /\ Db.hint_stats (db w') = Db.hint_stats (db w)
    /\ calls w' = calls w.
Proof.
  cbv zeta. apply exam_mode_touches_nothing. discriminate.
Defined.

(** *** The stable descending sort *)

Section Sorted.
Variable A : Type.
Variable key : A -> float.

Lemma insert_desc_head (x d : A) (s : list A) :
  nth 0 (insert_desc key x s) d
  = match s with
    | [] => x
    | y :: _ => if (key x <? key y)%float then y else x
    end.
Proof. destruct s as [|y s]; simpl; [| destruct (key x <? key y)%float]; reflexivity. Qed.

Lemma sorted_desc_nonempty (x : A) (l : list A) : sorted_desc key (x :: l) <> [].
Proof.
  unfold sorted_desc. simpl. destruct (fold_right (insert_desc key) [] l);
    simpl; [discriminate |].
  destruct (key x <? key a)%float; discriminate.
Qed.

(** The head of the stable descending sort is the first element, in the
    order of the list, whose key is the greatest. *)
Lemma sorted_desc_head (d : A) (l : list A) :
  l <> [] ->
  (forall x, In x l -> PrimFloat.is_nan (key x) = false) ->
  exists before v after,
    l = before ++ v :: after
    /\ nth 0 (sorted_desc key l) d = v
    /\ (forall u, In u l -> (key u <=? key v)%float = true)
    /\ (forall u, In u before -> (key u <? key v)%float = true).
Proof.
  induction l as [|x l IH]; [congruence |]. intros _ Hnan.
  assert (Nx : PrimFloat.is_nan (key x) = false) by (apply Hnan; now left).
  destruct l as [|y l].
  - exists [], x, []. repeat split.
    + intros u [<- | []]. now apply leb_refl.
    + intros u [].
  - destruct IH as (before & v & after & E & Hhd & Hmax & Hbef);
      [discriminate | intros u Hu; apply Hnan; now right |].
    change (sorted_desc key (x :: y :: l))
      with (insert_desc key x (sorted_desc key (y :: l))).
    rewrite insert_desc_head.
    destruct (sorted_desc key (y :: l)) as [|h s] eqn:Es;
      [now apply sorted_desc_nonempty in Es |].
    simpl in Hhd. subst h.
    assert (Nv : PrimFloat.is_nan (key v) = false).
    { apply Hnan. right. rewrite E. apply in_or_app. right. now left. }
    destruct (key x <? key v)%float eqn:Hlt.
    + exists (x :: before), v, after. rewrite E. repeat split.
      * intros u [<- | Hu]; [now apply ltb_true_leb | apply Hmax; now rewrite E].
      * intros u [<- | Hu]; [exact Hlt | now apply Hbef].
    + exists [], x, (y :: l). repeat split.
      * intros u [<- | Hu]; [now apply leb_refl |].
        apply (@leb_trans _ (key v)); [now apply Hmax |].
        now apply ltb_false_leb.
      * intros u [].
Qed.

End Sorted.

Lemma dict_get_set_same {V : Type} (k : string) (v : V) d :
  dict_get k (dict_set k v d) = Some v.
Proof.
  induction d as [|[k' v'] d IH]; simpl.
  - now rewrite String.eqb_refl.
  - destruct (String.eqb k' k) eqn:E; simpl.
    + now rewrite String.eqb_refl.
    + now rewrite E.
Qed.

Lemma dict_get_set_other {V : Type} (k k' : string) (v : V) d :
  k' <> k -> dict_get k' (dict_set k v d) = dict_get k' d.
Proof.
  intros Hne. induction d as [|[k0 v0] d IH]; simpl.
  - destruct (String.eqb_spec k k'); [congruence | reflexivity].
  - destruct (String.eqb_spec k0 k) as [-> | Hk]; simpl.
    + destruct (String.eqb_spec k k'); [congruence | reflexivity].
    + destruct (String.eqb_spec k0 k'); [reflexivity | exact IH].
Qed.

(** The loop leaves the score of a variant without a row as it was. *)
Lemma score_rows_other stats acc sc v :
  score_rows stats acc = Some sc ->
  ~ In v (map Db.HintStat.hint_variant stats) ->
  dict_get v sc = dict_get v acc.
Proof.
  revert acc. induction stats as [|row stats IH]; simpl; intros acc H Hn.
  - now injection H as <-.
  - destruct (variant_score row) as [s|]; [| discriminate].
    rewrite (IH _ H) by tauto.
    apply dict_get_set_other. intros ->. tauto.
Qed.

(** With one row per variant, the loop stores for each row its score. *)
Lemma score_rows_row stats acc sc row :
  score_rows stats acc = Some sc ->
  NoDup (map Db.HintStat.hint_variant stats) ->
  In row stats ->
  exists s, variant_score row = Some s
            /\ dict_get (Db.HintStat.hint_variant row) sc = Some s.
Proof.
  revert acc. induction stats as [|r stats IH]; simpl; intros acc H Hnd Hin.
  - contradiction.
  - inversion Hnd as [|? ? Hnotin Hnd']; subst.
    destruct (variant_score r) as [s|] eqn:Es; [| discriminate].
    destruct Hin as [<- | Hin].
    + exists s. split; [exact Es |].
      rewrite (@score_rows_other _ _ _ _ H Hnotin). apply dict_get_set_same.
    + now apply (IH _ H).
Qed.

Lemma filter_none {A : Type} (f : A -> bool) (l : list A) :
  (forall x, In x l -> f x = false) -> filter f l = [].
Proof.
  induction l as [|x l IH]; simpl; intros H; [reflexivity |].
  rewrite (H x) by now left. apply IH. intros y Hy. apply H. now right.
Qed.

(** C4. In the exploitation branch (more than one variant, no exploration
    draw, every variant has a row of statistics) the selection scores each
    variant by (improvements + 1) / (exposures + 2)
    + 0.05 * total_delta / max(1, exposures), in binary64 arithmetic, and
    returns the variant with the highest score; of several with that score
    it returns the first in the order of the catalog. *)
Theorem exploitation_returns_first_best (language cluster_key : string)
    (hint_level : Z) (catalog : Catalog) (w : world)
    (sc : list (string * float)) :
  let names := variant_names (entry_for_choice catalog cluster_key) in
  let stats := Db.get_hint_stats language cluster_key hint_level (db w) in
  List.length names <> 1%nat ->
  (draws (random w) (used (random w)) <? epsilon)%float = false ->
  NoDup (map Db.HintStat.hint_variant stats) ->
  (forall v, In v names -> In v (map Db.HintStat.hint_variant stats)) ->
  score_rows stats [] = Some sc ->
  (forall v, In v names -> PrimFloat.is_nan (score_of sc v) = false) ->
  (forall row, In row stats ->
     let e := Db.HintStat.exposures row in
     let i := Db.HintStat.improvements row in
     let d := Py.float_or (Db.HintStat.total_delta row) 0 in
     score_of sc (Db.HintStat.hint_variant row)
     = ((Py.float_of_int i + 1) / (Py.float_of_int e + 2)
        + 0.05 * d / (if (1 <? e)%Z then Py.float_of_int e else 1))%float)
  /\ exists before v after w',
       names = before ++ v :: after
       /\ _choose_variant language cluster_key hint_level catalog w
          = (Return v, w')
       /\ db w' = db w
       /\ (forall u, In u names ->
             (score_of sc u <=? score_of sc v)%float = true)
       /\ (forall u, In u before ->
             (score_of sc u <? score_of sc v)%float = true).
Proof.
  intros names stats Hlen Hdraw Hnd Hseen Hsc Hnan. split.
  - intros row Hin e i d.
    destruct (@score_rows_row _ _ _ _ Hsc Hnd Hin) as (s & Hs & Hget).
    unfold score_of. rewrite Hget.
    unfold variant_score, Py.truediv in Hs. fold e i d in Hs.
    destruct (Py.float_of_int e + 2 =? 0)%float; [discriminate |].
    now injection Hs as <-.
  - assert (Hne : names <> []).
    { unfold names, variant_names.
      destruct (variants (entry_for_choice catalog cluster_key)) as [[|? ?]|];
        discriminate. }
    destruct (@sorted_desc_head _ (score_of sc) "" names Hne Hnan)
      as (before & v & after & E & Hhd & Hmax & Hbef).
    exists before, v, after.
    unfold _choose_variant. fold names.
    apply Nat.eqb_neq in Hlen. rewrite Hlen.
    subst stats. destruct w as [d cache files g tr].
    cbn [random db] in *.
    cbv [bind random_random record read_rng write_rng next_rng ret
         get_hint_stats read_db random db calls catalog_cache catalog_files].
    rewrite Hdraw, Hsc.
    rewrite filter_none.
    + eexists. split; [exact E |]. split; [now rewrite Hhd |].
      split; [reflexivity |]. split; assumption.
    + intros u Hu. apply negb_false_iff. unfold dict_mem.
      apply Hseen, in_map_iff in Hu as (row & <- & Hrow).
      destruct (@score_rows_row _ _ _ _ Hsc Hnd Hrow) as (s & _ & ->).
      reflexivity.
Qed.

(** C4 on the statistics of the specification: A with 10 exposures,
    9 improvements and a total delta of 9, B with 10, 1 and 1, read from a
    table that lists B first; no exploration (the draw is 0.5) and no unseen
    variant: A is returned. *)
Lemma exploitation_returns_first_best_witness :
  fst (_choose_variant "c" "c_undeclared_identifier" 1 Scenarios.catalog_AB
         (Scenarios.world_of [] Scenarios.stats_AB Scenarios.catalog_AB
            (Scenarios.constant_rng 0.5 0)))
  = Return "A".
Proof.
  destruct (@exploitation_returns_first_best "c" "c_undeclared_identifier" 1
              Scenarios.catalog_AB
              (Scenarios.world_of [] Scenarios.stats_AB Scenarios.catalog_AB
                 (Scenarios.constant_rng 0.5 0))
              [("A", ((9 + 1) / (10 + 2) + 0.05 * 9 / 10)%float);
               ("B", ((1 + 1) / (10 + 2) + 0.05 * 1 / 10)%float)])
    as (_ & before & v & after & w' & E & Hrun & _ & _ & Hbef).
  - vm_compute. discriminate.
  - vm_compute. reflexivity.
  - vm_compute. repeat constructor; simpl; intuition discriminate.
  - intros v [<- | [<- | []]]; vm_compute; auto.
  - vm_compute. reflexivity.
  - intros v [<- | [<- | []]]; vm_compute; reflexivity.
  - rewrite Hrun. simpl. f_equal.
    change (variant_names
              (entry_for_choice Scenarios.catalog_AB "c_undeclared_identifier"))
      with ["A"; "B"] in E.
    destruct before as [|b before].
    + now injection E as <-.
    + injection E as <- E.
      assert (Hb : In "A" ("A" :: before)) by now left.
      apply Hbef in Hb.
      destruct before as [|b' before].
      * injection E as <- _. vm_compute in Hb. discriminate Hb.
      * injection E as _ E. destruct before; discriminate E.
Defined.

(** *** Runs of the monad *)

Lemma bind_inv {A B : Type} (m : M A) (k : A -> M B) w out w' :
  bind m k w = (out, w') ->
  (exists e, m w = (Raise e, w') /\ out = Raise e)
  \/ (exists a w1, m w = (Return a, w1) /\ k a w1 = (out, w')).
Proof.
  unfold bind. destruct (m w) as [[a | e] w1]; intros H.
  - right. eauto.
  - left. injection H as <- <-. eauto.
Qed.

Lemma bind_return {A B : Type} (m : M A) (k : A -> M B) w b w' :
  bind m k w = (Return b, w') ->
  exists a w1, m w = (Return a, w1) /\ k a w1 = (Return b, w').
Proof.
  intros H. apply bind_inv in H as [(e & _ & H) | H];
    [discriminate | exact H].
Qed.

Section Respects.

Variable R : world -> world -> Prop.
Variable ok : event -> bool.
Hypothesis R_refl : forall w, R w w.
Hypothesis R_trans : forall w1 w2 w3, R w1 w2 -> R w2 w3 -> R w1 w3.
Hypothesis R_record :
  forall e w, ok e = true -> R w (snd (record e w)).
Hypothesis R_cache : forall c w, R w (snd (write_cache c w)).
Hypothesis R_rng : forall g w, R w (snd (write_rng g w)).

Lemma respects_ret {A : Type} (a : A) : respects R (ret a).
Proof. intros w out w' [= _ <-]. apply R_refl. Qed.

Lemma respects_raise {A : Type} e : respects R (@raise A e).
Proof. intros w out w' [= _ <-]. apply R_refl. Qed.

Lemma respects_bind {A B : Type} (m : M A) (k : A -> M B) :
  respects R m -> (forall a, respects R (k a)) -> respects R (bind m k).
Proof.
  intros Hm Hk w out w' H.
  apply bind_inv in H as [(e & H & _) | (a & w1 & H1 & H2)].
  - now apply Hm in H.
  - apply Hm in H1. apply Hk in H2. now apply R_trans with w1.
Qed.

Lemma respects_record e : ok e = true -> respects R (record e).
Proof.
  intros He w out w' H.
  replace w' with (snd (record e w)) by now rewrite H.
  now apply R_record.
Qed.

Lemma respects_read_db {A : Type} (f : Db.database -> A) :
  respects R (read_db f).
Proof. intros w out w' [= _ <-]. apply R_refl. Qed.

Lemma respects_read_rng : respects R read_rng.
Proof. intros w out w' [= _ <-]. apply R_refl. Qed.

Lemma respects_write_rng g : respects R (write_rng g).
Proof.
  intros w out w' H. replace w' with (snd (write_rng g w)) by now rewrite H.
  apply R_rng.
Qed.

Lemma respects_write_cache c : respects R (write_cache c).
Proof.
  intros w out w' H. replace w' with (snd (write_cache c w)) by now rewrite H.
  apply R_cache.
Qed.

Hypothesis ok_reads :
  ok RandomRandom = true /\ ok RandomChoice = true
  /\ (forall l c h, ok (GetHintStats l c h) = true)
  /\ (forall s l q qq sl, ok (GetLastAttempt s l q qq sl) = true)
  /\ (forall l, ok (ReadCatalogFile l) = true).

Lemma respects_random_random : respects R random_random.
Proof.
  unfold random_random.
  apply respects_bind; [apply respects_record, ok_reads |]. intros _.
  apply respects_bind; [apply respects_read_rng |]. intros g.
  apply respects_bind; [apply respects_write_rng |]. intros _.
  apply respects_ret.
Qed.

Lemma respects_random_choice l : respects R (random_choice l).
Proof.
  unfold random_choice.
  apply respects_bind; [apply respects_record, ok_reads |]. intros _.
  apply respects_bind; [apply respects_read_rng |]. intros g.
  apply respects_bind; [apply respects_write_rng |]. intros _.
  apply respects_ret.
Qed.

Lemma respects_get_hint_stats l c h : respects R (get_hint_stats l c h).
Proof.
  unfold get_hint_stats.
  apply respects_bind; [apply respects_record, ok_reads |]. intros _.
  apply respects_read_db.
Qed.

Lemma respects_get_last s l q qq sl :
  respects R (get_last_attempt_for_context s l q qq sl).
Proof.
  unfold get_last_attempt_for_context.
  apply respects_bind; [apply respects_record, ok_reads |]. intros _.
  apply respects_read_db.
Qed.

Lemma respects_load_catalog l : respects R (_load_catalog l).
Proof.
  intros w out w'. unfold _load_catalog.
  destruct (dict_get l (catalog_cache w)) as [c|].
  - apply respects_ret.
  - apply respects_bind; [apply respects_record, ok_reads |]. intros _.
    destruct (catalog_files w l);
      (apply respects_bind; [apply respects_write_cache |]; intros _;
       apply respects_ret).
Qed.

Lemma respects_choose_variant l c h catalog :
  respects R (_choose_variant l c h catalog).
Proof.
  unfold _choose_variant.
  destruct (List.length _ =? 1)%nat; [apply respects_ret |].
  apply respects_bind; [apply respects_random_random |]. intros r.
  destruct (r <? epsilon)%float; [apply respects_random_choice |].
  apply respects_bind; [apply respects_get_hint_stats |]. intros stats.
  destruct (score_rows stats []); [| apply respects_raise].
  destruct (filter _ _); [apply respects_ret | apply respects_random_choice].
Qed.

End Respects.

Lemma same_attempts_refl w : same_attempts w w.
Proof. now split. Qed.

Lemma same_attempts_trans w1 w2 w3 :
  same_attempts w1 w2 -> same_attempts w2 w3 -> same_attempts w1 w3.
Proof. intros [A1 A2] [B1 B2]. split; congruence. Qed.

Lemma quietly_refl w : quietly w w.
Proof. exists []. now rewrite app_nil_r. Qed.

Lemma quietly_trans w1 w2 w3 :
  quietly w1 w2 -> quietly w2 w3 -> quietly w1 w3.
Proof.
  intros (e1 & E1 & Q1) (e2 & E2 & Q2). exists (e1 ++ e2).
  rewrite E2, E1, app_assoc, forallb_app, Q1, Q2. auto.
Qed.

Lemma quietly_record e w : quiet e = true -> quietly w (snd (record e w)).
Proof. intros H. exists [e]. simpl. now rewrite H. Qed.

Lemma quiet_reads :
  quiet RandomRandom = true /\ quiet RandomChoice = true
  /\ (forall l c h, quiet (GetHintStats l c h) = true)
  /\ (forall s l q qq sl, quiet (GetLastAttempt s l q qq sl) = true)
  /\ (forall l, quiet (ReadCatalogFile l) = true).
Proof. repeat split. Qed.

Ltac frame_attempts :=
  first [ exact same_attempts_refl | exact same_attempts_trans
        | (intros; split; reflexivity) | (repeat split) ].

Ltac frame_quietly :=
  first [ exact quietly_refl | exact quietly_trans | exact quietly_record
        | exact quiet_reads
        | (intros; exists []; split;
           [cbn; symmetry; apply app_nil_r | reflexivity]) ].

(** Choosing a variant and loading the catalog leave the attempts alone
    and make quiet calls only. *)
Lemma choose_variant_same_attempts l c h catalog :
  respects same_attempts (_choose_variant l c h catalog).
Proof.
  apply (@respects_choose_variant same_attempts (fun _ => true));
    frame_attempts.
Qed.

Lemma choose_variant_quietly l c h catalog :
  respects quietly (_choose_variant l c h catalog).
Proof.
  apply (@respects_choose_variant quietly quiet); frame_quietly.
Qed.

Lemma load_catalog_same_attempts l :
  respects same_attempts (_load_catalog l).
Proof.
  apply (@respects_load_catalog same_attempts (fun _ => true));
    frame_attempts.
Qed.

Lemma load_catalog_quietly l : respects quietly (_load_catalog l).
Proof.
  apply (@respects_load_catalog quietly quiet); frame_quietly.
Qed.

Lemma get_last_quietly s l q qq sl :
  respects quietly (get_last_attempt_for_context s l q qq sl).
Proof.
  apply (@respects_get_last quietly quiet); frame_quietly.
Qed.

(** What the calls to the database that write do. *)
Lemma update_attempt_improvement_run id improved delta w :
  exists w',
    update_attempt_improvement id improved delta w = (Return tt, w')
    /\ db w' = Db.update_attempt_improvement id improved delta (db w)
    /\ calls w' = calls w ++ [UpdateAttemptImprovement id improved delta].
Proof. destruct w. eexists. repeat split. Qed.

Lemma bump_hint_stats_run l c h v e i d w out w' :
  bump_hint_stats l c h v e i d w = (out, w') ->
  calls w' = calls w ++ [BumpHintStats l c h v e i d]
  /\ same_attempts w w'
  /\ match out with
     | Return _ =>
         Db.bump_hint_stats l c h v e i d (db w) = inr (db w')
     | Raise _ => db w' = db w
     end.
Proof.
  destruct w as [dd cache files g tr].
  unfold bump_hint_stats, bind, record, read_db, write_db, raise. cbn.
  destruct (Db.bump_hint_stats l c h v e i d dd) as [err | d'] eqn:E.
  - intros [= <- <-]. cbn. repeat split.
  - intros [= <- <-]. cbn. split; [reflexivity |].
    unfold Db.bump_hint_stats in E.
    destruct (PrimFloat.is_nan d); [discriminate |].
    destruct (Db.upsert l c h v e i d (Db.hint_stats dd)); [| discriminate].
    injection E as <-. repeat split.
Qed.

Lemma insert_attempt_run row w :
  exists new_id w',
    insert_attempt row w = (Return new_id, w')
    /\ calls w' = calls w ++ [InsertAttempt row]
    /\ Db.attempts (db w')
       = Db.attempts (db w) ++ [Db.stored new_id row]
    /\ Db.max_id (Db.attempts (db w)) < new_id.
Proof.
  destruct w as [dd cache files g tr]. do 2 eexists.
  unfold insert_attempt, bind, record, read_db, write_db, ret,
    Db.insert_attempt. cbn.
  repeat split. lia.
Qed.

(** *** Requests in training mode *)

Lemma occurs_before_app_quiet pre b i :
  forallb quiet pre = true ->
  is_exposure_bump b = true -> is_insert b = false ->
  is_insert i = true -> is_exposure_bump i = false ->
  occurs_before is_exposure_bump is_insert (pre ++ [b; i]) = true
  /\ occurs_before is_insert is_exposure_bump (pre ++ [b; i]) = false.
Proof.
  intros Hq Hb1 Hb2 Hi1 Hi2. induction pre as [|e pre IH]; simpl.
  - rewrite Hb1, Hb2, Hi1, Hi2. auto.
  - simpl in Hq. apply andb_true_iff in Hq as [He Hq].
    destruct (IH Hq) as [-> ->].
    unfold quiet in He. apply andb_true_iff in He as [He _].
    apply negb_true_iff in He. rewrite He, orb_true_r. auto.
Qed.

Section Feedback.

Variable py_round : float -> Z -> float.
Variable sha256_hexdigest : string -> string.
Variable json_dumps : list string -> string.

(** What the feedback on the previous hint does when there is one. *)
Lemma learn_run req (p : Db.Attempt.t) w out w' :
  has_hint p = true ->
  learn_from_previous py_round req (Some p) w = (out, w') ->
  let delta :=
    (Py.float_or (Schemas.score (Schemas.coderunner req)) 0
     - Py.real_or (Db.Attempt.score p) 0)%float in
  let improved := (1e-9 <? delta)%float in
  Db.attempts (db w')
  = Db.attempts
      (Db.update_attempt_improvement (Db.Attempt.id p) improved delta (db w))
  /\ Db.attempts_seq (db w') = Db.attempts_seq (db w)
  /\ quietly w w'
  /\ (forall li, out = Return li ->
        li = Some {| Schemas.previous_hint_improved_score := improved;
                     Schemas.previous_delta_score := py_round delta 4 |}).
Proof.
  intros Hh H delta improved. unfold learn_from_previous in H.
  rewrite Hh in H. fold delta improved in H.
  destruct (update_attempt_improvement_run (Db.Attempt.id p) improved delta w)
    as (w1 & E1 & D1 & C1).
  apply bind_inv in H as [(e & H & _) | (u & w1' & H1 & H)];
    [rewrite E1 in H; discriminate |].
  rewrite E1 in H1. injection H1 as _ <-.
  apply bind_inv in H as [(e & H & ->) | (u' & w2 & H2 & H)].
  - apply bump_hint_stats_run in H as (C2 & [A2 S2] & D2).
    rewrite D2, D1. repeat split; try reflexivity.
    + exists [UpdateAttemptImprovement (Db.Attempt.id p) improved delta;
              BumpHintStats (Db.Attempt.language p)
                (Py.str_or (Db.Attempt.cluster_key p) "unknown")
                (Py.int_or (Db.Attempt.hint_level p) 1)
                (Py.str_or (Db.Attempt.hint_variant p) "default")
                0 (if improved then 1 else 0) delta].
      rewrite C2, C1, <- app_assoc. split; reflexivity.
    + discriminate.
  - apply bump_hint_stats_run in H2 as (C2 & [A2 S2] & D2).
    injection H as <- <-.
    rewrite A2, S2, D1. repeat split; try reflexivity.
    + exists [UpdateAttemptImprovement (Db.Attempt.id p) improved delta;
              BumpHintStats (Db.Attempt.language p)
                (Py.str_or (Db.Attempt.cluster_key p) "unknown")
                (Py.int_or (Db.Attempt.hint_level p) 1)
                (Py.str_or (Db.Attempt.hint_variant p) "default")
                0 (if improved then 1 else 0) delta].
      rewrite C2, C1, <- app_assoc. split; reflexivity.
    + now intros li [= <-].
Qed.

Lemma learn_quietly req previous :
  respects quietly (learn_from_previous py_round req previous).
Proof.
  intros w out w' H. destruct previous as [p|].
  - destruct (has_hint p) eqn:Hh.
    + now apply (@learn_run req p w out w' Hh) in H.
    + unfold learn_from_previous in H. rewrite Hh in H.
      injection H as _ <-. apply quietly_refl.
  - injection H as _ <-. apply quietly_refl.
Qed.

(** The body of [handle_hint] for a training request in C, step by step. *)
Lemma handle_training req w :
  Schemas.mode req = "training" -> request_language req = "c" ->
  handle_hint py_round sha256_hexdigest json_dumps req w
  = bind (record (Analyze req)) (fun _ =>
    bind (get_last_attempt_for_context (Schemas.student_id req) "c"
            (Schemas.quiz_id req) (Schemas.question_id req)
            (Schemas.question_slot req)) (fun previous =>
    bind (learn_from_previous py_round req previous) (fun learning_info =>
    bind (_load_catalog "c") (fun catalog =>
    bind (_choose_variant "c" (CAdapter.cluster_key (CAdapter.analyze req))
            (_decide_level previous) catalog) (fun hint_variant =>
    bind (bump_hint_stats "c" (CAdapter.cluster_key (CAdapter.analyze req))
            (_decide_level previous) hint_variant 1 0 0) (fun _ =>
    bind (insert_attempt
            (new_attempt sha256_hexdigest json_dumps req "c"
               (CAdapter.analyze req) (_decide_level previous) hint_variant
               (_resolve_hint_text catalog
                  (CAdapter.cluster_key (CAdapter.analyze req))
                  (_decide_level previous) hint_variant))) (fun _ =>
    ret {| Schemas.enabled := true;
           Schemas.hint_level := _decide_level previous;
           Schemas.hint_type := CAdapter.hint_type (CAdapter.analyze req);
           Schemas.cluster_key :=
             CAdapter.cluster_key (CAdapter.analyze req);
           Schemas.hint_text :=
             _resolve_hint_text catalog
               (CAdapter.cluster_key (CAdapter.analyze req))
               (_decide_level previous) hint_variant;
           Schemas.confidence :=
             py_round (CAdapter.confidence (CAdapter.analyze req)) 3;
           Schemas.hint_variant := hint_variant;
           Schemas.learning := learning_info |}))))))) w.
Proof.
  intros Hm Hl. unfold handle_hint. rewrite Hm, Hl. reflexivity.
Qed.

(** C9, as amended. In every training request for C that is handled, the
    exposure of the selected (language, cluster, level, variant) is counted
    and then the new attempt is inserted: these are the last two calls of
    the request, in this order, and no attempt is inserted before. *)
Theorem exposure_counted_before_insert (req : Schemas.HintRequest)
    (w w' : world) (resp : Schemas.HintResponse) :
  Schemas.mode req = "training" -> request_language req = "c" ->
  handle_hint py_round sha256_hexdigest json_dumps req w = (Return resp, w') ->
  exists pre row,
    calls w'
    = calls w ++ pre
      ++ [ BumpHintStats "c" (Schemas.cluster_key resp)
             (Schemas.hint_level resp) (Schemas.hint_variant resp) 1 0 0;
           InsertAttempt row ]
    /\ forallb quiet pre = true
    /\ Db.NewAttempt.cluster_key row = Schemas.cluster_key resp
    /\ Db.NewAttempt.hint_level row = Schemas.hint_level resp
    /\ Db.NewAttempt.hint_variant row = Schemas.hint_variant resp
    /\ occurs_before is_exposure_bump is_insert
         (pre ++ [ BumpHintStats "c" (Schemas.cluster_key resp)
                     (Schemas.hint_level resp) (Schemas.hint_variant resp)
                     1 0 0;
                   InsertAttempt row ]) = true
    /\ occurs_before is_insert is_exposure_bump
         (pre ++ [ BumpHintStats "c" (Schemas.cluster_key resp)
                     (Schemas.hint_level resp) (Schemas.hint_variant resp)
                     1 0 0;
                   InsertAttempt row ]) = false.
Proof.
  intros Hm Hl H. rewrite (@handle_training req w Hm Hl) in H.
  apply bind_return in H as (u0 & w1 & H1 & H).
  apply bind_return in H as (previous & w2 & H2 & H).
  apply bind_return in H as (li & w3 & H3 & H).
  apply bind_return in H as (catalog & w4 & H4 & H).
  apply bind_return in H as (hv & w5 & H5 & H).
  apply bind_return in H as (u6 & w6 & H6 & H).
  apply bind_return in H as (nid & w7 & H7 & H).
  injection H as <- <-.
  assert (Q : quietly w w5).
  { apply quietly_trans with w1.
    { replace w1 with (snd (record (Analyze req) w)) by now rewrite H1.
      now apply quietly_record. }
    apply quietly_trans with w2; [now apply get_last_quietly in H2 |].
    apply quietly_trans with w3; [now apply learn_quietly in H3 |].
    apply quietly_trans with w4; [now apply load_catalog_quietly in H4 |].
    now apply choose_variant_quietly in H5. }
  destruct Q as (pre & C5 & Hq).
  apply bump_hint_stats_run in H6 as (C6 & _).
  destruct (insert_attempt_run
              (new_attempt sha256_hexdigest json_dumps req "c"
                 (CAdapter.analyze req) (_decide_level previous) hv
                 (_resolve_hint_text catalog
                    (CAdapter.cluster_key (CAdapter.analyze req))
                    (_decide_level previous) hv)) w6)
    as (nid' & w7' & E7 & C7 & _).
  rewrite E7 in H7. injection H7 as _ <-.
  eexists pre, _. cbn [Schemas.cluster_key Schemas.hint_level
                        Schemas.hint_variant].
  split; [rewrite C7, C6, C5, <- !app_assoc; reflexivity |].
  split; [exact Hq |].
  do 3 (split; [reflexivity |]).
  now apply occurs_before_app_quiet.
Qed.

Lemma last_by_id_In rows a : Db.last_by_id rows = Some a -> In a rows.
Proof.
  revert a. induction rows as [|b rows IH]; simpl; intros a H.
  - discriminate.
  - destruct (Db.last_by_id rows) as [c|].
    + destruct (Db.Attempt.id b <? Db.Attempt.id c); injection H as <-;
        auto.
    + injection H as <-. auto.
Qed.

Lemma get_last_In s l q qq sl d a :
  Db.get_last_attempt_for_context s l q qq sl d = Some a ->
  In a (Db.attempts d).
Proof.
  unfold Db.get_last_attempt_for_context. intros H.
  apply last_by_id_In, filter_In in H. tauto.
Qed.

Lemma max_id_ge rows a : In a rows -> Db.Attempt.id a <= Db.max_id rows.
Proof.
  induction rows as [|b rows IH]; simpl; intros H; [contradiction |].
  destruct H as [-> | H]; [lia | specialize (IH H); lia].
Qed.

(** The attempts after the rest of the request: those before it, and the
    new one when the request gets as far as the insertion. *)
Lemma rest_of_request (k : Catalog -> string -> Db.NewAttempt.t)
    (r : Catalog -> string -> Schemas.HintResponse) cluster level w out w' :
  bind (_load_catalog "c") (fun catalog =>
  bind (_choose_variant "c" cluster level catalog) (fun hint_variant =>
  bind (bump_hint_stats "c" cluster level hint_variant 1 0 0) (fun _ =>
  bind (insert_attempt (k catalog hint_variant)) (fun _ =>
  ret (r catalog hint_variant))))) w = (out, w') ->
  Db.attempts (db w') = Db.attempts (db w)
  \/ exists new_id row,
       Db.attempts (db w') = Db.attempts (db w) ++ [Db.stored new_id row]
       /\ Db.max_id (Db.attempts (db w)) < new_id.
Proof.
  intros H.
  apply bind_inv in H as [(e & H & _) | (catalog & w1 & H1 & H)].
  { apply load_catalog_same_attempts in H as [A _]. now left. }
  apply load_catalog_same_attempts in H1 as [A1 _].
  apply bind_inv in H as [(e & H & _) | (hv & w2 & H2 & H)].
  { apply choose_variant_same_attempts in H as [A _]. left. congruence. }
  apply choose_variant_same_attempts in H2 as [A2 _].
  apply bind_inv in H as [(e & H & _) | (u & w3 & H3 & H)].
  { apply bump_hint_stats_run in H as (_ & [A _] & _). left. congruence. }
  apply bump_hint_stats_run in H3 as (_ & [A3 _] & _).
  destruct (insert_attempt_run (k catalog hv) w3)
    as (nid & w4 & E4 & _ & A4 & Hid).
  apply bind_inv in H as [(e & H & _) | (u' & w4' & H4 & H)];
    [rewrite E4 in H; discriminate |].
  rewrite E4 in H4. injection H4 as _ <-. injection H as _ <-.
  right. exists nid, (k catalog hv).
  rewrite A4, A3, A2, A1. split; [reflexivity |].
  rewrite A3, A2, A1 in Hid. exact Hid.
Qed.

(** C2, as amended. When the previous attempt of the context carries a
    hint level and a hint variant, the request records on it
    improved = (delta > 1e-9) and delta_score = delta, for
    delta = current score - previous score in binary64 arithmetic; the
    response reports the same flag.  So improved is true exactly when delta
    exceeds the tolerance 1e-9, and equal finite scores give
    improved = false and delta_score = 0. *)
Theorem improved_iff_delta_above_tolerance (req : Schemas.HintRequest)
    (p : Db.Attempt.t) (w w' : world) (out : outcome Schemas.HintResponse) :
  Schemas.mode req = "training" -> request_language req = "c" ->
  Db.get_last_attempt_for_context (Schemas.student_id req) "c"
    (Schemas.quiz_id req) (Schemas.question_id req)
    (Schemas.question_slot req) (db w) = Some p ->
  has_hint p = true ->
  handle_hint py_round sha256_hexdigest json_dumps req w = (out, w') ->
  let delta :=
    (Py.float_or (Schemas.score (Schemas.coderunner req)) 0
     - Py.real_or (Db.Attempt.score p) 0)%float in
  let improved := (1e-9 <? delta)%float in
  (exists a, In a (Db.attempts (db w'))
             /\ Db.Attempt.id a = Db.Attempt.id p)
  /\ (forall a, In a (Db.attempts (db w')) ->
        Db.Attempt.id a = Db.Attempt.id p ->
        Db.Attempt.improved_vs_previous a = Some (if improved then 1 else 0)
        /\ Db.Attempt.delta_score a = Db.sql_real delta)
  /\ (forall resp, out = Return resp ->
        Schemas.learning resp
        = Some {| Schemas.previous_hint_improved_score := improved;
                  Schemas.previous_delta_score := py_round delta 4 |})
  /\ (forall x, Db.Attempt.score p = Some x ->
        Schemas.score (Schemas.coderunner req) = x ->
        PrimFloat.is_finite x = true ->
        improved = false /\ delta = 0%float
        /\ Db.sql_real delta = Some 0%float).
Proof.
  intros Hm Hl Hp Hh H delta improved.
  rewrite (@handle_training req w Hm Hl) in H.
  apply bind_inv in H as [(e & H & _) | ([] & w1 & H1 & H)];
    [destruct w; discriminate |].
  assert (D1 : db w1 = db w) by (destruct w; now injection H1 as <-).
  apply bind_inv in H as [(e & H & _) | (previous & w2 & H2 & H)];
    [destruct w1; discriminate |].
  assert (D2 : db w2 = db w /\ previous = Some p).
  { destruct w1 as [d1 c1 f1 g1 t1]. cbn in D1. subst d1.
    unfold get_last_attempt_for_context, bind, record, read_db in H2.
    cbn in H2. rewrite Hp in H2. injection H2 as <- <-. auto. }
  destruct D2 as [D2 ->].
  set (upd := Db.attempts
                (Db.update_attempt_improvement (Db.Attempt.id p) improved
                   delta (db w))).
  assert (P : (Db.attempts (db w') = upd
               \/ exists new_id row,
                    Db.attempts (db w') = upd ++ [Db.stored new_id row]
                    /\ Db.max_id upd < new_id)
              /\ forall resp, out = Return resp ->
                   Schemas.learning resp
                   = Some {| Schemas.previous_hint_improved_score := improved;
                             Schemas.previous_delta_score :=
                               py_round delta 4 |}).
  { apply bind_inv in H as [(e & H & ->) | (li & w3 & H3 & H)].
    - apply (@learn_run req p w2 _ w' Hh) in H as (A & _).
      fold delta improved in A. rewrite D2 in A.
      split; [now left | discriminate].
    - apply (@learn_run req p w2 _ w3 Hh) in H3 as (A & _ & _ & L).
      fold delta improved in A, L. rewrite D2 in A. fold upd in A.
      specialize (L li eq_refl). subst li.
      split.
      + rewrite <- A.
        apply (@rest_of_request
                 (fun catalog hv =>
                    new_attempt sha256_hexdigest json_dumps req "c"
                      (CAdapter.analyze req) (_decide_level (Some p)) hv
                      (_resolve_hint_text catalog
                         (CAdapter.cluster_key (CAdapter.analyze req))
                         (_decide_level (Some p)) hv))
                 _ _ _ _ _ _ H).
      + intros resp ->.
        apply bind_return in H as (c & w4 & _ & H).
        apply bind_return in H as (hv & w5 & _ & H).
        apply bind_return in H as (u & w6 & _ & H).
        apply bind_return in H as (n & w7 & _ & H).
        now injection H as <- _. }
  destruct P as [P L].
  assert (Hin : In p (Db.attempts (db w))) by now apply get_last_In in Hp.
  assert (Hupd : forall a, In a upd <->
            exists a0, In a0 (Db.attempts (db w))
              /\ a = (if Db.Attempt.id a0 =? Db.Attempt.id p
                      then Db.set_improvement improved delta a0 else a0)).
  { intros a. unfold upd, Db.update_attempt_improvement. cbn.
    rewrite in_map_iff. split; intros (a0 & X & Y); exists a0; auto. }
  assert (Hp' : In (Db.set_improvement improved delta p) upd).
  { apply Hupd. exists p. now rewrite Z.eqb_refl. }
  assert (Hfields : forall a, In a upd ->
            Db.Attempt.id a = Db.Attempt.id p ->
            Db.Attempt.improved_vs_previous a
            = Some (if improved then 1 else 0)
            /\ Db.Attempt.delta_score a = Db.sql_real delta).
  { intros a Ha Hid. apply Hupd in Ha as (a0 & _ & ->).
    destruct (Z.eqb_spec (Db.Attempt.id a0) (Db.Attempt.id p)).
    - split; reflexivity.
    - contradiction. }
  split.
  { exists (Db.set_improvement improved delta p). split; [| reflexivity].
    destruct P as [-> | (nid & row & -> & _)];
      [exact Hp' | apply in_or_app; now left]. }
  split.
  { intros a Ha Hid.
    destruct P as [E | (nid & row & E & Hnid)]; rewrite E in Ha.
    - now apply Hfields.
    - apply in_app_or in Ha as [Ha | [<- | []]]; [now apply Hfields |].
      pose proof (@max_id_ge _ _ Hp') as G.
      change (Db.Attempt.id (Db.set_improvement improved delta p))
        with (Db.Attempt.id p) in G.
      change (Db.Attempt.id (Db.stored nid row)) with nid in Hid. lia. }
  split; [exact L |].
  intros x Hx Hs Hfin.
  assert (E : delta = 0%float).
  { unfold delta, Py.real_or. rewrite Hx, Hs. apply FloatFacts.sub_diag.
    unfold Py.float_or. destruct (x =? 0)%float; [reflexivity | exact Hfin]. }
  unfold improved. rewrite E. repeat split.
Qed.

End Feedback.

(** C2 on the second request of a context: the previous attempt (id 1)
    scored 4 out of 10 with a hint of level 1 and variant A; a new score of
    7 records improved = 1 and delta_score = 3, a new score of 4 records
    improved = 0 and delta_score = 0. *)
Lemma improved_iff_delta_above_tolerance_witness :
  let w := Scenarios.world_of [Scenarios.previous_attempt 1 4 10 1 "A"]
             Scenarios.stats_AB Scenarios.catalog_AB
             (Scenarios.constant_rng 0.5 0) in
  let run score :=
    handle_hint Scenarios.round_id Scenarios.hash_id Scenarios.dumps_join
      (Scenarios.undeclared_request "training" score 10) w in
  (forall a, In a (Db.attempts (db (snd (run 7%float)))) ->
     Db.Attempt.id a = 1 ->
     Db.Attempt.improved_vs_previous a = Some 1
     /\ Db.Attempt.delta_score a = Some 3%float)
  /\ (forall a, In a (Db.attempts (db (snd (run 4%float)))) ->
        Db.Attempt.id a = 1 ->
        Db.Attempt.improved_vs_previous a = Some 0
        /\ Db.Attempt.delta_score a = Some 0%float).
Proof.
  cbv zeta. split; intros a Ha Hid.
  - destruct (@improved_iff_delta_above_tolerance Scenarios.round_id
                Scenarios.hash_id Scenarios.dumps_join
                (Scenarios.undeclared_request "training" 7 10)
                (Scenarios.previous_attempt 1 4 10 1 "A")
                (Scenarios.world_of [Scenarios.previous_attempt 1 4 10 1 "A"]
                   Scenarios.stats_AB Scenarios.catalog_AB
                   (Scenarios.constant_rng 0.5 0))
                _ _ eq_refl eq_refl eq_refl eq_refl
                (surjective_pairing _)) as (_ & H & _).
    exact (H a Ha Hid).
  - destruct (@improved_iff_delta_above_tolerance Scenarios.round_id
                Scenarios.hash_id Scenarios.dumps_join
                (Scenarios.undeclared_request "training" 4 10)
                (Scenarios.previous_attempt 1 4 10 1 "A")
                (Scenarios.world_of [Scenarios.previous_attempt 1 4 10 1 "A"]
                   Scenarios.stats_AB Scenarios.catalog_AB
                   (Scenarios.constant_rng 0.5 0))
                _ _ eq_refl eq_refl eq_refl eq_refl
                (surjective_pairing _)) as (_ & H & _).
    exact (H a Ha Hid).
Defined.

(** C2 as it is stated fails: with a previous score of 4 and a new score of
    4.0000000005 the request is handled (the new attempt, id 2, is stored),
    the delta_score recorded on the previous attempt is strictly greater
    than 0, and the improved flag recorded on it is 0. *)
Lemma positive_delta_recorded_not_improved :
  let run :=
    handle_hint Scenarios.round_id Scenarios.hash_id Scenarios.dumps_join
      (Scenarios.undeclared_request "training" 4.0000000005 10)
      (Scenarios.world_of [Scenarios.previous_attempt 1 4 10 1 "A"]
         Scenarios.stats_AB Scenarios.catalog_AB
         (Scenarios.constant_rng 0.5 0)) in
  recorded_feedback (snd run)
  = [ (1, Some 0, Some 5.000000413701855e-10%float); (2, None, None) ]
  /\ (0 <? 5.000000413701855e-10)%float = true
  /\ (1e-9 <? 5.000000413701855e-10)%float = false.
Proof.
  cbv zeta. repeat split; vm_compute; reflexivity.
Qed.

(** C9 on the second request of a context: the previous attempt scored 4
    out of 10 at level 1 with variant A, the new one scores 7. *)
Lemma exposure_counted_before_insert_witness :
  let w := Scenarios.world_of [Scenarios.previous_attempt 1 4 10 1 "A"]
             Scenarios.stats_AB Scenarios.catalog_AB
             (Scenarios.constant_rng 0.5 0) in
  exists resp w' pre row,
    handle_hint Scenarios.round_id Scenarios.hash_id Scenarios.dumps_join
      (Scenarios.undeclared_request "training" 7 10) w = (Return resp, w')
    /\ calls w'
       = calls w ++ pre
         ++ [ BumpHintStats "c" (Schemas.cluster_key resp)
                (Schemas.hint_level resp) (Schemas.hint_variant resp) 1 0 0;
              InsertAttempt row ]
    /\ forallb quiet pre = true
    /\ Schemas.hint_level resp = 2.
Proof.
  cbv zeta.
  destruct (handle_hint Scenarios.round_id Scenarios.hash_id
              Scenarios.dumps_join
              (Scenarios.undeclared_request "training" 7 10)
              (Scenarios.world_of [Scenarios.previous_attempt 1 4 10 1 "A"]
                 Scenarios.stats_AB Scenarios.catalog_AB
                 (Scenarios.constant_rng 0.5 0)))
    as [[resp | e] w'] eqn:E.
  - destruct (@exposure_counted_before_insert Scenarios.round_id
                Scenarios.hash_id Scenarios.dumps_join
                (Scenarios.undeclared_request "training" 7 10) _ _ _
                eq_refl eq_refl E) as (pre & row & C & Q & _).
    exists resp, w', pre, row. repeat split; try assumption.
    vm_compute in E. now injection E as <- _.
  - vm_compute in E. discriminate E.
Defined.

(** C9 as it is stated fails: in the same request, which is handled, an
    attempt is inserted and an exposure is counted, and the insertion does
    not come before the count. *)
Lemma insert_not_before_exposure_count :
  let run :=
    handle_hint Scenarios.round_id Scenarios.hash_id Scenarios.dumps_join
      (Scenarios.undeclared_request "training" 7 10)
      (Scenarios.world_of [Scenarios.previous_attempt 1 4 10 1 "A"]
         Scenarios.stats_AB Scenarios.catalog_AB
         (Scenarios.constant_rng 0.5 0)) in
  (exists resp, fst run = Return resp /\ Schemas.enabled resp = true)
  /\ existsb is_insert (calls (snd run)) = true
  /\ existsb is_exposure_bump (calls (snd run)) = true
  /\ occurs_before is_insert is_exposure_bump (calls (snd run)) = false
  /\ occurs_before is_exposure_bump is_insert (calls (snd run)) = true.
Proof.
  cbv zeta. split.
  - eexists. split; [vm_compute; reflexivity | reflexivity].
  - repeat split; vm_compute; reflexivity.
Qed.

End HintEngineFacts.

(** ** More on the analyzer *)

Module AnalyzerFacts.
Import Regex CAdapter AnalyzerTerms FloatFacts.

Lemma div_nan_r x y : PrimFloat.is_nan y = true -> PrimFloat.is_nan (x / y) = true.
Proof.
  rewrite !is_nan_spec, div_spec. intros H.
  destruct (Prim2SF y); try discriminate. now destruct (Prim2SF x).
Qed.

Lemma div_nan_l x y : PrimFloat.is_nan x = true -> PrimFloat.is_nan (x / y) = true.
Proof.
  rewrite !is_nan_spec, div_spec. intros H.
  destruct (Prim2SF x); try discriminate. reflexivity.
Qed.

Lemma nan_ltb_l x y : PrimFloat.is_nan x = true -> (x <? y)%float = false.
Proof.
  rewrite is_nan_spec, ltb_spec. intros H.
  destruct (Prim2SF x); try discriminate. reflexivity.
Qed.

Lemma nan_leb_l x y : PrimFloat.is_nan x = true -> (x <=? y)%float = false.
Proof.
  rewrite is_nan_spec, leb_spec. intros H.
  destruct (Prim2SF x); try discriminate. reflexivity.
Qed.

Lemma nan_eqb_l x y : PrimFloat.is_nan x = true -> (x =? y)%float = false.
Proof.
  rewrite is_nan_spec, eqb_spec. intros H.
  destruct (Prim2SF x); try discriminate. reflexivity.
Qed.

Lemma eqb_leb x y : (x =? y)%float = true -> (x <=? y)%float = true.
Proof.
  rewrite eqb_spec, leb_spec. unfold SFeqb, SFleb.
  now destruct (SFcompare (Prim2SF x) (Prim2SF y)) as [[]|].
Qed.

(** X1. The score ratio lies in [0, 1] whatever the two scores are: 0 when
    the maximum is not positive, 1 when the quotient is a NaN. *)
Theorem safe_ratio_in_unit_interval (score max_score : float) :
  (0 <=? _safe_ratio score max_score)%float = true
  /\ (_safe_ratio score max_score <=? 1)%float = true
  /\ ((max_score <=? 0)%float = true -> _safe_ratio score max_score = 0%float)
  /\ (PrimFloat.is_nan max_score = true ->
      _safe_ratio score max_score = 1%float)
  /\ ((max_score <=? 0)%float = false -> PrimFloat.is_nan score = true ->
      _safe_ratio score max_score = 1%float).
Proof.
  unfold _safe_ratio, Py.truediv, Py.fmax, Py.fmin.
  repeat split.
  - destruct (max_score <=? 0)%float; [reflexivity|].
    destruct (max_score =? 0)%float; [reflexivity|].
    destruct (score / max_score <? 1)%float eqn:E1.
    + destruct (0 <? score / max_score)%float eqn:E0.
      * now apply ltb_true_leb.
      * reflexivity.
    + reflexivity.
  - destruct (max_score <=? 0)%float; [reflexivity|].
    destruct (max_score =? 0)%float; [reflexivity|].
    destruct (score / max_score <? 1)%float eqn:E1.
    + destruct (0 <? score / max_score)%float eqn:E0.
      * now apply ltb_true_leb.
      * reflexivity.
    + reflexivity.
  - now intros ->.
  - intros H. rewrite (@nan_leb_l _ 0 H), (@nan_eqb_l _ 0 H).
    now rewrite (@nan_ltb_l _ 1 (@div_nan_r score _ H)).
  - intros E0 H. rewrite E0.
    destruct (max_score =? 0)%float eqn:E.
    + apply eqb_leb in E. congruence.
    + now rewrite (@nan_ltb_l _ 1 (@div_nan_l _ max_score H)).
Qed.

(** *** The steps of [analyze] *)

Lemma analyze_steps req :
  analyze req
  = match first_match RUNTIME_PATTERNS (merged_runtime req) with
    | Some r =>
        result (rule_cluster r) (rule_hint_type r) (rule_conf r)
          (with_runtime (initial_signals req) (rule_cluster r))
    | None =>
        match first_match COMPILE_PATTERNS (merged_compile req) with
        | Some r =>
            let sg' := with_compile (initial_signals req) (rule_cluster r) in
            if String.eqb (rule_cluster r) "c_warning_unused_variable"
               && (0.99 <=? score_ratio sg')%float
            then after_compile (failed_join req) sg'
            else result (rule_cluster r) (rule_hint_type r) (rule_conf r) sg'
        | None => after_compile (failed_join req) (initial_signals req)
        end
    end.
Proof.
  unfold analyze.
  rewrite CAdapterFacts.runtime_loop_first, CAdapterFacts.compile_loop_first.
  destruct (first_match RUNTIME_PATTERNS (merged_runtime req)); [reflexivity|].
  destruct (first_match COMPILE_PATTERNS (merged_compile req)) as [r|];
    [|reflexivity].
  cbv zeta.
  now destruct (String.eqb (rule_cluster r) "c_warning_unused_variable"
                && (0.99 <=? score_ratio
                      (with_compile (initial_signals req) (rule_cluster r)))%float).
Qed.

(** Steps 3) to 5) keep the signals but for one cue at most. *)
Lemma after_compile_signals fj sg :
  let a := after_compile fj sg in
  compile_patterns (signals a) = compile_patterns sg
  /\ runtime_patterns (signals a) = runtime_patterns sg
  /\ code_features (signals a) = code_features sg
  /\ score_ratio (signals a) = score_ratio sg
  /\ (failed_test_cues (signals a) = failed_test_cues sg
      \/ exists cue, failed_test_cues (signals a) = failed_test_cues sg ++ [cue]).
Proof.
  unfold after_compile, failed_test_step, structural_step.
  repeat match goal with
         | |- context [if ?b then _ else _] => destruct b
         end; cbn; repeat split; eauto.
Qed.

(** X2. The signals of a result: the score ratio and the code features are
    those of the request; the list of runtime patterns holds the cluster
    returned, or nothing; the list of compile patterns holds the cluster
    returned, or the unused-variable warning that was passed over at a ratio
    of 0.99 or more, or nothing; at most one cue is listed. *)
Theorem signals_record_the_verdict (req : Schemas.HintRequest) :
  let a := analyze req in
  let cr := Schemas.coderunner req in
  score_ratio (signals a)
  = _safe_ratio (Schemas.score cr) (Schemas.max_score cr)
  /\ code_features (signals a)
     = _extract_code_features (Schemas.source_code req)
  /\ (runtime_patterns (signals a) = []
      \/ (runtime_patterns (signals a) = [cluster_key a]
          /\ compile_patterns (signals a) = []
          /\ failed_test_cues (signals a) = []))
  /\ (compile_patterns (signals a) = []
      \/ (compile_patterns (signals a) = [cluster_key a]
          /\ failed_test_cues (signals a) = [])
      \/ (compile_patterns (signals a) = ["c_warning_unused_variable"]
          /\ (0.99 <=? score_ratio (signals a))%float = true
          /\ cluster_key a <> "c_warning_unused_variable"))
  /\ (List.length (failed_test_cues (signals a)) <= 1)%nat.
Proof.
  cbv zeta. rewrite analyze_steps.
  destruct (first_match RUNTIME_PATTERNS (merged_runtime req)) as [r|].
  { cbn. repeat split; auto. }
  destruct (first_match COMPILE_PATTERNS (merged_compile req)) as [r|].
  - cbv zeta.
    destruct (String.eqb (rule_cluster r) "c_warning_unused_variable") eqn:Ec;
      cbn [andb].
    + apply String.eqb_eq in Ec. rewrite Ec.
      destruct (0.99 <=? score_ratio
                  (with_compile (initial_signals req)
                     "c_warning_unused_variable"))%float eqn:Er.
      * pose proof (after_compile_signals (failed_join req)
                      (with_compile (initial_signals req)
                         "c_warning_unused_variable"))
          as (Hc & Hr & Hf & Hs & Hq).
        pose proof (CAdapterFacts.after_compile_cases (failed_join req)
                      (with_compile (initial_signals req)
                         "c_warning_unused_variable"))
          as (Hv & _).
        rewrite Hc, Hr, Hf, Hs. cbn.
        repeat split; auto.
        -- right; right. repeat split; [exact Er|].
           intros E. unfold verdict in Hv. rewrite E in Hv.
           cbn in Hv. intuition discriminate.
        -- destruct Hq as [-> | (cue & ->)]; cbn; lia.
      * cbn. repeat split; auto.
    + cbn. repeat split; auto.
  - pose proof (after_compile_signals (failed_join req) (initial_signals req))
      as (Hc & Hr & Hf & Hs & Hq).
    rewrite Hc, Hr, Hf, Hs. cbn. repeat split; auto.
    destruct Hq as [-> | (cue & ->)]; cbn; lia.
Qed.


(** *** Cues in the names of the failed tests *)

Lemma contains_app_r (p t u : string) :
  PyStr.contains p u = true -> PyStr.contains p (t ++ u) = true.
Proof.
  intros H. induction t as [|c t IH]; [exact H|].
  cbn [append PyStr.contains]. rewrite IH. apply orb_true_r.
Qed.

Lemma contains_join (p sep t : string) (l : list string) :
  In t l -> PyStr.contains p t = true ->
  PyStr.contains p (PyStr.join sep l) = true.
Proof.
  intros Hin Hp. induction l as [|x l IH]; [contradiction|].
  destruct l as [|y l].
  - destruct Hin as [-> | []]. exact Hp.
  - change (PyStr.join sep (x :: y :: l))
      with (x ++ sep ++ PyStr.join sep (y :: l))%string.
    destruct Hin as [-> | Hin].
    + now apply CAdapterFacts.contains_app_l.
    + apply contains_app_r, contains_app_r. now apply IH.
Qed.

Lemma lower_join (l : list string) :
  PyStr.lower (PyStr.join PyStr.newline l)
  = PyStr.join PyStr.newline (map PyStr.lower l).
Proof.
  induction l as [|x l IH]; [reflexivity|].
  destruct l as [|y l]; [reflexivity|].
  change (PyStr.join PyStr.newline (x :: y :: l))
    with (x ++ PyStr.newline ++ PyStr.join PyStr.newline (y :: l))%string.
  rewrite !PyStrFacts.lower_app, IH. reflexivity.
Qed.

(** A keyword in the lower-cased name of one failed test is a keyword in
    the text that step 3) reads. *)
Lemma cue_in_failed_join (req : Schemas.HintRequest) (ks : list string)
    (t : string) :
  In t (Schemas.failed_tests (Schemas.coderunner req)) ->
  PyStr.any_in ks (PyStr.lower t) = true ->
  PyStr.any_in ks (failed_join req) = true.
Proof.
  unfold PyStr.any_in. intros Hin H.
  apply existsb_exists in H as (k & Hk & Hc).
  apply existsb_exists. exists k. split; [exact Hk|].
  unfold failed_join. rewrite lower_join.
  apply contains_join with (t := PyStr.lower t); [|exact Hc].
  now apply in_map.
Qed.

Lemma analyze_no_pattern req :
  no_pattern req ->
  analyze req = after_compile (failed_join req) (initial_signals req).
Proof. intros [H1 H2]. now rewrite analyze_steps, H1, H2. Qed.

(** X3. When no pattern of the two tables matches, the names of the failed
    tests decide, read in lower case and in a fixed order of the keyword
    lists: a test named with a keyword of the empty-input list gives
    c_logic_edge_case_empty whatever else the names hold; then the
    single-element list, the output-format list and the bounds list; with
    no keyword at all the result comes from steps 4) and 5). *)
Theorem failed_test_cues_by_priority (req : Schemas.HintRequest) :
  no_pattern req ->
  let tests := Schemas.failed_tests (Schemas.coderunner req) in
  let named ks :=
    exists t, In t tests /\ PyStr.any_in ks (PyStr.lower t) = true in
  let absent ks := PyStr.any_in ks (failed_join req) = false in
  (named EMPTY_CUES ->
   verdict (analyze req)
   = ("c_logic_edge_case_empty", "edge_case", 0.8%float))
  /\ (absent EMPTY_CUES -> named SINGLE_CUES ->
      verdict (analyze req)
      = ("c_logic_edge_case_single", "edge_case", 0.76%float))
  /\ (absent EMPTY_CUES -> absent SINGLE_CUES -> named FORMAT_CUES ->
      verdict (analyze req)
      = ("c_output_format", "output_format", 0.75%float))
  /\ (absent EMPTY_CUES -> absent SINGLE_CUES -> absent FORMAT_CUES ->
      named BOUNDS_CUES ->
      verdict (analyze req)
      = ("c_logic_bounds_off_by_one", "bounds", 0.79%float))
  /\ (absent EMPTY_CUES -> absent SINGLE_CUES -> absent FORMAT_CUES ->
      absent BOUNDS_CUES ->
      analyze req = structural_step (initial_signals req)).
Proof.
  intros Hno tests named absent. rewrite (analyze_no_pattern Hno).
  unfold after_compile, failed_test_step.
  fold EMPTY_CUES SINGLE_CUES FORMAT_CUES BOUNDS_CUES.
  assert (Hne : forall ks, PyStr.any_in ks "" = true -> In "" ks).
  { intros ks H. apply existsb_exists in H as (k & Hk & Hc).
    destruct k; [exact Hk | discriminate]. }
  assert (Hfj : forall ks, ~ In "" ks -> PyStr.any_in ks (failed_join req) = true ->
                PyStr.nonempty (failed_join req) = true).
  { intros ks Hks H. destruct (failed_join req); [|reflexivity].
    now apply Hne in H. }
  assert (H1 : ~ In "" EMPTY_CUES) by (cbn; intuition discriminate).
  assert (H2 : ~ In "" SINGLE_CUES) by (cbn; intuition discriminate).
  assert (H3 : ~ In "" FORMAT_CUES) by (cbn; intuition discriminate).
  assert (H4 : ~ In "" BOUNDS_CUES) by (cbn; intuition discriminate).
  unfold named, absent, tests.
  repeat split.
  - intros (t & Hin & Ht).
    pose proof (cue_in_failed_join req EMPTY_CUES t Hin Ht) as E.
    now rewrite (Hfj _ H1 E), E.
  - intros A1 (t & Hin & Ht).
    pose proof (cue_in_failed_join req SINGLE_CUES t Hin Ht) as E.
    now rewrite (Hfj _ H2 E), A1, E.
  - intros A1 A2 (t & Hin & Ht).
    pose proof (cue_in_failed_join req FORMAT_CUES t Hin Ht) as E.
    now rewrite (Hfj _ H3 E), A1, A2, E.
  - intros A1 A2 A3 (t & Hin & Ht).
    pose proof (cue_in_failed_join req BOUNDS_CUES t Hin Ht) as E.
    now rewrite (Hfj _ H4 E), A1, A2, A3, E.
  - intros A1 A2 A3 A4. rewrite A1, A2, A3, A4.
    now destruct (PyStr.nonempty (failed_join req)).
Qed.


(** *** Alternatives of a pattern that an earlier row covers *)

Lemma search_Alt r1 r2 t :
  search (Alt r1 r2) t = search r1 t || search r2 t.
Proof.
  apply eq_true_iff_eq.
  rewrite orb_true_iff, !RegexFacts.search_spec. split.
  - intros (a & p & q & E & H). apply RegexFacts.Matches_Alt in H as [H|H];
      [left | right]; now exists a, p, q.
  - intros [(a & p & q & E & H) | (a & p & q & E & H)]; exists a, p, q;
      (split; [exact E|]); [now apply MAltL | now apply MAltR].
Qed.

(** A match of a literal holds a match of each of its two parts. *)
Lemma lit_app_inv (s1 s2 : string) m :
  Matches (lit (s1 ++ s2)) m ->
  exists m1 m2, m = m1 ++ m2 /\ Matches (lit s1) m1 /\ Matches (lit s2) m2.
Proof.
  revert m. induction s1 as [|c s1 IH]; intros m H.
  - exists [], m. repeat split; [constructor | exact H].
  - cbn [append lit] in H.
    destruct (s1 ++ s2)%string as [|d u] eqn:E.
    + destruct s1; [|discriminate]. cbn in E. subst s2.
      exists m, []. rewrite app_nil_r. repeat split; [exact H | constructor].
    + apply RegexFacts.Matches_Cat in H as (mc & m' & -> & Hc & H').
      apply IH in H' as (m1 & m2 & -> & H1 & H2).
      exists (mc ++ m1), m2. rewrite app_assoc. repeat split; [|exact H2].
      cbn [lit]. destruct s1 as [|e s1].
      * apply RegexFacts.Matches_Eps in H1. subst m1. now rewrite app_nil_r.
      * now apply MCat.
Qed.

(** A pattern each of whose matches holds a match of [l] is found only
    where [l] is found. *)
Lemma search_inside (r l : regex) (t : string) :
  (forall m, Matches r m -> exists a p b, m = a ++ p ++ b /\ Matches l p) ->
  search r t = true -> search l t = true.
Proof.
  intros Hin H. apply RegexFacts.search_spec in H as (a & p & q & E & H).
  apply Hin in H as (a' & p' & b' & -> & H).
  apply RegexFacts.search_spec. exists (a ++ a'), p', (b' ++ q).
  split; [|exact H]. rewrite E. now rewrite <- !app_assoc.
Qed.

Lemma conflicting_types_covered (t : string) :
  search (seq [lit "conflicting types for "; Star any]) t = true ->
  search (lit "conflicting types for") t = true.
Proof.
  apply search_inside. intros m H.
  apply RegexFacts.Matches_Cat in H as (m1 & m2 & -> & H1 & _).
  apply (lit_app_inv "conflicting types for" " ") in H1
    as (p & sp & -> & Hp & _).
  exists [], p, (sp ++ m2). split; [|exact Hp].
  cbn [app]. now rewrite <- app_assoc.
Qed.

Lemma passing_argument_covered (t : string) :
  search (seq [lit "passing argument "; Star any;
               lit " from incompatible pointer type"]) t = true ->
  search (lit "incompatible pointer type") t = true.
Proof.
  apply search_inside. intros m H.
  apply RegexFacts.Matches_Cat in H as (m1 & m' & -> & _ & H).
  apply RegexFacts.Matches_Cat in H as (m2 & m3 & -> & _ & H).
  apply (lit_app_inv " from " "incompatible pointer type") in H
    as (fr & p & -> & _ & Hp).
  exists (m1 ++ m2 ++ fr), p, []. split; [|exact Hp].
  rewrite app_nil_r. now rewrite <- !app_assoc.
Qed.

Lemma type_mismatch_alternatives (t : string) :
  search re_type_mismatch t
  = search (lit "conflicting types for") t
    || search (lit "incompatible type") t
    || search (lit "incompatible pointer type") t.
Proof.
  unfold re_type_mismatch. cbn [alts].
  now rewrite !search_Alt, orb_assoc.
Qed.

(** A result of steps 3) to 5) carries none of the clusters of the
    tables. *)
Lemma after_compile_late fj sg c :
  cluster_key (after_compile fj sg) = c ->
  In c (map (fun v => fst (fst v)) LATE_VERDICTS).
Proof.
  intros <-.
  destruct (CAdapterFacts.after_compile_cases fj sg) as (H & _).
  apply (in_map (fun v => fst (fst v))) in H. exact H.
Qed.

Ltac not_late H :=
  apply after_compile_late in H; cbn in H; intuition discriminate.

Ltac not_runtime E H :=
  apply CAdapterFacts.first_match_some in E as [E _];
  cbn in E; cbn in H;
  repeat (destruct E as [<- | E]; [discriminate H|]); contradiction.

(** X4. Two alternatives of the compile patterns never decide, because a row
    that stands earlier in the table matches wherever they do:
    "conflicting types for .*" of c_prototype_conflict and
    "passing argument .* from incompatible pointer type" of
    c_parameter_mismatch are covered by the row of c_type_mismatch.  So the
    analyzer returns c_prototype_conflict only for a text with "previous
    declaration of ... with type" and without "conflicting types for", and
    c_parameter_mismatch only for a text with "too few (many) arguments to
    function". *)
Theorem covered_alternatives_never_decide (req : Schemas.HintRequest) :
  (forall t,
     search (seq [lit "conflicting types for "; Star any]) t = true
     \/ search (seq [lit "passing argument "; Star any;
                     lit " from incompatible pointer type"]) t = true ->
     search re_type_mismatch t = true)
  /\ (cluster_key (analyze req) = "c_prototype_conflict" ->
      search re_previous_declaration (merged_compile req) = true
      /\ search (lit "conflicting types for") (merged_compile req) = false)
  /\ (cluster_key (analyze req) = "c_parameter_mismatch" ->
      search re_argument_count (merged_compile req) = true
      /\ search (lit "incompatible pointer type") (merged_compile req)
         = false).
Proof.
  split; [|split].
  - intros t [H|H]; rewrite type_mismatch_alternatives.
    + now rewrite (conflicting_types_covered _ H).
    + rewrite (passing_argument_covered _ H). apply orb_true_r.
  - rewrite analyze_steps. intros H.
    destruct (first_match RUNTIME_PATTERNS (merged_runtime req)) eqn:E1;
      [not_runtime E1 H|].
    destruct (first_match COMPILE_PATTERNS (merged_compile req)) as [r|] eqn:E2;
      [|not_late H].
    unfold first_match, COMPILE_PATTERNS in E2.
    cbn [find rule_pat fst snd] in E2.
    destruct (search re_undeclared (merged_compile req));
      [injection E2 as <-; discriminate H|].
    destruct (search re_type_mismatch (merged_compile req)) eqn:S2;
      [injection E2 as <-; discriminate H|].
    destruct (search re_parameter_mismatch (merged_compile req));
      [injection E2 as <-; discriminate H|].
    destruct (search re_prototype_conflict (merged_compile req)) eqn:S4.
    + rewrite type_mismatch_alternatives in S2.
      apply orb_false_elim in S2 as [S2 _].
      apply orb_false_elim in S2 as [S2 _].
      split; [|exact S2].
      unfold re_prototype_conflict in S4. cbn [alts] in S4.
      rewrite search_Alt in S4. apply orb_true_iff in S4 as [S4|S4].
      * apply conflicting_types_covered in S4. congruence.
      * exact S4.
    + destruct (search re_return_type_mismatch (merged_compile req));
        [injection E2 as <-; discriminate H|].
      destruct (search re_pointer_deref_misuse (merged_compile req));
        [injection E2 as <-; discriminate H|].
      destruct (search re_free_misuse_compile (merged_compile req));
        [injection E2 as <-; discriminate H|].
      destruct (search re_warning_unused_variable (merged_compile req));
        [injection E2 as <-|discriminate E2].
      cbv zeta in H. cbn [rule_cluster fst snd String.eqb Ascii.eqb andb] in H.
      match type of H with
      | context [if ?b then _ else _] => destruct b
      end; [not_late H | discriminate H].
  - rewrite analyze_steps. intros H.
    destruct (first_match RUNTIME_PATTERNS (merged_runtime req)) eqn:E1;
      [not_runtime E1 H|].
    destruct (first_match COMPILE_PATTERNS (merged_compile req)) as [r|] eqn:E2;
      [|not_late H].
    unfold first_match, COMPILE_PATTERNS in E2.
    cbn [find rule_pat fst snd] in E2.
    destruct (search re_undeclared (merged_compile req));
      [injection E2 as <-; discriminate H|].
    destruct (search re_type_mismatch (merged_compile req)) eqn:S2;
      [injection E2 as <-; discriminate H|].
    destruct (search re_parameter_mismatch (merged_compile req)) eqn:S3.
    + rewrite type_mismatch_alternatives in S2.
      apply orb_false_elim in S2 as [_ S2].
      split; [|exact S2].
      unfold re_parameter_mismatch in S3. cbn [alts] in S3.
      rewrite search_Alt in S3. apply orb_true_iff in S3 as [S3|S3].
      * exact S3.
      * apply passing_argument_covered in S3. congruence.
    + destruct (search re_prototype_conflict (merged_compile req));
        [injection E2 as <-; discriminate H|].
      destruct (search re_return_type_mismatch (merged_compile req));
        [injection E2 as <-; discriminate H|].
      destruct (search re_pointer_deref_misuse (merged_compile req));
        [injection E2 as <-; discriminate H|].
      destruct (search re_free_misuse_compile (merged_compile req));
        [injection E2 as <-; discriminate H|].
      destruct (search re_warning_unused_variable (merged_compile req));
        [injection E2 as <-|discriminate E2].
      cbv zeta in H. cbn [rule_cluster fst snd String.eqb Ascii.eqb andb] in H.
      match type of H with
      | context [if ?b then _ else _] => destruct b
      end; [not_late H | discriminate H].
Qed.


(** *** The structural hints *)

Lemma after_compile_malloc fj sg :
  cluster_key (after_compile fj sg) = "c_memory_malloc_no_null_check" ->
  (score_ratio sg <? 0.99)%float = true
  /\ uses_malloc (code_features sg) = true
  /\ uses_free (code_features sg) = true
  /\ null_check_after_malloc (code_features sg) = false
  /\ failed_test_step fj sg = None.
Proof.
  unfold after_compile, failed_test_step, structural_step.
  repeat match goal with
         | |- context [if ?b then _ else _] => destruct b eqn:?
         end; cbn; intros H; try discriminate H.
  all: repeat match goal with
         | H : (_ && _)%bool = true |- _ => apply andb_true_iff in H as [? ?]
         | H : negb _ = true |- _ => apply negb_true_iff in H
         end; auto.
Qed.

(** X5. The hint on a missing NULL check after malloc is given only for a
    source code that, in lower case, holds "malloc(" and "free(" and no
    test of the form [if (... == null] or [if (... !name)], only below a
    score ratio of 0.99, and only when no runtime pattern matched and no
    cue of the failed tests spoke. *)
Theorem missing_null_check_needs_malloc_and_free (req : Schemas.HintRequest) :
  cluster_key (analyze req) = "c_memory_malloc_no_null_check" ->
  let code_l := PyStr.lower (Schemas.source_code req) in
  let cr := Schemas.coderunner req in
  PyStr.contains "malloc(" code_l = true
  /\ PyStr.contains "free(" code_l = true
  /\ search re_null_check code_l = false
  /\ (_safe_ratio (Schemas.score cr) (Schemas.max_score cr) <? 0.99)%float
     = true
  /\ first_match RUNTIME_PATTERNS (merged_runtime req) = None
  /\ failed_test_cues (signals (analyze req)) = [].
Proof.
  intros H. cbv zeta.
  assert (G : forall sg,
             code_features sg = code_features (initial_signals req) ->
             score_ratio sg = score_ratio (initial_signals req) ->
             failed_test_cues sg = [] ->
             analyze req = after_compile (failed_join req) sg ->
             PyStr.contains "malloc(" (PyStr.lower (Schemas.source_code req))
             = true
             /\ PyStr.contains "free(" (PyStr.lower (Schemas.source_code req))
                = true
             /\ search re_null_check (PyStr.lower (Schemas.source_code req))
                = false
             /\ (_safe_ratio (Schemas.score (Schemas.coderunner req))
                   (Schemas.max_score (Schemas.coderunner req)) <? 0.99)%float
                = true
             /\ failed_test_cues (signals (analyze req)) = []).
  { intros sg Hf Hs Hq E. rewrite E in H |- *.
    apply after_compile_malloc in H as (H1 & H2 & H3 & H4 & H5).
    rewrite Hf in H2, H3, H4. rewrite Hs in H1.
    repeat split; try assumption.
    unfold after_compile. rewrite H5.
    unfold structural_step.
    repeat match goal with
           | |- context [if ?b then _ else _] => destruct b
           end; exact Hq. }
  revert H G. rewrite analyze_steps.
  destruct (first_match RUNTIME_PATTERNS (merged_runtime req)) eqn:E1.
  { intros H _. not_runtime E1 H. }
  destruct (first_match COMPILE_PATTERNS (merged_compile req)) as [r|] eqn:E2.
  - cbv zeta.
    destruct (String.eqb (rule_cluster r) "c_warning_unused_variable"
              && (0.99 <=? score_ratio
                    (with_compile (initial_signals req) (rule_cluster r)))%float).
    + intros H G.
      destruct (G (with_compile (initial_signals req) (rule_cluster r)))
        as (G1 & G2 & G3 & G4 & G5); try reflexivity.
      repeat split; assumption.
    + intros H _. apply CAdapterFacts.first_match_some in E2 as [E2 _].
      cbn in E2, H.
      repeat (destruct E2 as [<- | E2]; [discriminate H|]). contradiction.
  - intros H G.
    destruct (G (initial_signals req)) as (G1 & G2 & G3 & G4 & G5);
      try reflexivity.
    repeat split; assumption.
Qed.

(** X3 on a request without a message of the compiler or of the run, whose
    failed tests are named "Test 3: EMPTY list" and "single element": the
    keyword of the empty-input list, written in capitals, decides, though a
    keyword of the single-element list is there too. *)
Lemma failed_test_cues_by_priority_witness :
  no_pattern Cases.cue_request
  /\ PyStr.any_in SINGLE_CUES (failed_join Cases.cue_request) = true
  /\ verdict (analyze Cases.cue_request)
     = ("c_logic_edge_case_empty", "edge_case", 0.8%float).
Proof.
  assert (H : no_pattern Cases.cue_request) by (split; reflexivity).
  split; [exact H|]. split; [reflexivity|].
  apply (proj1 (@failed_test_cues_by_priority Cases.cue_request H)).
  exists "Test 3: EMPTY list". split; [now left | reflexivity].
Defined.

(** X5 on a source that calls malloc and free and never tests the
    pointer, at a score of 0 out of 10. *)
Lemma missing_null_check_needs_malloc_and_free_witness :
  cluster_key (analyze Cases.leak_request) = "c_memory_malloc_no_null_check"
  /\ PyStr.contains "malloc("
       (PyStr.lower (Schemas.source_code Cases.leak_request)) = true
  /\ PyStr.contains "free("
       (PyStr.lower (Schemas.source_code Cases.leak_request)) = true
  /\ search re_null_check
       (PyStr.lower (Schemas.source_code Cases.leak_request)) = false.
Proof.
  assert (H : cluster_key (analyze Cases.leak_request)
              = "c_memory_malloc_no_null_check") by reflexivity.
  split; [exact H|].
  destruct (@missing_null_check_needs_malloc_and_free Cases.leak_request H)
    as (H1 & H2 & H3 & _).
  repeat split; assumption.
Defined.

End AnalyzerFacts.
(** ** The tables *)

Module DbFacts.
Import Db DbTerms.

(** *** Attempts *)

Lemma last_by_id_greatest rows a :
  (forall b, In b rows -> Attempt.id b < Attempt.id a) ->
  last_by_id (rows ++ [a]) = Some a.
Proof.
  induction rows as [|b rows IH]; intros H; [reflexivity|].
  cbn [app last_by_id]. rewrite IH by (intros; apply H; now right).
  assert (Hb : Attempt.id b < Attempt.id a) by (apply H; now left).
  apply Z.ltb_lt in Hb. now rewrite Hb.
Qed.

Lemma filter_snoc {A : Type} (f : A -> bool) l x :
  filter f (l ++ [x]) = filter f l ++ (if f x then [x] else []).
Proof. now rewrite filter_app. Qed.

Lemma in_context_stored s l q qq sl new_id row :
  in_context s l q qq sl (stored new_id row) = true
  <-> (s, l, q, qq, sl) = context_of row.
Proof.
  unfold in_context, context_of, stored; cbn.
  rewrite !andb_true_iff, !String.eqb_eq, !Z.eqb_eq. split.
  - intros ((((-> & ->) & ->) & ->) & ->). reflexivity.
  - intros E. injection E as -> -> -> -> ->. repeat split.
Qed.

Lemma new_id_above row d a :
  In a (attempts d) -> Attempt.id a < fst (insert_attempt row d).
Proof.
  intros Ha. apply HintEngineFacts.max_id_ge in Ha.
  unfold insert_attempt. cbn [fst]. lia.
Qed.

(** The last attempt of the context of a row that has just been
    inserted. *)
Lemma get_last_after_insert row d :
  get_last_attempt_for_context (NewAttempt.student_id row)
    (NewAttempt.language row) (NewAttempt.quiz_id row)
    (NewAttempt.question_id row) (NewAttempt.question_slot row)
    (snd (insert_attempt row d))
  = Some (stored (fst (insert_attempt row d)) row).
Proof.
  unfold get_last_attempt_for_context.
  change (attempts (snd (insert_attempt row d)))
    with (attempts d ++ [stored (fst (insert_attempt row d)) row]).
  rewrite filter_snoc.
  rewrite (proj2 (in_context_stored _ _ _ _ _ (fst (insert_attempt row d))
                    row) eq_refl).
  apply last_by_id_greatest.
  intros b Hb. apply filter_In in Hb as [Hb _].
  change (Attempt.id (stored (fst (insert_attempt row d)) row))
    with (fst (insert_attempt row d)).
  now apply new_id_above.
Qed.

(** X6. An attempt that has just been inserted is the one read back as the
    last attempt of its context: its id is greater than every id the table
    holds or has handed out, so the next request of the context finds it.
    The last attempt of any other context, and the statistics, stay as they
    were. *)
Theorem inserted_attempt_is_last_of_its_context (row : NewAttempt.t)
    (d : database) :
  let new_id := fst (insert_attempt row d) in
  let d' := snd (insert_attempt row d) in
  get_last_attempt_for_context (NewAttempt.student_id row)
    (NewAttempt.language row) (NewAttempt.quiz_id row)
    (NewAttempt.question_id row) (NewAttempt.question_slot row) d'
  = Some (stored new_id row)
  /\ attempts d' = attempts d ++ [stored new_id row]
  /\ (forall a, In a (attempts d) -> Attempt.id a < new_id)
  /\ attempts_seq d < new_id
  /\ attempts_seq d' = new_id
  /\ hint_stats d' = hint_stats d
  /\ (forall s l q qq sl,
        (s, l, q, qq, sl) <> context_of row ->
        get_last_attempt_for_context s l q qq sl d'
        = get_last_attempt_for_context s l q qq sl d).
Proof.
  cbv zeta.
  split; [apply get_last_after_insert |].
  split; [reflexivity |].
  split; [intros a Ha; now apply new_id_above |].
  split; [unfold insert_attempt; cbn [fst]; lia |].
  split; [reflexivity |]. split; [reflexivity |].
  intros s l q qq sl Hne. unfold get_last_attempt_for_context.
  change (attempts (snd (insert_attempt row d)))
    with (attempts d ++ [stored (fst (insert_attempt row d)) row]).
  rewrite filter_snoc.
  destruct (in_context s l q qq sl (stored (fst (insert_attempt row d)) row))
    eqn:E.
  - apply in_context_stored in E. contradiction.
  - now rewrite app_nil_r.
Qed.


(** The last attempt by id, read through a change of the rows that keeps
    their ids. *)
Lemma last_by_id_map (f : Attempt.t -> Attempt.t) rows :
  (forall a, Attempt.id (f a) = Attempt.id a) ->
  last_by_id (map f rows) = option_map f (last_by_id rows).
Proof.
  intros Hf. induction rows as [|a rows IH]; [reflexivity|].
  cbn [map last_by_id]. rewrite IH.
  destruct (last_by_id rows) as [b|]; cbn [option_map]; [|reflexivity].
  rewrite !Hf. now destruct (Attempt.id a <? Attempt.id b).
Qed.

Lemma filter_map_commute {A : Type} (p : A -> bool) (f : A -> A) l :
  (forall a, p (f a) = p a) -> filter p (map f l) = map f (filter p l).
Proof.
  intros H. induction l as [|a l IH]; [reflexivity|].
  cbn [map filter]. rewrite H, IH. now destruct (p a).
Qed.

Lemma update_keeps_rows id improved delta d :
  map clear_feedback
    (attempts (update_attempt_improvement id improved delta d))
  = map clear_feedback (attempts d).
Proof.
  unfold update_attempt_improvement. cbn [attempts].
  rewrite map_map. apply map_ext. intros a.
  now destruct (Attempt.id a =? id).
Qed.

Lemma clear_feedback_ids rows rows' :
  map clear_feedback rows = map clear_feedback rows' ->
  map Attempt.id rows = map Attempt.id rows'.
Proof.
  intros H. apply (f_equal (map Attempt.id)) in H.
  rewrite !map_map in H. exact H.
Qed.

(** X7. Recording the feedback on an attempt writes the two feedback columns
    of the rows of that id and nothing else: every other column of every
    row, the rows of other ids, the order of the rows, the id counter and
    the statistics are as before, and so is, for each context, which attempt
    is the last. *)
Theorem update_writes_the_feedback_only (attempt_row_id : Z)
    (improved : bool) (delta_score : float) (d : database) :
  let d' := update_attempt_improvement attempt_row_id improved delta_score d in
  map clear_feedback (attempts d') = map clear_feedback (attempts d)
  /\ (forall a, In a (attempts d') -> Attempt.id a = attempt_row_id ->
        Attempt.improved_vs_previous a = Some (if improved then 1 else 0)
        /\ Attempt.delta_score a = sql_real delta_score)
  /\ (forall a, Attempt.id a <> attempt_row_id ->
        (In a (attempts d') <-> In a (attempts d)))
  /\ attempts_seq d' = attempts_seq d
  /\ hint_stats d' = hint_stats d
  /\ (forall s l q qq sl,
        option_map Attempt.id (get_last_attempt_for_context s l q qq sl d')
        = option_map Attempt.id (get_last_attempt_for_context s l q qq sl d)).
Proof.
  cbv zeta.
  split; [apply update_keeps_rows |].
  unfold update_attempt_improvement.
  cbn [attempts attempts_seq hint_stats].
  set (f := fun a => if Attempt.id a =? attempt_row_id
                     then set_improvement improved delta_score a else a).
  assert (Hid : forall a, Attempt.id (f a) = Attempt.id a).
  { intros a. unfold f. now destruct (Attempt.id a =? attempt_row_id). }
  split; [| split; [| split; [reflexivity | split; [reflexivity |]]]].
  - intros a Hin Ha. apply in_map_iff in Hin as (b & <- & _).
    rewrite Hid in Ha. unfold f. apply Z.eqb_eq in Ha. now rewrite Ha.
  - intros a Ha. split.
    + intros Hin. apply in_map_iff in Hin as (b & E & Hb).
      unfold f in E. destruct (Attempt.id b =? attempt_row_id) eqn:Eb.
      * apply Z.eqb_eq in Eb. subst a. cbn in Ha. contradiction.
      * now subst.
    + intros Hin. apply in_map_iff. exists a. split; [| exact Hin].
      unfold f. apply Z.eqb_neq in Ha. now rewrite Ha.
  - intros s l q qq sl. unfold get_last_attempt_for_context. cbn [attempts].
    rewrite filter_map_commute.
    + rewrite (@last_by_id_map f _ Hid).
      destruct (last_by_id _) as [a|]; cbn; [now rewrite Hid | reflexivity].
    + intros a. unfold f. now destruct (Attempt.id a =? attempt_row_id).
Qed.


(** *** Statistics *)

Lemma same_key_spec l c h v r :
  same_key l c h v r = true <-> stat_key r = (l, c, h, v).
Proof.
  unfold same_key, stat_key.
  rewrite !andb_true_iff, !String.eqb_eq, Z.eqb_eq. split.
  - intros (((-> & ->) & ->) & ->). reflexivity.
  - intros E. injection E as -> -> -> ->. repeat split.
Qed.

Lemma same_key_refl r :
  same_key (HintStat.language r) (HintStat.cluster_key r)
    (HintStat.hint_level r) (HintStat.hint_variant r) r = true.
Proof. now apply same_key_spec. Qed.

Lemma same_key_other l c h v r :
  stat_key r <> (l, c, h, v) -> same_key l c h v r = false.
Proof.
  intros H. destruct (same_key l c h v r) eqn:E; [|reflexivity].
  now apply same_key_spec in E.
Qed.

(** What the upsert leaves under each key. *)
Lemma upsert_lookup l c h v e i x rows rows' :
  upsert l c h v e i x rows = Some rows' ->
  (exists r',
     lookup_stat (l, c, h, v) rows' = Some r'
     /\ stat_key r' = (l, c, h, v)
     /\ HintStat.exposures r' = exposures_of (l, c, h, v) rows + e
     /\ HintStat.improvements r' = improvements_of (l, c, h, v) rows + i
     /\ HintStat.total_delta r' = total_after (l, c, h, v) rows x)
  /\ (forall k, k <> (l, c, h, v) -> lookup_stat k rows' = lookup_stat k rows)
  /\ (lookup_stat (l, c, h, v) rows <> None ->
      PrimFloat.is_nan (total_after (l, c, h, v) rows x) = false).
Proof.
  unfold exposures_of, improvements_of, total_after, lookup_stat.
  revert rows'. induction rows as [|r rows IH]; intros rows' H.
  - cbn in H. injection H as <-. split; [|split].
    + eexists. cbn [find].
      rewrite (proj2 (same_key_spec l c h v _)) by reflexivity.
      repeat split.
    + intros [[[l' c'] h'] v'] Hk. cbn [find].
      rewrite same_key_other; [reflexivity|].
      intros E. apply Hk. symmetry. exact E.
    + intros H. now contradiction H.
  - cbn [upsert] in H. cbn [find]. destruct (same_key l c h v r) eqn:Ek.
    + destruct (PrimFloat.is_nan (HintStat.total_delta r + x)) eqn:En;
        [discriminate|].
      injection H as <-. pose proof Ek as Ek'. apply same_key_spec in Ek'.
      split; [|split].
      * eexists. cbn [find]. unfold same_key at 1; cbn.
        fold (same_key l c h v r). rewrite Ek. repeat split.
        exact Ek'.
      * intros [[[l' c'] h'] v'] Hk. cbn [find].
        unfold same_key at 1; cbn. fold (same_key l' c' h' v' r).
        rewrite same_key_other by congruence. reflexivity.
      * intros _. reflexivity.
    + destruct (upsert l c h v e i x rows) as [rows''|] eqn:Eu; [|discriminate].
      injection H as <-. destruct (IH _ eq_refl) as ((r' & H1 & H2) & H3 & H4).
      split; [|split].
      * exists r'. cbn [find]. rewrite Ek. split; [exact H1 | exact H2].
      * intros [[[l' c'] h'] v'] Hk. cbn [find].
        destruct (same_key l' c' h' v' r); [reflexivity|].
        exact (H3 (l', c', h', v') Hk).
      * exact H4.
Qed.

(** When the upsert fails: the new sum of the deltas is a NaN. *)
Lemma upsert_none l c h v e i x rows :
  upsert l c h v e i x rows = None ->
  PrimFloat.is_nan (total_after (l, c, h, v) rows x) = true
  /\ lookup_stat (l, c, h, v) rows <> None.
Proof.
  unfold total_after, lookup_stat.
  induction rows as [|r rows IH]; intros H; [discriminate|].
  cbn [upsert] in H. cbn [find]. destruct (same_key l c h v r).
  - destruct (PrimFloat.is_nan (HintStat.total_delta r + x)) eqn:E;
      [|discriminate]. split; [reflexivity | discriminate].
  - destruct (upsert l c h v e i x rows); [discriminate|]. now apply IH.
Qed.

(** X8. A bump adds its increments to the counters of its key and to no
    other: exposures, improvements and the sum of the deltas of the key
    (those of a new row when the key had none) grow by the increments, the
    row of every other key and the attempts are as before.  It fails only
    with IntegrityError, and exactly when the delta or the new sum of the
    deltas is a NaN; the table is then as before. *)
Theorem bump_adds_to_the_counters_of_its_key (l c : string) (h : Z)
    (v : string) (e i : Z) (x : float) (d : database) :
  let k := (l, c, h, v) in
  match bump_hint_stats l c h v e i x d with
  | inr d' =>
      PrimFloat.is_nan x = false
      /\ PrimFloat.is_nan (total_after k (hint_stats d) x) = false
      /\ exposures_of k (hint_stats d') = exposures_of k (hint_stats d) + e
      /\ improvements_of k (hint_stats d')
         = improvements_of k (hint_stats d) + i
      /\ option_map HintStat.total_delta (lookup_stat k (hint_stats d'))
         = Some (total_after k (hint_stats d) x)
      /\ (forall k', k' <> k ->
            lookup_stat k' (hint_stats d') = lookup_stat k' (hint_stats d))
      /\ attempts d' = attempts d
      /\ attempts_seq d' = attempts_seq d
  | inl err =>
      err = IntegrityError
      /\ (PrimFloat.is_nan x = true
          \/ PrimFloat.is_nan (total_after k (hint_stats d) x) = true)
  end.
Proof.
  cbv zeta. unfold bump_hint_stats.
  destruct (PrimFloat.is_nan x) eqn:Ex; [now split; [|left]|].
  destruct (upsert l c h v e i x (hint_stats d)) as [rows|] eqn:Eu.
  - destruct (upsert_lookup _ _ _ _ _ _ _ _ Eu)
      as ((r' & H1 & H2 & H3 & H4 & H5) & H6 & H7).
    cbn [hint_stats attempts attempts_seq].
    split; [reflexivity|]. split.
    + destruct (lookup_stat (l, c, h, v) (hint_stats d)) eqn:El.
      * apply H7. discriminate.
      * unfold total_after. now rewrite El.
    + unfold exposures_of at 1, improvements_of at 1. rewrite H1. cbn.
      repeat split; auto. now rewrite H5.
  - split; [reflexivity|]. right. now apply (@upsert_none _ _ _ _ _ _ _ _ Eu).
Qed.


Lemma bump_inr l c h v e i x d d' :
  bump_hint_stats l c h v e i x d = inr d' ->
  upsert l c h v e i x (hint_stats d) = Some (hint_stats d')
  /\ attempts d' = attempts d /\ attempts_seq d' = attempts_seq d.
Proof.
  unfold bump_hint_stats. destruct (PrimFloat.is_nan x); [discriminate|].
  destruct (upsert l c h v e i x (hint_stats d)); [|discriminate].
  intros H. injection H as <-. repeat split.
Qed.

(** The keys of the table after an upsert: as before, and the new key at
    the end when it had no row. *)
Lemma upsert_keys l c h v e i x rows rows' :
  upsert l c h v e i x rows = Some rows' ->
  map stat_key rows'
  = map stat_key rows
    ++ (if existsb (same_key l c h v) rows then [] else [(l, c, h, v)]).
Proof.
  revert rows'. induction rows as [|r rows IH]; intros rows' H.
  - cbn in H. injection H as <-. reflexivity.
  - cbn [upsert] in H. cbn [existsb]. destruct (same_key l c h v r) eqn:Ek.
    + destruct (PrimFloat.is_nan (HintStat.total_delta r + x));
        [discriminate|].
      injection H as <-. cbn [orb map]. now rewrite app_nil_r.
    + destruct (upsert l c h v e i x rows) as [rows''|]; [|discriminate].
      injection H as <-. cbn [orb map app]. now rewrite (IH _ eq_refl).
Qed.

(** X9. The table of statistics keeps one row for each key (language,
    cluster, level, variant), as its UNIQUE constraint asks: a bump changes
    the row of its key where it stands, or adds one row at the end when the
    key had none. *)
Theorem bump_keeps_one_row_per_key (l c : string) (h : Z) (v : string)
    (e i : Z) (x : float) (d d' : database) :
  bump_hint_stats l c h v e i x d = inr d' ->
  NoDup (map stat_key (hint_stats d)) ->
  NoDup (map stat_key (hint_stats d'))
  /\ map stat_key (hint_stats d')
     = map stat_key (hint_stats d)
       ++ (if existsb (same_key l c h v) (hint_stats d) then []
           else [(l, c, h, v)]).
Proof.
  intros Hb Hn. apply bump_inr in Hb as (Hu & _).
  apply upsert_keys in Hu. split; [|exact Hu]. rewrite Hu.
  destruct (existsb (same_key l c h v) (hint_stats d)) eqn:Ex.
  - now rewrite app_nil_r.
  - apply NoDup_app; [exact Hn | repeat constructor; intros [] |].
    intros k Hk [<- | []]. apply in_map_iff in Hk as (r & Hr & Hin).
    assert (Hf : existsb (same_key l c h v) (hint_stats d) = true).
    { apply existsb_exists. exists r. split; [exact Hin|].
      now apply same_key_spec. }
    congruence.
Qed.

Lemma key_eqb_spec k k' : key_eqb k k' = true <-> k = k'.
Proof.
  destruct k as [[[l c] h] v], k' as [[[l' c'] h'] v']. unfold key_eqb.
  rewrite !andb_true_iff, !String.eqb_eq, Z.eqb_eq. split.
  - intros (((-> & ->) & ->) & ->). reflexivity.
  - intros E. injection E as -> -> -> ->. repeat split.
Qed.

Lemma key_eqb_neq k k' : key_eqb k k' = false <-> k <> k'.
Proof.
  split.
  - intros E ->. rewrite (proj2 (key_eqb_spec _ _) eq_refl) in E.
    discriminate.
  - intros H. destruct (key_eqb k k') eqn:E; [|reflexivity].
    now apply key_eqb_spec in E.
Qed.

(** The integer counters of every key after an upsert. *)
Lemma upsert_counts l c h v e i x rows rows' k :
  upsert l c h v e i x rows = Some rows' ->
  exposures_of k rows'
  = exposures_of k rows + (if key_eqb k (l, c, h, v) then e else 0)
  /\ improvements_of k rows'
     = improvements_of k rows + (if key_eqb k (l, c, h, v) then i else 0).
Proof.
  intros H. apply upsert_lookup in H as ((r' & H1 & _ & H3 & H4 & _) & H6 & _).
  destruct (key_eqb k (l, c, h, v)) eqn:Ek.
  - apply key_eqb_spec in Ek as ->.
    unfold exposures_of at 1, improvements_of at 1. rewrite H1. now split.
  - apply key_eqb_neq in Ek.
    unfold exposures_of, improvements_of. rewrite (H6 k Ek). lia.
Qed.

Lemma stat_eq (r r' : HintStat.t) :
  stat_key r = stat_key r' ->
  HintStat.exposures r = HintStat.exposures r' ->
  HintStat.improvements r = HintStat.improvements r' ->
  HintStat.total_delta r = HintStat.total_delta r' ->
  r = r'.
Proof.
  destruct r, r'. unfold stat_key. cbn. intros E -> -> ->.
  now injection E as -> -> -> ->.
Qed.

(** X10. Two bumps in either order leave the same counters: whenever both
    orders succeed, the exposures and the improvements of every key are the
    same, and for bumps of two different keys the rows of every key are the
    same.  (The sum of the deltas of one key is a floating-point sum, which
    can depend on the order.) *)
Theorem bumps_commute_on_counters
    (l1 c1 : string) (h1 : Z) (v1 : string) (e1 i1 : Z) (x1 : float)
    (l2 c2 : string) (h2 : Z) (v2 : string) (e2 i2 : Z) (x2 : float)
    (d d1 d12 d2 d21 : database) :
  bump_hint_stats l1 c1 h1 v1 e1 i1 x1 d = inr d1 ->
  bump_hint_stats l2 c2 h2 v2 e2 i2 x2 d1 = inr d12 ->
  bump_hint_stats l2 c2 h2 v2 e2 i2 x2 d = inr d2 ->
  bump_hint_stats l1 c1 h1 v1 e1 i1 x1 d2 = inr d21 ->
  (forall k,
     exposures_of k (hint_stats d12) = exposures_of k (hint_stats d21)
     /\ improvements_of k (hint_stats d12)
        = improvements_of k (hint_stats d21))
  /\ ((l1, c1, h1, v1) <> (l2, c2, h2, v2) ->
      forall k,
        lookup_stat k (hint_stats d12) = lookup_stat k (hint_stats d21))
  /\ attempts d12 = attempts d21.
Proof.
  intros B1 B12 B2 B21.
  apply bump_inr in B1 as (U1 & A1 & _), B12 as (U12 & A12 & _),
    B2 as (U2 & A2 & _), B21 as (U21 & A21 & _).
  split; [|split].
  - intros k.
    destruct (@upsert_counts _ _ _ _ _ _ _ _ _ k U1) as [P1 Q1].
    destruct (@upsert_counts _ _ _ _ _ _ _ _ _ k U12) as [P12 Q12].
    destruct (@upsert_counts _ _ _ _ _ _ _ _ _ k U2) as [P2 Q2].
    destruct (@upsert_counts _ _ _ _ _ _ _ _ _ k U21) as [P21 Q21].
    lia.
  - intros Hne k.
    destruct (@upsert_lookup _ _ _ _ _ _ _ _ _ U1)
      as ((r1 & L1 & K1 & E1 & I1 & T1) & O1 & _).
    destruct (@upsert_lookup _ _ _ _ _ _ _ _ _ U12)
      as ((r12 & L12 & K12 & E12 & I12 & T12) & O12 & _).
    destruct (@upsert_lookup _ _ _ _ _ _ _ _ _ U2)
      as ((r2 & L2 & K2 & E2 & I2 & T2) & O2 & _).
    destruct (@upsert_lookup _ _ _ _ _ _ _ _ _ U21)
      as ((r21 & L21 & K21 & E21 & I21 & T21) & O21 & _).
    assert (Hne' : (l2, c2, h2, v2) <> (l1, c1, h1, v1))
      by (intros E; apply Hne; now symmetry).
    destruct (key_eqb k (l1, c1, h1, v1)) eqn:Hk1;
      [apply key_eqb_spec in Hk1 as -> | apply key_eqb_neq in Hk1].
    + (* the key of the first bump *)
      rewrite (O12 _ Hne), L1, L21. f_equal.
      apply stat_eq; [congruence | | |].
      * rewrite E1, E21. unfold exposures_of. now rewrite (O2 _ Hne).
      * rewrite I1, I21. unfold improvements_of. now rewrite (O2 _ Hne).
      * rewrite T1, T21. unfold total_after. now rewrite (O2 _ Hne).
    + destruct (key_eqb k (l2, c2, h2, v2)) eqn:Hk2;
        [apply key_eqb_spec in Hk2 as -> | apply key_eqb_neq in Hk2].
      * rewrite L12, (O21 _ Hne'), L2. f_equal.
        apply stat_eq; [congruence | | |].
        -- rewrite E12, E2. unfold exposures_of. now rewrite (O1 _ Hne').
        -- rewrite I12, I2. unfold improvements_of. now rewrite (O1 _ Hne').
        -- rewrite T12, T2. unfold total_after. now rewrite (O1 _ Hne').
      * now rewrite (O12 _ Hk2), (O1 _ Hk1), (O21 _ Hk1), (O2 _ Hk2).
  - congruence.
Qed.


(** *** Reading the statistics *)

Lemma insert_stat_perm a rows : Permutation (insert_stat a rows) (a :: rows).
Proof.
  induction rows as [|b rows IH]; [reflexivity|].
  cbn [insert_stat]. destruct (stat_before b a); [|reflexivity].
  rewrite IH. apply perm_swap.
Qed.

Lemma order_stats_perm rows : Permutation (order_stats rows) rows.
Proof.
  induction rows as [|a rows IH]; [reflexivity|].
  cbn. rewrite insert_stat_perm. now constructor.
Qed.

Lemma stat_before_precede a b : stat_before a b = true -> may_precede a b.
Proof.
  unfold stat_before, may_precede.
  rewrite !orb_true_iff, !andb_true_iff, !Z.ltb_lt, !Z.eqb_eq.
  intuition lia.
Qed.

Lemma not_stat_before_precede a b : stat_before b a = false -> may_precede a b.
Proof.
  unfold stat_before, may_precede. intros H.
  apply orb_false_iff in H as [H1 H2]. apply Z.ltb_ge in H1.
  apply andb_false_iff in H2 as [H2 | H2].
  - apply Z.eqb_neq in H2. lia.
  - apply orb_false_iff in H2 as [H2 _]. apply Z.ltb_ge in H2. lia.
Qed.

Lemma may_precede_trans a b c :
  may_precede a b -> may_precede b c -> may_precede a c.
Proof. unfold may_precede. lia. Qed.

Lemma insert_stat_sorted a rows :
  StronglySorted may_precede rows ->
  StronglySorted may_precede (insert_stat a rows).
Proof.
  induction rows as [|b rows IH]; intros H.
  - repeat constructor.
  - apply StronglySorted_inv in H as [Hs Hb]. cbn [insert_stat].
    destruct (stat_before b a) eqn:E.
    + constructor; [now apply IH|].
      apply Forall_forall. intros y Hy.
      apply (Permutation_in _ (insert_stat_perm a rows)) in Hy as [<- | Hy].
      * now apply stat_before_precede.
      * rewrite Forall_forall in Hb. now apply Hb.
    + apply not_stat_before_precede in E.
      constructor; [now constructor|].
      constructor; [exact E|].
      apply Forall_forall. intros y Hy. rewrite Forall_forall in Hb.
      apply (may_precede_trans E). now apply Hb.
Qed.

(** X11. Reading the statistics of a (language, cluster, level) returns the
    rows of that triple, each once and no other row, with the most exposed
    first and, among equally exposed rows, the most improved first. *)
Theorem hint_stats_selected_and_ordered (l c : string) (h : Z)
    (d : database) :
  let rows := get_hint_stats l c h d in
  Permutation rows
    (filter (fun r => String.eqb (HintStat.language r) l
                      && String.eqb (HintStat.cluster_key r) c
                      && (HintStat.hint_level r =? h))
       (hint_stats d))
  /\ (forall r, In r rows <->
        In r (hint_stats d) /\ HintStat.language r = l
        /\ HintStat.cluster_key r = c /\ HintStat.hint_level r = h)
  /\ StronglySorted may_precede rows.
Proof.
  cbv zeta. unfold get_hint_stats. split; [|split].
  - apply order_stats_perm.
  - intros r. split.
    + intros H. apply (Permutation_in _ (order_stats_perm _)) in H.
      apply filter_In in H as [Hin H].
      apply andb_true_iff in H as [H H3]. apply andb_true_iff in H as [H1 H2].
      apply String.eqb_eq in H1, H2. apply Z.eqb_eq in H3. auto.
    + intros (Hin & H1 & H2 & H3).
      apply (Permutation_in _ (Permutation_sym (order_stats_perm _))).
      apply filter_In. split; [exact Hin|].
      rewrite H1, H2, H3, !String.eqb_refl, Z.eqb_refl. reflexivity.
  - generalize (filter (fun r => String.eqb (HintStat.language r) l
                      && String.eqb (HintStat.cluster_key r) c
                      && (HintStat.hint_level r =? h)) (hint_stats d)).
    intros rows. induction rows as [|a rows IH]; [constructor|].
    cbn. now apply insert_stat_sorted.
Qed.

(** X9 on the statistics of the specification: a first exposure of a
    variant C adds its row at the end, and no key is there twice. *)
Lemma bump_keeps_one_row_per_key_witness :
  exists d',
    bump_hint_stats "c" "c_undeclared_identifier" 1 "C" 1 0 0 Cases.stats_db
    = inr d'
    /\ NoDup (map stat_key (hint_stats Cases.stats_db))
    /\ NoDup (map stat_key (hint_stats d'))
    /\ map stat_key (hint_stats d')
       = map stat_key (hint_stats Cases.stats_db) ++ [Cases.key_C].
Proof.
  eexists. split; [reflexivity|].
  assert (Hn : NoDup (map stat_key (hint_stats Cases.stats_db))).
  { repeat constructor; cbn; intuition discriminate. }
  split; [exact Hn|].
  exact (@bump_keeps_one_row_per_key "c" "c_undeclared_identifier" 1 "C"
           1 0 0 Cases.stats_db _ eq_refl Hn).
Defined.

(** X10 on the statistics of the specification: an improvement of
    variant A and a first exposure of variant C, in both orders. *)
Lemma bumps_commute_on_counters_witness :
  exists d1 d12 d2 d21,
    bump_hint_stats "c" "c_undeclared_identifier" 1 "A" 0 1 3 Cases.stats_db
    = inr d1
    /\ bump_hint_stats "c" "c_undeclared_identifier" 1 "C" 1 0 0 d1 = inr d12
    /\ bump_hint_stats "c" "c_undeclared_identifier" 1 "C" 1 0 0
         Cases.stats_db = inr d2
    /\ bump_hint_stats "c" "c_undeclared_identifier" 1 "A" 0 1 3 d2 = inr d21
    /\ improvements_of Cases.key_A (hint_stats d12) = 10
    /\ improvements_of Cases.key_A (hint_stats d21) = 10
    /\ lookup_stat Cases.key_C (hint_stats d12)
       = lookup_stat Cases.key_C (hint_stats d21).
Proof.
  do 4 eexists.
  split; [reflexivity|]. split; [reflexivity|].
  split; [reflexivity|]. split; [reflexivity|].
  split; [reflexivity|].
  destruct (@bumps_commute_on_counters
              "c" "c_undeclared_identifier" 1 "A" 0 1 3
              "c" "c_undeclared_identifier" 1 "C" 1 0 0
              Cases.stats_db _ _ _ _ eq_refl eq_refl eq_refl eq_refl)
    as (Hc & Hl & _).
  split; [rewrite <- (proj2 (Hc Cases.key_A)); reflexivity|].
  apply Hl. discriminate.
Defined.

End DbFacts.
(** ** More on the engine *)

Module EngineFacts.
Import HintEngine HintEngineFacts DbTerms DbFacts EngineTerms.

(** *** Frames *)

Lemma same_store_refl w : same_store w w.
Proof. repeat split. Qed.

Lemma same_store_trans w1 w2 w3 :
  same_store w1 w2 -> same_store w2 w3 -> same_store w1 w3.
Proof. unfold same_store. intros (? & ? & ?) (? & ? & ?). repeat split; congruence. Qed.

Lemma choose_variant_same_store l c h catalog :
  respects same_store (_choose_variant l c h catalog).
Proof.
  apply (@respects_choose_variant same_store (fun _ => true));
    first [ exact same_store_refl | exact same_store_trans
          | (intros; repeat split) ].
Qed.


(** *** The catalog *)



(** *** The selection of a variant *)

Lemma variant_names_nonempty entry : variant_names entry <> [].
Proof.
  unfold variant_names. destruct (variants entry) as [[|? ?]|]; discriminate.
Qed.

Lemma nth_mod_In (l : list string) (n : nat) :
  l <> [] -> In (nth (Nat.modulo n (List.length l)) l "") l.
Proof.
  intros H. apply nth_In. apply Nat.mod_upper_bound.
  destruct l; [contradiction | discriminate].
Qed.

Lemma insert_desc_In {A : Type} (key : A -> float) x y l :
  In y (insert_desc key x l) <-> y = x \/ In y l.
Proof.
  induction l as [|z l IH]; cbn [insert_desc].
  - cbn. intuition.
  - destruct (key x <? key z)%float; cbn [In]; [rewrite IH|]; intuition.
Qed.

Lemma sorted_desc_In {A : Type} (key : A -> float) y l :
  In y (sorted_desc key l) <-> In y l.
Proof.
  induction l as [|x l IH]; [reflexivity|].
  cbn [sorted_desc fold_right]. fold (sorted_desc key l).
  rewrite insert_desc_In, IH. cbn. intuition.
Qed.

Lemma sorted_desc_first_In (key : string -> float) l :
  l <> [] -> In (nth 0 (sorted_desc key l) "") l.
Proof.
  intros H. apply (sorted_desc_In key). apply nth_In.
  destruct l as [|x l]; [contradiction|].
  pose proof (@sorted_desc_nonempty _ key x l) as Hn.
  destruct (sorted_desc key (x :: l)); [contradiction | cbn; lia].
Qed.

(** A variant has a score after the loop exactly when it has a row. *)
Lemma score_rows_mem stats acc sc v :
  score_rows stats acc = Some sc ->
  dict_mem v sc = true
  <-> dict_mem v acc = true \/ In v (map Db.HintStat.hint_variant stats).
Proof.
  revert acc. induction stats as [|row stats IH]; intros acc H.
  - cbn in H. injection H as <-. cbn. intuition.
  - cbn [score_rows] in H. destruct (variant_score row) as [s|]; [|discriminate].
    rewrite (IH _ H). cbn [map In]. unfold dict_mem.
    destruct (String.eqb (Db.HintStat.hint_variant row) v) eqn:E.
    + apply String.eqb_eq in E. subst v. rewrite dict_get_set_same.
      intuition.
    + apply String.eqb_neq in E.
      rewrite dict_get_set_other by congruence. intuition.
Qed.

(** The variant returned is one of the names. *)
Lemma choose_variant_In language cluster_key hint_level catalog w w' v :
  _choose_variant language cluster_key hint_level catalog w = (Return v, w') ->
  In v (variant_names (entry_for_choice catalog cluster_key)).
Proof.
  intros H.
  pose proof (variant_names_nonempty (entry_for_choice catalog cluster_key))
    as Hne.
  unfold _choose_variant in H.
  set (names := variant_names (entry_for_choice catalog cluster_key)) in *.
  destruct (List.length names =? 1)%nat eqn:El.
  - injection H as <- _. apply nth_In. apply Nat.eqb_eq in El. lia.
  - apply bind_return in H as (r & w1 & _ & H).
    destruct (r <? epsilon)%float.
    + apply bind_return in H as (u1 & w2 & _ & H).
      apply bind_return in H as (g & w3 & _ & H).
      apply bind_return in H as (u2 & w4 & _ & H).
      injection H as <- _. now apply nth_mod_In.
    + apply bind_return in H as (stats & w2 & _ & H).
      destruct (score_rows stats []) as [sc|]; [|discriminate].
      destruct (filter _ names) as [|u unseen] eqn:Ef.
      * injection H as <- _. now apply sorted_desc_first_In.
      * apply bind_return in H as (u1 & w3 & _ & H).
        apply bind_return in H as (g & w4 & _ & H).
        apply bind_return in H as (u2 & w5 & _ & H).
        injection H as <- _.
        assert (Hsub : forall x, In x (u :: unseen) -> In x names).
        { intros x Hx. rewrite <- Ef in Hx. now apply filter_In in Hx. }
        apply Hsub.
        apply (@nth_mod_In (u :: unseen) (picks g (used g))). discriminate.
Qed.

(** X13. The variant selected is always one the catalog offers for the
    cluster (a name under "variants" of the entry resolved for it, or
    "default" when the entry has none); selecting reads the statistics but
    never writes the database, the cache or the catalog, and draws from the
    random source twice at most. *)
Theorem selected_variant_is_offered (language cluster_key : string)
    (hint_level : Z) (catalog : Catalog) (w w' : world) (v : string) :
  _choose_variant language cluster_key hint_level catalog w = (Return v, w') ->
  In v (variant_names (entry_for_choice catalog cluster_key))
  /\ db w' = db w
  /\ catalog_cache w' = catalog_cache w
  /\ (used (random w') <= used (random w) + 2)%nat
  /\ draws (random w') = draws (random w)
  /\ picks (random w') = picks (random w).
Proof.
  intros H.
  pose proof (variant_names_nonempty (entry_for_choice catalog cluster_key))
    as Hne.
  unfold _choose_variant in H.
  set (names := variant_names (entry_for_choice catalog cluster_key)) in *.
  destruct w as [d cache files g tr].
  destruct (List.length names =? 1)%nat eqn:El.
  - injection H as <- <-. cbn. repeat split; try lia.
    apply nth_In. apply Nat.eqb_eq in El. lia.
  - cbv [bind random_random record read_rng write_rng next_rng ret
         get_hint_stats read_db random_choice raise
         random db calls catalog_cache catalog_files] in H.
    cbn [draws picks used] in H.
    destruct (draws g (used g) <? epsilon)%float.
    + injection H as <- <-. cbn. repeat split; try lia.
      now apply nth_mod_In.
    + destruct (score_rows _ []) as [sc|]; [|discriminate].
      destruct (filter _ names) as [|u unseen] eqn:Ef.
      * injection H as <- <-. cbn. repeat split; try lia.
        now apply sorted_desc_first_In.
      * injection H as <- <-. cbn [db catalog_cache random used draws picks].
        repeat split; try lia.
        assert (Hin : In (nth (Nat.modulo (picks g (S (used g)))
                                 (List.length (u :: unseen)))
                            (u :: unseen) "") (u :: unseen))
          by (apply nth_mod_In; discriminate).
        assert (Hsub : forall x, In x (u :: unseen) -> In x names).
        { intros x Hx. rewrite <- Ef in Hx. now apply filter_In in Hx. }
        now apply Hsub.
Qed.

(** X14. A variant without statistics is tried before the scores are
    compared: outside exploration (more than one variant, the draw is not
    below epsilon), when some variant of the cluster has no row of
    statistics at the level, the selection returns one of the variants
    without a row, by one random choice among them, and leaves the database
    as it is. *)
Theorem unseen_variant_is_tried_first (language cluster_key : string)
    (hint_level : Z) (catalog : Catalog) (w : world)
    (sc : list (string * float)) (u : string) :
  let names := variant_names (entry_for_choice catalog cluster_key) in
  let stats := Db.get_hint_stats language cluster_key hint_level (db w) in
  List.length names <> 1%nat ->
  (draws (random w) (used (random w)) <? epsilon)%float = false ->
  score_rows stats [] = Some sc ->
  In u names -> ~ In u (map Db.HintStat.hint_variant stats) ->
  exists v w',
    _choose_variant language cluster_key hint_level catalog w = (Return v, w')
    /\ In v names
    /\ ~ In v (map Db.HintStat.hint_variant stats)
    /\ db w' = db w
    /\ calls w'
       = calls w ++ [RandomRandom;
                     GetHintStats language cluster_key hint_level;
                     RandomChoice].
Proof.
  intros names stats Hlen Hdraw Hsc Hu Hnew.
  unfold _choose_variant. fold names.
  apply Nat.eqb_neq in Hlen. rewrite Hlen.
  subst stats. destruct w as [d cache files g tr].
  cbn [random db] in *.
  cbv [bind random_random record read_rng write_rng next_rng ret
       get_hint_stats read_db random_choice
       random db calls catalog_cache catalog_files].
  cbn [draws picks used]. rewrite Hdraw, Hsc.
  assert (Hf : forall x,
             In x (filter (fun v => negb (dict_mem v sc)) names) <->
             In x names
             /\ ~ In x (map Db.HintStat.hint_variant
                          (Db.get_hint_stats language cluster_key hint_level d))).
  { intros x. rewrite filter_In, negb_true_iff.
    pose proof (@score_rows_mem _ _ _ x Hsc) as Hm. cbn in Hm.
    destruct (dict_mem x sc); intuition discriminate. }
  destruct (filter (fun v => negb (dict_mem v sc)) names) as [|u0 unseen] eqn:Ef.
  - exfalso. apply (proj2 (Hf u)). now split.
  - eexists _, _. split; [reflexivity|].
    cbn [db calls].
    assert (Hin : In (nth (Nat.modulo (picks g (S (used g)))
                             (List.length (u0 :: unseen)))
                        (u0 :: unseen) "") (u0 :: unseen))
      by (apply nth_mod_In; discriminate).
    apply Hf in Hin as [H1 H2].
    repeat split; try assumption.
    now rewrite <- !app_assoc.
Qed.


(** *** Runs of the calls to the database *)

Lemma get_last_run s l q qq sl w :
  exists w1,
    get_last_attempt_for_context s l q qq sl w
    = (Return (Db.get_last_attempt_for_context s l q qq sl (db w)), w1)
    /\ db w1 = db w /\ catalog_cache w1 = catalog_cache w
    /\ catalog_files w1 = catalog_files w /\ random w1 = random w
    /\ calls w1 = calls w ++ [GetLastAttempt s l q qq sl].
Proof.
  destruct w as [d cache files g tr]. eexists. split; [reflexivity|].
  repeat split.
Qed.

Lemma insert_attempt_db row w :
  exists w1,
    insert_attempt row w = (Return (fst (Db.insert_attempt row (db w))), w1)
    /\ db w1 = snd (Db.insert_attempt row (db w))
    /\ catalog_cache w1 = catalog_cache w
    /\ calls w1 = calls w ++ [InsertAttempt row].
Proof.
  destruct w as [d cache files g tr]. eexists. split; [reflexivity|].
  repeat split.
Qed.

Lemma bump_hint_stats_db l c h v e i x w out w' :
  bump_hint_stats l c h v e i x w = (out, w') ->
  catalog_cache w' = catalog_cache w
  /\ calls w' = calls w ++ [BumpHintStats l c h v e i x]
  /\ match out with
     | Return _ => Db.bump_hint_stats l c h v e i x (db w) = inr (db w')
     | Raise err =>
         Db.bump_hint_stats l c h v e i x (db w) = inl err /\ db w' = db w
     end.
Proof.
  destruct w as [d cache files g tr].
  cbv [bump_hint_stats bind record read_db write_db raise
       db catalog_cache catalog_files random calls].
  destruct (Db.bump_hint_stats l c h v e i x d) as [err|d'];
    intros [= <- <-]; repeat split.
Qed.

Lemma update_attempt_improvement_db id improved delta w :
  exists w1,
    update_attempt_improvement id improved delta w = (Return tt, w1)
    /\ db w1 = Db.update_attempt_improvement id improved delta (db w)
    /\ catalog_cache w1 = catalog_cache w
    /\ calls w1 = calls w ++ [UpdateAttemptImprovement id improved delta].
Proof.
  destruct w as [d cache files g tr]. eexists. split; [reflexivity|].
  repeat split.
Qed.

Lemma load_catalog_cached l w out w1 :
  _load_catalog l w = (out, w1) ->
  exists c, out = Return c /\ dict_get l (catalog_cache w1) = Some c
            /\ db w1 = db w.
Proof.
  destruct w as [d cache files g tr]. unfold _load_catalog.
  cbn [catalog_cache catalog_files].
  destruct (dict_get l cache) as [c0|] eqn:E.
  - intros [= <- <-]. exists c0. repeat split. exact E.
  - destruct (files l) as [c|];
      cbv [bind record write_cache ret db catalog_cache catalog_files random
           calls]; intros [= <- <-]; eexists; (split; [reflexivity|]);
      cbn [catalog_cache db]; rewrite dict_get_set_same; now split.
Qed.

Section Training.

Variable py_round : float -> Z -> float.
Variable sha256_hexdigest : string -> string.
Variable json_dumps : list string -> string.

(** The feedback step, read on the database. *)
Lemma learn_db req previous w out w' :
  learn_from_previous py_round req previous w = (out, w') ->
  catalog_cache w' = catalog_cache w
  /\ match out with
     | Return li =>
         feedback_db req previous (db w) = inr (db w')
         /\ li = match previous with
                 | Some p =>
                     if has_hint p then
                       Some {| Schemas.previous_hint_improved_score :=
                                 (1e-9 <? score_delta req p)%float;
                               Schemas.previous_delta_score :=
                                 py_round (score_delta req p) 4 |}
                     else None
                 | None => None
                 end
     | Raise err =>
         feedback_db req previous (db w) = inl err
         /\ map clear_feedback (Db.attempts (db w'))
            = map clear_feedback (Db.attempts (db w))
         /\ Db.attempts_seq (db w') = Db.attempts_seq (db w)
         /\ Db.hint_stats (db w') = Db.hint_stats (db w)
     end.
Proof.
  unfold learn_from_previous, feedback_db.
  destruct previous as [p|]; [|intros [= <- <-]; repeat split].
  destruct (has_hint p); [|intros [= <- <-]; repeat split].
  fold (score_delta req p). cbv zeta. intros H.
  destruct (update_attempt_improvement_db (Db.Attempt.id p)
              (1e-9 <? score_delta req p)%float (score_delta req p) w)
    as (w1 & E1 & D1 & C1 & _).
  apply bind_inv in H as [(e & H & _) | (u & w1' & H1 & H)];
    [rewrite E1 in H; discriminate |].
  rewrite E1 in H1. injection H1 as _ <-.
  apply bind_inv in H as [(e & H & ->) | (u' & w2 & H2 & H)].
  - apply bump_hint_stats_db in H as (C2 & _ & B2 & D2).
    rewrite <- D1. split; [congruence |]. split; [exact B2|].
    rewrite D2, D1. split; [apply update_keeps_rows|]. now split.
  - apply bump_hint_stats_db in H2 as (C2 & _ & B2).
    injection H as <- <-. rewrite <- D1. split; [congruence|].
    split; [exact B2 | reflexivity].
Qed.

(** A training request for C that is handled, read on the database: the
    feedback, the exposure of the selected hint, the new attempt. *)
Lemma training_run req w resp w' :
  Schemas.mode req = "training" -> request_language req = "c" ->
  handle_hint py_round sha256_hexdigest json_dumps req w = (Return resp, w') ->
  let previous := previous_of req w in
  let analysis := CAdapter.analyze req in
  let cluster := CAdapter.cluster_key analysis in
  let level := _decide_level previous in
  exists d2 catalog hv d5,
    feedback_db req previous (db w) = inr d2
    /\ dict_get "c" (catalog_cache w') = Some catalog
    /\ In hv (variant_names (entry_for_choice catalog cluster))
    /\ Db.bump_hint_stats "c" cluster level hv 1 0 0 d2 = inr d5
    /\ db w'
       = snd (Db.insert_attempt
                (new_attempt sha256_hexdigest json_dumps req "c" analysis
                   level hv (_resolve_hint_text catalog cluster level hv))
                d5)
    /\ resp
       = {| Schemas.enabled := true;
            Schemas.hint_level := level;
            Schemas.hint_type := CAdapter.hint_type analysis;
            Schemas.cluster_key := cluster;
            Schemas.hint_text :=
              _resolve_hint_text catalog cluster level hv;
            Schemas.confidence :=
              py_round (CAdapter.confidence analysis) 3;
            Schemas.hint_variant := hv;
            Schemas.learning :=
              match previous with
              | Some p =>
                  if has_hint p then
                    Some {| Schemas.previous_hint_improved_score :=
                              (1e-9 <? score_delta req p)%float;
                            Schemas.previous_delta_score :=
                              py_round (score_delta req p) 4 |}
                  else None
              | None => None
              end |}.
Proof.
  intros Hm Hl H. cbv zeta.
  rewrite (@handle_training py_round sha256_hexdigest json_dumps req w Hm Hl)
    in H.
  apply bind_return in H as (u1 & w1 & H1 & H).
  assert (D1 : db w1 = db w) by (injection H1 as _ <-; reflexivity).
  destruct (get_last_run (Schemas.student_id req) "c" (Schemas.quiz_id req)
              (Schemas.question_id req) (Schemas.question_slot req) w1)
    as (w2 & E2 & D2 & _).
  apply bind_return in H as (previous & w2' & H2 & H).
  rewrite E2 in H2. injection H2 as <- <-.
  rewrite D1 in H. fold (previous_of req w) in H.
  apply bind_return in H as (li & w3 & H3 & H).
  apply learn_db in H3 as (C3 & F3 & ->). rewrite D2, D1 in F3.
  apply bind_return in H as (catalog & w4 & H4 & H).
  apply load_catalog_cached in H4 as (c' & [= <-] & K4 & D4).
  apply bind_return in H as (hv & w5 & H5 & H).
  pose proof (@choose_variant_same_store _ _ _ _ _ _ _ H5) as (D5 & C5 & _).
  apply bind_return in H as (u6 & w6 & H6 & H).
  apply bump_hint_stats_db in H6 as (C6 & _ & B6).
  apply bind_return in H as (nid & w7 & H7 & H).
  match type of H7 with
  | insert_attempt ?row _ = _ =>
      destruct (insert_attempt_db row w6) as (w7' & E7 & D7 & C7 & _)
  end.
  rewrite E7 in H7. injection H7 as _ <-. injection H as <- <-.
  exists (db w3), catalog, hv, (db w6).
  split; [exact F3|].
  split; [congruence|].
  split.
  { exact (@choose_variant_In _ _ _ _ _ _ _ H5). }
  split; [rewrite <- D4, <- D5; exact B6|].
  split; [exact D7 | reflexivity].
Qed.


Lemma decide_level_range previous : 1 <= _decide_level previous <= 3.
Proof.
  unfold _decide_level. destruct previous as [p|]; [|lia].
  destruct (0.999 <=? prevratio p)%float; lia.
Qed.

(** X15. Every training request for C that is handled is answered with
    enabled = true, a level between 1 and 3, a text that is not empty, the
    cluster and hint type of one rule of the analyzer with that rule's
    confidence rounded to 3 digits, and a variant that the catalog in the
    cache offers for the cluster; the text is the one the catalog resolves
    for that cluster, level and variant. *)
Theorem training_response_is_well_formed (req : Schemas.HintRequest)
    (w w' : world) (resp : Schemas.HintResponse) :
  Schemas.mode req = "training" -> request_language req = "c" ->
  handle_hint py_round sha256_hexdigest json_dumps req w = (Return resp, w') ->
  Schemas.enabled resp = true
  /\ 1 <= Schemas.hint_level resp <= 3
  /\ PyStr.nonempty (Schemas.hint_text resp) = true
  /\ (exists conf,
        In (Schemas.cluster_key resp, Schemas.hint_type resp, conf)
          CAdapter.VERDICTS
        /\ Schemas.confidence resp = py_round conf 3)
  /\ exists catalog,
       dict_get "c" (catalog_cache w') = Some catalog
       /\ In (Schemas.hint_variant resp)
            (variant_names
               (entry_for_choice catalog (Schemas.cluster_key resp)))
       /\ Schemas.hint_text resp
          = _resolve_hint_text catalog (Schemas.cluster_key resp)
              (Schemas.hint_level resp) (Schemas.hint_variant resp).
Proof.
  intros Hm Hl H.
  destruct (@training_run _ _ _ _ Hm Hl H)
    as (d2 & catalog & hv & d5 & _ & K & Hin & _ & _ & ->).
  cbn [Schemas.enabled Schemas.hint_level Schemas.hint_text
       Schemas.cluster_key Schemas.hint_type Schemas.confidence
       Schemas.hint_variant].
  split; [reflexivity|]. split; [apply decide_level_range|].
  split; [apply text_of_nonempty|]. split.
  - exists (CAdapter.confidence (CAdapter.analyze req)).
    split; [|reflexivity]. apply CAdapterFacts.analyze_verdict.
  - exists catalog. repeat split; assumption.
Qed.

(** The feedback step on the counters of every key. *)
Lemma feedback_counts req previous d d2 k :
  feedback_db req previous d = inr d2 ->
  exposures_of k (Db.hint_stats d2) = exposures_of k (Db.hint_stats d)
  /\ improvements_of k (Db.hint_stats d2)
     = improvements_of k (Db.hint_stats d) + improvement_due req previous k.
Proof.
  unfold feedback_db, improvement_due.
  destruct previous as [p|]; [|intros [= <-]; lia].
  destruct (has_hint p); [|intros [= <-]; cbn [andb]; lia].
  cbv zeta. intros H. apply bump_inr in H as (H & _).
  cbn [Db.hint_stats Db.update_attempt_improvement] in H.
  destruct (@upsert_counts _ _ _ _ _ _ _ _ _ k H) as [He Hi].
  fold (feedback_key p) in He, Hi. cbn [andb].
  rewrite He, Hi.
  destruct (key_eqb k (feedback_key p)), (1e-9 <? score_delta req p)%float;
    cbn [andb]; lia.
Qed.

Lemma insert_keeps_stats row d :
  Db.hint_stats (snd (Db.insert_attempt row d)) = Db.hint_stats d.
Proof. reflexivity. Qed.

(** X16. A training request for C that is handled counts one exposure, on
    the key (language, cluster, level, variant) of the hint it returns: the
    exposures of that key grow by one and those of every other key stay,
    whatever the feedback on the previous attempt did. *)
Theorem request_counts_one_exposure (req : Schemas.HintRequest)
    (w w' : world) (resp : Schemas.HintResponse) :
  Schemas.mode req = "training" -> request_language req = "c" ->
  handle_hint py_round sha256_hexdigest json_dumps req w = (Return resp, w') ->
  forall k,
    exposures_of k (Db.hint_stats (db w'))
    = exposures_of k (Db.hint_stats (db w))
      + (if key_eqb k (response_key resp) then 1 else 0).
Proof.
  intros Hm Hl H k.
  destruct (@training_run _ _ _ _ Hm Hl H)
    as (d2 & catalog & hv & d5 & F & _ & _ & B & -> & ->).
  rewrite insert_keeps_stats.
  apply bump_inr in B as (B & _).
  destruct (@upsert_counts _ _ _ _ _ _ _ _ _ k B) as [He _].
  destruct (@feedback_counts _ _ _ _ k F) as [Fe _].
  rewrite He, Fe. reflexivity.
Qed.

(** X17. The feedback loop counts an improvement exactly when it is due: in
    a training request for C that is handled, the improvements of the key
    of the previous attempt's hint grow by one when that attempt carries a
    hint and the score has grown by more than 1e-9; in every other case, and
    for every other key, the improvements stay. *)
Theorem feedback_counts_the_improvement (req : Schemas.HintRequest)
    (w w' : world) (resp : Schemas.HintResponse) :
  Schemas.mode req = "training" -> request_language req = "c" ->
  handle_hint py_round sha256_hexdigest json_dumps req w = (Return resp, w') ->
  forall k,
    improvements_of k (Db.hint_stats (db w'))
    = improvements_of k (Db.hint_stats (db w))
      + improvement_due req (previous_of req w) k.
Proof.
  intros Hm Hl H k.
  destruct (@training_run _ _ _ _ Hm Hl H)
    as (d2 & catalog & hv & d5 & F & _ & _ & B & -> & ->).
  rewrite insert_keeps_stats.
  apply bump_inr in B as (B & _).
  destruct (@upsert_counts _ _ _ _ _ _ _ _ _ k B) as [_ Hi].
  destruct (@feedback_counts _ _ _ _ k F) as [_ Fi].
  rewrite Hi, Fi. destruct (key_eqb k _); lia.
Qed.


(** The feedback step on the attempts. *)
Lemma feedback_attempts req previous d d2 :
  feedback_db req previous d = inr d2 ->
  map clear_feedback (Db.attempts d2) = map clear_feedback (Db.attempts d)
  /\ Db.attempts_seq d2 = Db.attempts_seq d.
Proof.
  unfold feedback_db.
  destruct previous as [p|]; [|intros [= <-]; now split].
  destruct (has_hint p); [|intros [= <-]; now split].
  cbv zeta. intros H. apply bump_inr in H as (_ & -> & ->).
  split; [apply update_keeps_rows | reflexivity].
Qed.

Lemma ids_In rows rows' (b : Db.Attempt.t) :
  map Db.Attempt.id rows = map Db.Attempt.id rows' ->
  In b rows -> exists b', In b' rows' /\ Db.Attempt.id b' = Db.Attempt.id b.
Proof.
  intros E Hb. apply (in_map Db.Attempt.id) in Hb. rewrite E in Hb.
  apply in_map_iff in Hb as (b' & Hid & Hb'). now exists b'.
Qed.

(** X18. The attempt that a handled training request for C stores is the
    one the next request of the same context finds as its previous
    attempt: its id is above every id of the table, it carries the cluster,
    level, variant and text of the response and the scores of the request,
    and no feedback yet.  So the level of the next hint in the context is
    the level of this response plus one, 3 at most, or 1 when the stored
    ratio is 0.999 or more.  The table has grown by this one row. *)
Theorem handled_attempt_is_the_next_previous (req : Schemas.HintRequest)
    (w w' : world) (resp : Schemas.HintResponse) :
  Schemas.mode req = "training" -> request_language req = "c" ->
  handle_hint py_round sha256_hexdigest json_dumps req w = (Return resp, w') ->
  exists a,
    previous_of req w' = Some a
    /\ (forall b, In b (Db.attempts (db w)) ->
          Db.Attempt.id b < Db.Attempt.id a)
    /\ Db.Attempt.cluster_key a = Some (Schemas.cluster_key resp)
    /\ Db.Attempt.hint_level a = Some (Schemas.hint_level resp)
    /\ Db.Attempt.hint_variant a = Some (Schemas.hint_variant resp)
    /\ Db.Attempt.hint_text a = Some (Schemas.hint_text resp)
    /\ Db.Attempt.score a
       = Db.sql_real (Schemas.score (Schemas.coderunner req))
    /\ Db.Attempt.max_score a
       = Db.sql_real (Schemas.max_score (Schemas.coderunner req))
    /\ Db.Attempt.improved_vs_previous a = None
    /\ Db.Attempt.delta_score a = None
    /\ _decide_level (Some a)
       = (if (0.999 <=? prevratio a)%float then 1
          else Z.min 3 (Schemas.hint_level resp + 1))
    /\ List.length (Db.attempts (db w'))
       = S (List.length (Db.attempts (db w))).
Proof.
  intros Hm Hl H.
  destruct (@training_run _ _ _ _ Hm Hl H)
    as (d2 & catalog & hv & d5 & F & _ & _ & B & D & ->).
  apply feedback_attempts in F as (F & _).
  apply bump_inr in B as (_ & B & _).
  match type of D with
  | _ = snd (Db.insert_attempt ?r _) => set (row := r) in *
  end.
  exists (Db.stored (fst (Db.insert_attempt row d5)) row).
  split.
  { unfold previous_of. rewrite D.
    exact (get_last_after_insert row d5). }
  split.
  { intros b Hb.
    rewrite <- B in F. apply clear_feedback_ids in F. symmetry in F.
    destruct (@ids_In _ _ b F Hb) as (b' & Hb' & <-).
    now apply new_id_above. }
  cbn [Schemas.cluster_key Schemas.hint_level Schemas.hint_variant
       Schemas.hint_text].
  do 8 (split; [reflexivity|]).
  split.
  - pose proof (decide_level_range (previous_of req w)) as Hr.
    set (lv := _decide_level (previous_of req w)) in *.
    set (a := Db.stored (fst (Db.insert_attempt row d5)) row).
    unfold _decide_level, prevlevel, Py.int_or.
    change (Db.Attempt.hint_level a) with (Some lv). cbv beta iota.
    destruct (lv =? 0) eqn:E0; [apply Z.eqb_eq in E0; lia|].
    destruct (0.999 <=? prevratio a)%float; [reflexivity | lia].
  - rewrite D.
    change (Db.attempts (snd (Db.insert_attempt row d5)))
      with (Db.attempts d5 ++ [Db.stored (fst (Db.insert_attempt row d5)) row]).
    rewrite length_app, B. cbn [List.length].
    apply (f_equal (@List.length _)) in F. rewrite !length_map in F.
    rewrite F. lia.
Qed.


(** *** The log of a request, and requests that fail *)

Lemma without_insert_trans w1 w2 w3 :
  without_insert w1 w2 -> without_insert w2 w3 -> without_insert w1 w3.
Proof.
  intros (e1 & E1 & N1) (e2 & E2 & N2). exists (e1 ++ e2).
  rewrite E2, E1, app_assoc, existsb_app, N1, N2. now split.
Qed.

Lemma quietly_without_insert w w' : quietly w w' -> without_insert w w'.
Proof.
  intros (evs & E & Q). exists evs. split; [exact E|].
  clear E. induction evs as [|e evs IH]; [reflexivity|].
  cbn [forallb existsb] in *. apply andb_true_iff in Q as [Qe Q].
  unfold quiet in Qe. apply andb_true_iff in Qe as [Qe _].
  apply negb_true_iff in Qe. now rewrite Qe, IH.
Qed.

(** The feedback step keeps the rows, the id counter and the exposures,
    whatever its outcome. *)
Lemma learn_keeps req previous w out w' :
  learn_from_previous py_round req previous w = (out, w') ->
  map clear_feedback (Db.attempts (db w'))
  = map clear_feedback (Db.attempts (db w))
  /\ Db.attempts_seq (db w') = Db.attempts_seq (db w)
  /\ (forall k, exposures_of k (Db.hint_stats (db w'))
                = exposures_of k (Db.hint_stats (db w))).
Proof.
  intros H. apply learn_db in H as (_ & H). destruct out as [li|err].
  - destruct H as (F & _).
    destruct (feedback_attempts _ _ _ F) as (A & S).
    repeat split; try assumption.
    intros k. now destruct (@feedback_counts _ _ _ _ k F).
  - destruct H as (_ & A & S & Hs). repeat split; try assumption.
    intros k. now rewrite Hs.
Qed.

(** The log of a training request for C begins with the call to the
    analyzer; when the request fails, nothing has been inserted, the rows
    and the exposures are as before. *)
Lemma training_outcome req w out w' :
  Schemas.mode req = "training" -> request_language req = "c" ->
  handle_hint py_round sha256_hexdigest json_dumps req w = (out, w') ->
  exists evs,
    calls w' = calls w ++ Analyze req :: evs
    /\ (forall err, out = Raise err ->
          existsb is_insert evs = false
          /\ map clear_feedback (Db.attempts (db w'))
             = map clear_feedback (Db.attempts (db w))
          /\ Db.attempts_seq (db w') = Db.attempts_seq (db w)
          /\ (forall k, exposures_of k (Db.hint_stats (db w'))
                        = exposures_of k (Db.hint_stats (db w)))).
Proof.
  intros Hm Hl H.
  rewrite (@handle_training py_round sha256_hexdigest json_dumps req w Hm Hl)
    in H.
  apply bind_inv in H as [(e & H & _) | (u1 & w1 & H1 & H)];
    [discriminate H|].
  assert (D1 : db w1 = db w) by (injection H1 as _ <-; reflexivity).
  assert (C1 : calls w1 = calls w ++ [Analyze req])
    by (injection H1 as _ <-; reflexivity).
  clear H1.
  destruct (get_last_run (Schemas.student_id req) "c" (Schemas.quiz_id req)
              (Schemas.question_id req) (Schemas.question_slot req) w1)
    as (w2 & E2 & D2 & _ & _ & _ & C2).
  apply bind_inv in H as [(e & H & _) | (previous & w2' & H2 & H)];
    [rewrite E2 in H; discriminate H|].
  rewrite E2 in H2. injection H2 as <- <-.
  assert (Q2 : without_insert w1 w2).
  { exists [GetLastAttempt (Schemas.student_id req) "c" (Schemas.quiz_id req)
              (Schemas.question_id req) (Schemas.question_slot req)].
    now split. }
  set (previous := Db.get_last_attempt_for_context _ _ _ _ _ _) in H.
  (* a failure from here on, in a world [wf] reached without an insertion
     and with the rows and the exposures kept *)
  assert (Fail : forall wf,
             without_insert w1 wf ->
             map clear_feedback (Db.attempts (db wf))
             = map clear_feedback (Db.attempts (db w)) ->
             Db.attempts_seq (db wf) = Db.attempts_seq (db w) ->
             (forall k, exposures_of k (Db.hint_stats (db wf))
                        = exposures_of k (Db.hint_stats (db w))) ->
             wf = w' ->
             exists evs,
               calls w' = calls w ++ Analyze req :: evs
               /\ (forall err, out = Raise err ->
                     existsb is_insert evs = false
                     /\ map clear_feedback (Db.attempts (db w'))
                        = map clear_feedback (Db.attempts (db w))
                     /\ Db.attempts_seq (db w') = Db.attempts_seq (db w)
                     /\ (forall k, exposures_of k (Db.hint_stats (db w'))
                                   = exposures_of k (Db.hint_stats (db w))))).
  { intros wf (evs & E & N) A S X <-. exists evs.
    split; [rewrite E, C1, <- app_assoc; reflexivity|].
    intros err _. repeat split; assumption. }
  apply bind_inv in H as [(e & H & _) | (li & w3 & H3 & H)].
  { pose proof (@learn_quietly py_round req previous _ _ _ H) as Q.
    apply learn_keeps in H as (A & S & X).
    apply (Fail w').
    - apply without_insert_trans with w2; [exact Q2|].
      now apply quietly_without_insert.
    - now rewrite A, D2, D1.
    - now rewrite S, D2, D1.
    - intros k. now rewrite X, D2, D1.
    - reflexivity. }
  pose proof (@learn_quietly py_round req previous _ _ _ H3) as Q3.
  apply quietly_without_insert in Q3.
  apply learn_keeps in H3 as (A3 & S3 & X3).
  rewrite D2, D1 in A3, S3. 
  assert (X3' : forall k, exposures_of k (Db.hint_stats (db w3))
                          = exposures_of k (Db.hint_stats (db w)))
    by (intros k; now rewrite X3, D2, D1).
  clear X3.
  apply bind_inv in H as [(e & H & _) | (catalog & w4 & H4 & H)].
  { apply load_catalog_cached in H as (c & Hc & _). discriminate Hc. }
  pose proof (@load_catalog_quietly _ _ _ _ H4) as Q4.
  apply quietly_without_insert in Q4.
  apply load_catalog_cached in H4 as (_ & _ & _ & D4).
  apply bind_inv in H as [(e & H & _) | (hv & w5 & H5 & H)].
  { pose proof (@choose_variant_quietly _ _ _ _ _ _ _ H) as Q.
    apply quietly_without_insert in Q.
    apply choose_variant_same_store in H as (D & _).
    apply (Fail w').
    - eauto using without_insert_trans.
    - now rewrite D, D4.
    - now rewrite D, D4.
    - intros k. now rewrite D, D4.
    - reflexivity. }
  pose proof (@choose_variant_quietly _ _ _ _ _ _ _ H5) as Q5.
  apply quietly_without_insert in Q5.
  apply choose_variant_same_store in H5 as (D5 & _).
  assert (Q15 : without_insert w1 w5) by eauto using without_insert_trans.
  apply bind_inv in H as [(e & H & _) | (u6 & w6 & H6 & H)].
  { apply bump_hint_stats_db in H as (_ & C & _ & D).
    apply (Fail w').
    - apply without_insert_trans with w5; [exact Q15|].
      eexists. split; [exact C | reflexivity].
    - now rewrite D, D5, D4.
    - now rewrite D, D5, D4.
    - intros k. now rewrite D, D5, D4.
    - reflexivity. }
  apply bump_hint_stats_db in H6 as (_ & C6 & _).
  match type of H with
  | bind (insert_attempt ?row) _ _ = _ =>
      destruct (insert_attempt_db row w6) as (w7 & E7 & _ & _ & C7)
  end.
  apply bind_inv in H as [(e & H & _) | (nid & w7' & H7 & H)];
    [rewrite E7 in H; discriminate H|].
  rewrite E7 in H7. injection H7 as _ <-. injection H as <- <-.
  destruct Q15 as (evs & E5 & _).
  eexists. split; [|discriminate].
  rewrite C7, C6, E5, C1, <- !app_assoc. reflexivity.
Qed.


End Training.

(** *** The language of a request *)

Lemma lower_char_is_c (a : ascii) :
  PyStr.lower_char a = "c"%char -> a = "c"%char \/ a = "C"%char.
Proof.
  destruct a as [[] [] [] [] [] [] [] []]; cbv; intros H;
    first [discriminate H | now left | now right].
Qed.

Lemma request_language_c req :
  request_language req = "c" <-> In (Schemas.language req) [""; "c"; "C"].
Proof.
  unfold request_language. split.
  - destruct (Schemas.language req) as [|a [|b s]]; cbn [PyStr.nonempty].
    + intros _. now left.
    + cbn [PyStr.lower]. intros [= H].
      apply lower_char_is_c in H as [-> | ->]; cbn; auto.
    + cbn [PyStr.lower]. discriminate.
  - intros [<- | [<- | [<- | []]]]; reflexivity.
Qed.

Section Languages.

Variable py_round : float -> Z -> float.
Variable sha256_hexdigest : string -> string.
Variable json_dumps : list string -> string.

(** X20. Of the training requests exactly those whose language is "c", "C"
    or empty reach the analyzer.  Every other language is answered at once
    with the generic hint of level 1 under the cluster
    <language in lower case>_unsupported_mvp and confidence 0.25, and
    nothing is called or written: no attempt is stored for it and no
    counter moves. *)
Theorem only_c_reaches_the_analyzer (req : Schemas.HintRequest) (w : world) :
  Schemas.mode req = "training" ->
  (~ In (Schemas.language req) [""; "c"; "C"] ->
   handle_hint py_round sha256_hexdigest json_dumps req w
   = (Return (unsupported_response (PyStr.lower (Schemas.language req))), w)
   /\ Schemas.cluster_key
        (unsupported_response (PyStr.lower (Schemas.language req)))
      = (PyStr.lower (Schemas.language req) ++ "_unsupported_mvp")%string)
  /\ (In (Schemas.language req) [""; "c"; "C"] ->
      exists rest,
        calls (snd (handle_hint py_round sha256_hexdigest json_dumps req w))
        = calls w ++ Analyze req :: rest).
Proof.
  intros Hm. split.
  - intros Hl. split; [|reflexivity].
    unfold handle_hint. rewrite Hm. cbn [String.eqb Ascii.eqb negb].
    assert (E : request_language req <> "c")
      by (intros E; now apply request_language_c in E).
    apply String.eqb_neq in E. rewrite E. cbn [negb].
    unfold request_language.
    destruct (Schemas.language req) as [|a s] eqn:El; [|reflexivity].
    exfalso. apply Hl. now left.
  - intros Hl. apply request_language_c in Hl.
    destruct (handle_hint py_round sha256_hexdigest json_dumps req w)
      as [out w'] eqn:H.
    destruct (@training_outcome py_round sha256_hexdigest json_dumps
                _ _ _ _ Hm Hl H) as (evs & C & _).
    now exists evs.
Qed.

End Languages.

(** *** The statements on runs of the engine *)

(** X13 under a random source that explores (the draw is 0.0) and picks
    the second variant: B is returned after two draws, and the database is
    as before. *)
Lemma selected_variant_is_offered_witness :
  let w := Scenarios.world_of [] Scenarios.stats_AB Scenarios.catalog_AB
             (Scenarios.constant_rng 0 1) in
  exists w',
    _choose_variant "c" "c_undeclared_identifier" 1 Scenarios.catalog_AB w
    = (Return "B", w')
    /\ In "B" (variant_names
                 (entry_for_choice Scenarios.catalog_AB
                    "c_undeclared_identifier"))
    /\ db w' = db w
    /\ used (random w') = 2%nat.
Proof.
  cbv zeta. eexists. split; [reflexivity|].
  destruct (@selected_variant_is_offered "c" "c_undeclared_identifier" 1
              Scenarios.catalog_AB
              (Scenarios.world_of [] Scenarios.stats_AB Scenarios.catalog_AB
                 (Scenarios.constant_rng 0 1)) _ "B" eq_refl)
    as (Hin & Hdb & _).
  split; [exact Hin|]. split; [exact Hdb | reflexivity].
Defined.

(** X14 with statistics for variant A only and no exploration (the draw
    is 0.5): B, which has no row, is returned. *)
Lemma unseen_variant_is_tried_first_witness :
  let w := Scenarios.world_of [] Cases.stats_A Scenarios.catalog_AB
             (Scenarios.constant_rng 0.5 0) in
  exists v w',
    _choose_variant "c" "c_undeclared_identifier" 1 Scenarios.catalog_AB w
    = (Return v, w')
    /\ v = "B"
    /\ ~ In v (map Db.HintStat.hint_variant
                 (Db.get_hint_stats "c" "c_undeclared_identifier" 1 (db w))).
Proof.
  cbv zeta.
  assert (Hsc : exists sc,
             score_rows
               (Db.get_hint_stats "c" "c_undeclared_identifier" 1
                  (db (Scenarios.world_of [] Cases.stats_A
                         Scenarios.catalog_AB (Scenarios.constant_rng 0.5 0))))
               [] = Some sc)
    by (eexists; vm_compute; reflexivity).
  destruct Hsc as [sc Hsc].
  destruct (@unseen_variant_is_tried_first "c" "c_undeclared_identifier" 1
              Scenarios.catalog_AB
              (Scenarios.world_of [] Cases.stats_A Scenarios.catalog_AB
                 (Scenarios.constant_rng 0.5 0))
              sc "B")
    as (v & w' & E & _ & Hnew & _).
  - discriminate.
  - reflexivity.
  - exact Hsc.
  - right. now left.
  - cbn. intuition discriminate.
  - exists v, w'. split; [exact E|]. split; [|exact Hnew].
    vm_compute in E. now injection E as <- _.
Defined.

(** X15 on the second request of a context (the previous attempt scored
    4 out of 10 at level 1, the new one scores 7): the level is 2. *)
Lemma training_response_is_well_formed_witness :
  exists resp w',
    handle_hint Scenarios.round_id Scenarios.hash_id
       Scenarios.dumps_join (Cases.second_request 7) Cases.second_world = (Return resp, w')
    /\ Schemas.hint_level resp = 2
    /\ 1 <= Schemas.hint_level resp <= 3
    /\ PyStr.nonempty (Schemas.hint_text resp) = true.
Proof.
  destruct (handle_hint Scenarios.round_id Scenarios.hash_id
       Scenarios.dumps_join (Cases.second_request 7) Cases.second_world)
    as [[resp | e] w'] eqn:E.
  - destruct (@training_response_is_well_formed Scenarios.round_id
                Scenarios.hash_id Scenarios.dumps_join
                (Cases.second_request 7) Cases.second_world _ _
                eq_refl eq_refl E) as (_ & Hl & Ht & _).
    exists resp, w'. repeat split; try assumption; try apply Hl.
    vm_compute in E. now injection E as <- _.
  - vm_compute in E. discriminate E.
Defined.

(** X16 on the same request: the key of the returned hint (level 2,
    variant A) had no exposure and has one; the key of the previous hint
    (level 1, variant A) keeps its exposures. *)
Lemma request_counts_one_exposure_witness :
  let w' := snd (handle_hint Scenarios.round_id Scenarios.hash_id
       Scenarios.dumps_join (Cases.second_request 7) Cases.second_world) in
  let k := ("c", "c_undeclared_identifier", 2, "A") in
  exposures_of k (Db.hint_stats (db Cases.second_world)) = 0
  /\ exposures_of k (Db.hint_stats (db w')) = 1
  /\ exposures_of Cases.key_A (Db.hint_stats (db w'))
     = exposures_of Cases.key_A (Db.hint_stats (db Cases.second_world)).
Proof.
  cbv zeta.
  destruct (handle_hint Scenarios.round_id Scenarios.hash_id
       Scenarios.dumps_join (Cases.second_request 7) Cases.second_world)
    as [[resp | e] w'] eqn:E.
  - pose proof (@request_counts_one_exposure Scenarios.round_id
                  Scenarios.hash_id Scenarios.dumps_join
                  (Cases.second_request 7) Cases.second_world _ _
                  eq_refl eq_refl E) as H.
    assert (Er : resp = {| Schemas.enabled := true;
                           Schemas.hint_level := 2;
                           Schemas.hint_type := "compile_symbol";
                           Schemas.cluster_key := "c_undeclared_identifier";
                           Schemas.hint_text := "Dichiara x prima di usarla.";
                           Schemas.confidence := 0.92%float;
                           Schemas.hint_variant := "A";
                           Schemas.learning :=
                             Some {| Schemas.previous_hint_improved_score :=
                                       true;
                                     Schemas.previous_delta_score := 3 |} |}).
    { vm_compute in E. now injection E as <- _. }
    cbn [snd]. split; [reflexivity|]. split.
    + rewrite (H ("c", "c_undeclared_identifier", 2, "A")), Er. reflexivity.
    + rewrite (H Cases.key_A), Er. reflexivity.
  - vm_compute in E. discriminate E.
Defined.

(** X17 on the same request: the score has grown from 4 to 7, so the key
    of the previous hint goes from 9 improvements to 10. *)
Lemma feedback_counts_the_improvement_witness :
  let w' := snd (handle_hint Scenarios.round_id Scenarios.hash_id
       Scenarios.dumps_join (Cases.second_request 7) Cases.second_world) in
  improvement_due (Cases.second_request 7)
    (previous_of (Cases.second_request 7) Cases.second_world) Cases.key_A = 1
  /\ improvements_of Cases.key_A (Db.hint_stats (db Cases.second_world)) = 9
  /\ improvements_of Cases.key_A (Db.hint_stats (db w')) = 10.
Proof.
  cbv zeta.
  destruct (handle_hint Scenarios.round_id Scenarios.hash_id
       Scenarios.dumps_join (Cases.second_request 7) Cases.second_world)
    as [[resp | e] w'] eqn:E.
  - pose proof (@feedback_counts_the_improvement Scenarios.round_id
                  Scenarios.hash_id Scenarios.dumps_join
                  (Cases.second_request 7) Cases.second_world _ _
                  eq_refl eq_refl E Cases.key_A) as H.
    cbn [snd]. split; [reflexivity|]. split; [reflexivity|].
    rewrite H. reflexivity.
  - vm_compute in E. discriminate E.
Defined.

(** X18 on the same request: the attempt stored has id 2 and level 2,
    and the next hint of the context will be of level 3. *)
Lemma handled_attempt_is_the_next_previous_witness :
  let w' := snd (handle_hint Scenarios.round_id Scenarios.hash_id
       Scenarios.dumps_join (Cases.second_request 7) Cases.second_world) in
  exists a,
    previous_of (Cases.second_request 7) w' = Some a
    /\ Db.Attempt.id a = 2
    /\ Db.Attempt.hint_level a = Some 2
    /\ _decide_level (Some a) = 3.
Proof.
  cbv zeta.
  destruct (handle_hint Scenarios.round_id Scenarios.hash_id
       Scenarios.dumps_join (Cases.second_request 7) Cases.second_world)
    as [[resp | e] w'] eqn:E.
  - destruct (@handled_attempt_is_the_next_previous Scenarios.round_id
                Scenarios.hash_id Scenarios.dumps_join
                (Cases.second_request 7) Cases.second_world _ _
                eq_refl eq_refl E) as (a & Hp & _).
    cbn [snd]. exists a. split; [exact Hp|].
    vm_compute in E. injection E as _ <-.
    vm_compute in Hp. injection Hp as <-. repeat split.
  - vm_compute in E. discriminate E.
Defined.


(** X20 on a training request in "Python": the generic hint under the
    cluster python_unsupported_mvp, and the world as it was. *)
Lemma only_c_reaches_the_analyzer_witness :
  handle_hint Scenarios.round_id Scenarios.hash_id
    Scenarios.dumps_join Cases.python_request Cases.second_world
  = (Return (unsupported_response "python"), Cases.second_world)
  /\ Schemas.cluster_key (unsupported_response "python")
     = "python_unsupported_mvp".
Proof.
  assert (Hn : ~ In (Schemas.language Cases.python_request) [""; "c"; "C"])
    by (cbn; intuition discriminate).
  exact (proj1 (@only_c_reaches_the_analyzer Scenarios.round_id
                  Scenarios.hash_id Scenarios.dumps_join
                  Cases.python_request Cases.second_world eq_refl) Hn).
Defined.

End EngineFacts.
(** ** The HTTP layer *)

Module MainFacts.
Import Main DbTerms.

Lemma lstrip_space a s : all_space a = true -> lstrip (a ++ s) = lstrip s.
Proof.
  unfold all_space. induction a as [|c a IH]; [reflexivity|].
  cbn. intros H. apply andb_true_iff in H as [Hc H]. rewrite Hc. now apply IH.
Qed.

Lemma lstrip_all_space a : all_space a = true -> lstrip a = "".
Proof.
  unfold all_space. induction a as [|c a IH]; [reflexivity|].
  cbn. intros H. apply andb_true_iff in H as [Hc H]. rewrite Hc. now apply IH.
Qed.

Lemma rstrip_all_space b : all_space b = true -> rstrip b = "".
Proof.
  unfold all_space. induction b as [|c b IH]; [reflexivity|].
  cbn. intros H. apply andb_true_iff in H as [Hc H].
  now rewrite (IH H), Hc.
Qed.

Lemma rstrip_space s b : all_space b = true -> rstrip (s ++ b) = rstrip s.
Proof.
  intros H. induction s as [|c s IH]; cbn.
  - now apply rstrip_all_space.
  - now rewrite IH.
Qed.

Lemma lstrip_app s t :
  lstrip (s ++ t) = if all_space s then lstrip t else (lstrip s ++ t)%string.
Proof.
  unfold all_space. induction s as [|c s IH]; [reflexivity|].
  cbn. destruct (Regex.is_space c); [exact IH | reflexivity].
Qed.

Lemma strip_spaces a k b :
  all_space a = true -> all_space b = true ->
  strip (a ++ k ++ b)%string = strip k.
Proof.
  intros Ha Hb. unfold strip. rewrite (@lstrip_space a _ Ha), lstrip_app.
  destruct (all_space k) eqn:Hk.
  - now rewrite (@lstrip_all_space b Hb), (@lstrip_all_space k Hk).
  - now apply rstrip_space.
Qed.

(** X21. The API key check.  Without a key in the environment (unset, empty
    or white space only) every request passes.  With a key, a request
    passes exactly when its header, white space at both ends taken off,
    equals the key with white space at both ends taken off; a request
    without the header, or with an empty one, is refused with status 401;
    white space around the header makes no difference. *)
Theorem api_key_is_compared_stripped (env_key x_api_key : option string) :
  let expected := strip (or_empty env_key) in
  (expected = "" -> check_api_key env_key x_api_key = None)
  /\ (expected <> "" ->
      (check_api_key env_key x_api_key = None
       <-> strip (or_empty x_api_key) = expected)
      /\ (check_api_key env_key x_api_key <> None ->
          check_api_key env_key x_api_key
          = Some (Http 401 "Invalid API key"))
      /\ check_api_key env_key None = Some (Http 401 "Invalid API key")
      /\ check_api_key env_key (Some "")
         = Some (Http 401 "Invalid API key"))
  /\ (forall a k b : string,
        all_space a = true -> all_space b = true ->
        check_api_key env_key (Some (a ++ k ++ b)%string)
        = check_api_key env_key (Some k)).
Proof.
  cbv zeta. unfold check_api_key. split; [|split].
  - now intros ->.
  - intros Hne.
    assert (E : PyStr.nonempty (strip (or_empty env_key)) = true)
      by (destruct (strip (or_empty env_key)); [contradiction | reflexivity]).
    rewrite E. cbn [andb or_empty]. repeat split.
    + destruct (String.eqb _ _) eqn:Eq; [|discriminate].
      intros _. now apply String.eqb_eq.
    + intros ->. now rewrite String.eqb_refl.
    + destruct (String.eqb _ _); [contradiction | reflexivity].
    + change (strip "") with "".
      destruct (String.eqb "" (strip (or_empty env_key))) eqn:Eq;
        [|reflexivity].
      apply String.eqb_eq in Eq. now contradiction Hne.
    + change (strip "") with "".
      destruct (String.eqb "" (strip (or_empty env_key))) eqn:Eq;
        [|reflexivity].
      apply String.eqb_eq in Eq. now contradiction Hne.
  - intros a k b Ha Hb. cbn [or_empty]. now rewrite strip_spaces.
Qed.


(** *** The ranking of the admin endpoint *)










Section Ranking.

Variable sql_round : float -> Z -> float.


End Ranking.

End MainFacts.
